(** * Sports prediction backend: events, predictions, listing, archival

    A shallow embedding of the TypeScript backend (Express routes, services
    and PostgreSQL repositories) together with the properties its
    specification states about it.

    The repository holds two revisions of some files; the embedding follows
    the later one throughout: [is_archived] is a column of [events]
    (migration 003), predictions are unique per event (migration 002), and the
    event list is filtered, ordered and paginated in [EventRepository.findAll].

    Conventions of the embedding:
    - instants ([Date], [TIMESTAMP], [NOW()]) are integers, milliseconds
      since the Unix epoch; the server process and the database session both
      run in UTC, and the store's clock is read in whole milliseconds; an
      invalid [Date] object is a separate value;
    - a JavaScript number that holds an integer is that integer, rounded the
      way a double is (53 significant bits); one of magnitude [2 ^ 1024] or
      more stands for an infinity.  A number with a fraction is the rational
      its decimal rendering denotes, which is what reaches the store;
    - JavaScript strings are [string]s holding their UTF-8 bytes, the form in
      which they are hashed and in which they reach the store;
    - a table is the list of its rows in storage order, new row versions
      last; it holds fewer than [2 ^ 53] rows (PostgreSQL addresses at most
      [2 ^ 32] pages of a table), so that a row count is an exact JavaScript
      number.  The database is a record of tables threaded through every
      repository call;
    - the order in which the store returns rows that an [ORDER BY] leaves
      tied is not fixed by the query: it is a parameter of every list query,
      a [Sql.Plan];
    - a call that can throw returns a [Result]. *)

From Stdlib Require Import ZArith List String Ascii Bool Lia QArith.
From Stdlib Require Import Sorting.Sorted Sorting.Permutation.
Import ListNotations.
Local Open Scope string_scope.
Local Open Scope list_scope.
Local Open Scope Z_scope.

(** ** SHA-256 (FIPS 180-4), the digest behind [crypto.createHash('sha256')] *)

Module Sha256.

Definition word (x : Z) : Z := x mod 2 ^ 32.

Definition add32 (x y : Z) : Z := word (x + y).

Definition rotr (n x : Z) : Z :=
  Z.lor (Z.shiftr x n) (word (Z.shiftl x (32 - n))).

Definition Ch (x y z : Z) : Z :=
  Z.lxor (Z.land x y) (Z.land (word (Z.lnot x)) z).

Definition Maj (x y z : Z) : Z :=
  Z.lxor (Z.lxor (Z.land x y) (Z.land x z)) (Z.land y z).

Definition xor3 (a b c : Z) : Z := Z.lxor (Z.lxor a b) c.

Definition bigSigma0 (x : Z) : Z := xor3 (rotr 2 x) (rotr 13 x) (rotr 22 x).
Definition bigSigma1 (x : Z) : Z := xor3 (rotr 6 x) (rotr 11 x) (rotr 25 x).
Definition smallSigma0 (x : Z) : Z := xor3 (rotr 7 x) (rotr 18 x) (Z.shiftr x 3).
Definition smallSigma1 (x : Z) : Z := xor3 (rotr 17 x) (rotr 19 x) (Z.shiftr x 10).

(** The round constants are the first 32 bits of the fractional parts of the
    cube roots of the first 64 primes; the initial hash value uses the square
    roots of the first 8.  Both are computed here rather than tabulated. *)

Fixpoint no_divisor (ps : list Z) (n : Z) : bool :=
  match ps with
  | [] => true
  | p :: ps' => negb (n mod p =? 0) && no_divisor ps' n
  end.

Fixpoint primes_from (fuel : nat) (n : Z) (count : nat) (found : list Z) : list Z :=
  match fuel, count with
  | O, _ | _, O => rev found
  | S fuel', S count' =>
      if no_divisor found n
      then primes_from fuel' (n + 1) count' (n :: found)
      else primes_from fuel' (n + 1) count found
  end.

Definition first_primes (count : nat) : list Z := primes_from 400 2 count [].

(** Largest [r] below [2 ^ bits] with [r ^ 3 <= n], one bit at a time. *)
Fixpoint cube_root_bits (bits : nat) (n r : Z) : Z :=
  match bits with
  | O => r
  | S b =>
      let r' := r + 2 ^ Z.of_nat b in
      cube_root_bits b n (if r' * r' * r' <=? n then r' else r)
  end.

Definition frac_cbrt32 (p : Z) : Z := word (cube_root_bits 36 (p * 2 ^ 96) 0).
Definition frac_sqrt32 (p : Z) : Z := word (Z.sqrt (p * 2 ^ 64)).

Definition K : list Z := Eval vm_compute in map frac_cbrt32 (first_primes 64).

Record state : Type := mkState
  { sa : Z; sb : Z; sc : Z; sd : Z; se : Z; sf : Z; sg : Z; sh : Z }.

Definition H0 : state :=
  Eval vm_compute in
    match map frac_sqrt32 (first_primes 8) with
    | [a; b; c; d; e; f; g; h] => mkState a b c d e f g h
    | _ => mkState 0 0 0 0 0 0 0 0
    end.

(** Padding: a one bit, zeros up to 56 mod 64 bytes, then the bit length as a
    64-bit big-endian integer. *)

Fixpoint be_bytes (n : nat) (x : Z) : list Z :=
  match n with
  | O => []
  | S n' => (x / 256 ^ Z.of_nat n') mod 256 :: be_bytes n' x
  end.

Definition pad (msg : list Z) : list Z :=
  let len := Z.of_nat (List.length msg) in
  let zeros := Z.to_nat ((55 - len) mod 64) in
  msg ++ [128] ++ repeat 0 zeros ++ be_bytes 8 (8 * len).

Fixpoint be_words (fuel : nat) (bs : list Z) : list Z :=
  match fuel, bs with
  | S fuel', b0 :: b1 :: b2 :: b3 :: rest =>
      (((b0 * 256 + b1) * 256 + b2) * 256 + b3) :: be_words fuel' rest
  | _, _ => []
  end.

(** The message schedule, most recent word first while it is being built. *)
Fixpoint extend (n : nat) (rev_w : list Z) : list Z :=
  match n with
  | O => rev_w
  | S n' =>
      let w2 := nth 1 rev_w 0 in
      let w7 := nth 6 rev_w 0 in
      let w15 := nth 14 rev_w 0 in
      let w16 := nth 15 rev_w 0 in
      extend n'
        (add32 (add32 (smallSigma1 w2) w7) (add32 (smallSigma0 w15) w16) :: rev_w)
  end.

Definition schedule (block : list Z) : list Z := rev (extend 48 (rev block)).

Definition round (s : state) (kw : Z * Z) : state :=
  let (k, w) := kw in
  let t1 :=
    add32 (add32 (add32 (sh s) (bigSigma1 (se s))) (Ch (se s) (sf s) (sg s)))
          (add32 k w) in
  let t2 := add32 (bigSigma0 (sa s)) (Maj (sa s) (sb s) (sc s)) in
  mkState (add32 t1 t2) (sa s) (sb s) (sc s) (add32 (sd s) t1) (se s) (sf s) (sg s).

Definition compress (h : state) (block : list Z) : state :=
  let r := fold_left round (combine K (schedule block)) h in
  mkState (add32 (sa h) (sa r)) (add32 (sb h) (sb r)) (add32 (sc h) (sc r))
          (add32 (sd h) (sd r)) (add32 (se h) (se r)) (add32 (sf h) (sf r))
          (add32 (sg h) (sg r)) (add32 (sh h) (sh r)).

Fixpoint blocks (fuel : nat) (ws : list Z) : list (list Z) :=
  match fuel, ws with
  | S fuel', _ :: _ => firstn 16 ws :: blocks fuel' (skipn 16 ws)
  | _, _ => []
  end.

Definition hash (msg : list Z) : state :=
  let ws := be_words (List.length msg + 72) (pad msg) in
  fold_left compress (blocks (List.length ws) ws) H0.

(** [digest('hex')]: eight lowercase hexadecimal digits per state word. *)

Definition hex_digit (d : Z) : ascii :=
  nth (Z.to_nat (d mod 16))
      (list_ascii_of_string "0123456789abcdef") "0"%char.

Definition hex_word (x : Z) : list ascii :=
  map (fun i => hex_digit (x / 16 ^ i)) [7; 6; 5; 4; 3; 2; 1; 0].

Definition hex_state (s : state) : string :=
  string_of_list_ascii
    (hex_word (sa s) ++ hex_word (sb s) ++ hex_word (sc s) ++ hex_word (sd s) ++
     hex_word (se s) ++ hex_word (sf s) ++ hex_word (sg s) ++ hex_word (sh s)).

Definition bytes_of_string (s : string) : list Z :=
  map (fun c => Z.of_nat (nat_of_ascii c)) (list_ascii_of_string s).

Definition hexdigest (s : string) : string := hex_state (hash (bytes_of_string s)).

Definition is_lower_hex (c : ascii) : bool :=
  let n := nat_of_ascii c in
  ((48 <=? n)%nat && (n <=? 57)%nat) || ((97 <=? n)%nat && (n <=? 102)%nat).

End Sha256.

(** ** The JavaScript values and built-ins the backend relies on *)

Inductive Error : Type :=
| RangeError                                (* thrown by [Date.prototype.toISOString] *)
| TypeError                                 (* a property read on [undefined] *)
| StorageError (cause : string)             (* a rejected [db.query] *)
| AppError (statusCode : Z) (message : string).

Inductive Result (A : Type) : Type :=
| Ok (value : A)
| Throw (e : Error).

Arguments Ok {A} value.
Arguments Throw {A} e.

Definition bind {A B : Type} (r : Result A) (k : A -> Result B) : Result B :=
  match r with
  | Ok a => k a
  | Throw e => Throw e
  end.

Notation "'let*' x ':=' r 'in' k" := (bind r (fun x => k))
  (at level 10, x name, r at level 100, k at level 200).

(** A [Date] object: a time value in milliseconds, or the invalid date. *)
Inductive JSDate : Type :=
| TimeValue (ms : Z)
| InvalidDate.

Module Js.

(** [if (s)] on a string: only the empty string is falsy. *)
Definition truthy (s : string) : bool := negb (s =? "")%string.

(** The number of bytes of the white-space character the string starts
    with, 0 when it starts with none.  White space is what [parseInt] skips:
    the ECMAScript [WhiteSpace] and [LineTerminator] code points, which in
    UTF-8 are the bytes 9 to 13 and 32, [C2 A0] (U+00A0), [E1 9A 80]
    (U+1680), [E2 80 80] to [E2 80 8A] (U+2000 to U+200A), [E2 80 A8] and
    [E2 80 A9] (U+2028, U+2029), [E2 80 AF] (U+202F), [E2 81 9F] (U+205F),
    [E3 80 80] (U+3000) and [EF BB BF] (U+FEFF). *)
Definition space_width (s : string) : nat :=
  match s with
  | String a rest =>
      let x := nat_of_ascii a in
      if (((9 <=? x) && (x <=? 13)) || (x =? 32))%nat then 1%nat
      else
        match rest with
        | String b rest' =>
            let y := nat_of_ascii b in
            if ((x =? 194) && (y =? 160))%nat then 2%nat
            else
              match rest' with
              | String c _ =>
                  let z := nat_of_ascii c in
                  if (((x =? 225) && (y =? 154) && (z =? 128))
                      || ((x =? 226) && (y =? 128)
                          && (((128 <=? z) && (z <=? 138))
                              || (z =? 168) || (z =? 169) || (z =? 175)))
                      || ((x =? 226) && (y =? 129) && (z =? 159))
                      || ((x =? 227) && (y =? 128) && (z =? 128))
                      || ((x =? 239) && (y =? 187) && (z =? 191)))%nat
                  then 3%nat else 0%nat
              | EmptyString => 0%nat
              end
        | EmptyString => 0%nat
        end
  | EmptyString => 0%nat
  end.

(** The string without its leading white space; [skip] counts the bytes of
    a white-space character that are still to be passed over. *)
Fixpoint trim_from (skip : nat) (s : string) : string :=
  match s with
  | EmptyString => s
  | String _ rest =>
      match skip with
      | S k => trim_from k rest
      | O =>
          match space_width s with
          | O => s
          | S k => trim_from k rest
          end
      end
  end.

Definition trim_start (s : string) : string := trim_from 0 s.

(** The JavaScript number an integer becomes: itself up to [2 ^ 53] in
    magnitude, and beyond that the nearest integer with 53 significant bits,
    a tie going to the one whose last bit is 0. *)
Definition double (z : Z) : Z :=
  let a := Z.abs z in
  if a <=? 2 ^ 53 then z
  else
    let e := Z.log2 a - 52 in
    let q := a / 2 ^ e in
    let r := a mod 2 ^ e in
    let half := 2 ^ (e - 1) in
    let m := if r <? half then q
             else if half <? r then q + 1
             else if Z.even q then q else q + 1 in
    Z.sgn z * (m * 2 ^ e).

(** [a - b] and [a * b] on numbers that hold integers.  (The handlers never
    subtract two infinities nor multiply one by zero.) *)
Definition sub (a b : Z) : Z := double (a - b).
Definition mul (a b : Z) : Z := double (a * b).

Definition digit_value (c : ascii) : option Z :=
  let n := nat_of_ascii c in
  if ((48 <=? n)%nat && (n <=? 57)%nat)%bool
  then Some (Z.of_nat n - 48) else None.

(** The value of the longest prefix of decimal digits, if there is one. *)
Fixpoint leading_digits (s : string) (acc : option Z) : option Z :=
  match s with
  | String c rest =>
      match digit_value c with
      | Some d =>
          leading_digits rest
            (Some (10 * match acc with Some a => a | None => 0 end + d))
      | None => acc
      end
  | EmptyString => acc
  end.

(** [parseInt(s, 10)]; [None] is [NaN].  Leading white space is skipped, one
    sign is read, then digits up to the first other character; the integer
    they denote is returned as a number.  (Past the twentieth significant
    digit an engine may read a digit as 0; every such value is beyond the
    integer types of the store either way.) *)
Definition parseInt (s : string) : option Z :=
  option_map double
    match trim_start s with
    | String "-" rest => option_map Z.opp (leading_digits rest None)
    | String "+" rest => leading_digits rest None
    | body => leading_digits body None
    end.

(** [n || d] on a number: [NaN] and [0] are falsy. *)
Definition or_default (n : option Z) (d : Z) : Z :=
  match n with
  | Some v => if v =? 0 then d else v
  | None => d
  end.

(** [Math.ceil(a / b)] on a row count [a] and a positive integer [b];
    [None] when the quotient is not a finite number ([b = 0]).  The quotient
    is rounded to a double before [Math.ceil] sees it, and for [a] below
    [2 ^ 53] that cannot change the result: the rounding moves it by less
    than [1 / b], the least distance of a fractional [a / b] from the
    integer below it. *)
Definition ceil_div (a b : Z) : option Z :=
  if b =? 0 then None else Some (- ((- a) / b)).

(** Calendar fields of a day count since 1970-01-01 (proleptic Gregorian). *)
Definition civil_from_days (days : Z) : Z * Z * Z :=
  let z := days + 719468 in
  let era := z / 146097 in
  let doe := z - era * 146097 in
  let yoe := (doe - doe / 1460 + doe / 36524 - doe / 146096) / 365 in
  let doy := doe - (365 * yoe + yoe / 4 - yoe / 100) in
  let mp := (5 * doy + 2) / 153 in
  let d := doy - (153 * mp + 2) / 5 + 1 in
  let m := if mp <? 10 then mp + 3 else mp - 9 in
  let y := yoe + era * 400 + (if m <=? 2 then 1 else 0) in
  (y, m, d).

Definition dec_digit (d : Z) : ascii := ascii_of_nat (48 + Z.to_nat (d mod 10)).

Fixpoint dec_digits (n : nat) (x : Z) : string :=
  match n with
  | O => EmptyString
  | S n' => String (dec_digit (x / 10 ^ Z.of_nat n')) (dec_digits n' x)
  end.

Definition iso_year (y : Z) : string :=
  if ((0 <=? y) && (y <=? 9999))%bool then dec_digits 4 y
  else
    let sign := if y <? 0 then "-" else "+" in
    (sign ++ dec_digits 6 (Z.abs y))%string.

Definition max_time : Z := 8640000000000000.

(** [Date.prototype.toISOString]: [YYYY-MM-DDTHH:mm:ss.sssZ]; a [RangeError]
    on a date that holds no valid time value. *)
Definition toISOString (d : JSDate) : Result string :=
  match d with
  | InvalidDate => Throw RangeError
  | TimeValue ms =>
      if ((- max_time <=? ms) && (ms <=? max_time))%bool then
        let '(y, m, dd) := civil_from_days (ms / 86400000) in
        let t := ms mod 86400000 in
        Ok (iso_year y ++ "-" ++ dec_digits 2 m ++ "-" ++ dec_digits 2 dd ++ "T"
            ++ dec_digits 2 (t / 3600000) ++ ":"
            ++ dec_digits 2 (t / 60000 mod 60) ++ ":"
            ++ dec_digits 2 (t / 1000 mod 60) ++ "."
            ++ dec_digits 3 (t mod 1000) ++ "Z")%string
      else Throw RangeError
  end.

(** [isNaN(d.getTime())] *)
Definition is_invalid (d : JSDate) : bool :=
  match d with
  | InvalidDate => true
  | TimeValue ms => negb ((- max_time <=? ms) && (ms <=? max_time))
  end.

(** [new Date(t)] for a number [t] that holds an integer. *)
Definition date_of_time (t : Z) : JSDate :=
  if ((- max_time <=? t) && (t <=? max_time))%bool then TimeValue t else InvalidDate.

(** [s.split(sep)] for a non-empty separator: [skip] counts the characters
    of a separator just matched that are still to be passed over. *)
Fixpoint split_from (sep s : string) (skip : nat) (cur : string) : list string :=
  match s with
  | EmptyString => [cur]
  | String c rest =>
      match skip with
      | S k => split_from sep rest k cur
      | O =>
          if String.prefix sep s
          then cur :: split_from sep rest (String.length sep - 1) ""
          else split_from sep rest 0 (cur ++ String c "")%string
      end
  end.

Definition split (sep s : string) : list string := split_from sep s 0 "".

(** [a ?? b] *)
Definition coalesce {A : Type} (a b : option A) : option A :=
  match a with
  | Some _ => a
  | None => b
  end.

End Js.

(** The values a property of a [Partial<...>] object can hold. *)
Inductive JsValue : Type :=
| VUndefined
| VNull
| VString (s : string)
| VNumber (q : Q)
| VBool (b : bool)
| VDate (d : JSDate).

(** [Object.entries] of an object: its own properties, keys distinct. *)
Definition Entries : Type := list (string * JsValue).

(** The built-ins whose grammar is set by the JavaScript engine and not by
    this code base: [parseFloat] ([None] stands for [NaN] and the two
    infinities, which the one caller treats alike), [new Date(string)] and
    the Unicode case mappings of [String.prototype]. *)
Record Runtime : Type := mkRuntime
  { parseFloat : string -> option Q;
    newDate : string -> JSDate;
    toLowerCase : string -> string;
    toUpperCase : string -> string }.

(** ** types/index.ts *)

(** [generateEventRef]: SHA-256, in hexadecimal, of
    [`${sport}|${homeTeam}|${awayTeam}|${eventDate.toISOString()}`]. *)
Definition generateEventRef
    (sport homeTeam awayTeam : string) (eventDate : JSDate) : Result string :=
  let* iso := Js.toISOString eventDate in
  let data := (sport ++ "|" ++ homeTeam ++ "|" ++ awayTeam ++ "|" ++ iso)%string in
  Ok (Sha256.hexdigest data).

(** ** The store: migrations 001 to 003 *)

Module Event.
(** A row of [events]; [is_archived] is the column migration 003 adds. *)
Record t : Type := mk
  { id : Z;
    event_ref : string;
    sport : string;
    league : string;
    home_team : string;
    away_team : string;
    event_date : Z;
    venue : option string;
    status : string;
    created_at : Z;
    updated_at : Z;
    is_archived : bool }.

Definition archive (now : Z) (r : t) : t :=
  mk (id r) (event_ref r) (sport r) (league r) (home_team r) (away_team r)
     (event_date r) (venue r) (status r) (created_at r) now true.
End Event.

Module Prediction.
(** A row of [predictions]; [confidence_score] is [DECIMAL(5, 2)], held in
    hundredths. *)
Record t : Type := mk
  { id : Z;
    event_id : Z;
    prediction_type : string;
    predicted_value : string;
    confidence_score : Z;
    reasoning : string;
    model_version : string;
    created_at : Z;
    updated_at : Z }.
End Prediction.

(** [Omit<Event, 'id' | 'created_at' | 'updated_at'>], as [create] reads it. *)
Record EventInput : Type := mkEventInput
  { in_event_ref : string;
    in_sport : string;
    in_league : string;
    in_home_team : string;
    in_away_team : string;
    in_event_date : JSDate;
    in_venue : option string;
    in_status : string }.

Record Db : Type := mkDb
  { events : list Event.t;
    predictions : list Prediction.t;
    events_id_seq : Z }.

Definition with_events (rows : list Event.t) (db : Db) : Db :=
  mkDb rows (predictions db) (events_id_seq db).

(** Repository code runs against the store and may throw. *)
Definition M (A : Type) : Type := Db -> Db * Result A.

Definition ret {A : Type} (a : A) : M A := fun db => (db, Ok a).

Definition throw {A : Type} (e : Error) : M A := fun db => (db, Throw e).

Definition mbind {A B : Type} (m : M A) (k : A -> M B) : M B :=
  fun db =>
    match m db with
    | (db', Ok a) => k a db'
    | (db', Throw e) => (db', Throw e)
    end.

Notation "x <- m ;; k" := (mbind m (fun x => k))
  (at level 100, m at next level, right associativity).

Definition ms_per_day : Z := 24 * 60 * 60 * 1000.

Module Sql.

(** [CONSTRAINT check_status] of the [events] table. *)
Definition check_status (s : string) : bool :=
  existsb (String.eqb s) ["SCHEDULED"; "LIVE"; "COMPLETED"; "POSTPONED"; "CANCELLED"].

(** A number bound to an [INTEGER] parameter, or the days of an [INTERVAL]:
    PostgreSQL rejects a value outside the 32-bit range. *)
Definition int4 (n : Z) : bool := (- 2 ^ 31 <=? n) && (n <? 2 ^ 31).

(** A number bound to a [BIGINT] parameter, as [LIMIT] and [OFFSET] are. *)
Definition int8 (n : Z) : bool := (- 2 ^ 63 <=? n) && (n <? 2 ^ 63).

(** The instants a [TIMESTAMP] holds: from Julian day 0 (24 November 4714 BC)
    up to, and not including, the first instant of the year 294277. *)
Definition min_timestamp : Z := - 210866803200000.
Definition end_timestamp : Z := 9224318016000000.

Definition timestamp_ok (t : Z) : bool := (min_timestamp <=? t) && (t <? end_timestamp).

(** A [Date] bound to a [TIMESTAMP] parameter: an invalid date is no
    timestamp at all, and a valid one may lie before the first timestamp. *)
Definition timestamp_param (d : JSDate) : option Z :=
  if Js.is_invalid d then None
  else match d with
       | TimeValue ms => if timestamp_ok ms then Some ms else None
       | InvalidDate => None
       end.

(** A string bound to a text parameter: PostgreSQL takes no NUL character. *)
Definition text_ok (s : string) : bool :=
  forallb (fun c => negb (nat_of_ascii c =? 0)%nat) (list_ascii_of_string s).

(** The bytes [10xxxxxx], which continue a character in UTF-8. *)
Definition continuation (c : ascii) : bool :=
  let n := nat_of_ascii c in ((128 <=? n) && (n <? 192))%nat.

(** The number of characters of a string. *)
Fixpoint char_length (s : string) : nat :=
  match s with
  | EmptyString => 0%nat
  | String c rest => ((if continuation c then 0 else 1) + char_length rest)%nat
  end.

(** The first [n] characters of a string, and what follows them. *)
Fixpoint split_chars (n : nat) (s : string) : string * string :=
  match s with
  | EmptyString => (EmptyString, EmptyString)
  | String c rest =>
      if continuation c then
        let (kept, excess) := split_chars n rest in (String c kept, excess)
      else
        match n with
        | O => (EmptyString, s)
        | S k => let (kept, excess) := split_chars k rest in (String c kept, excess)
        end
  end.

(** A string assigned to a [VARCHAR(n)] column: a value of more than [n]
    characters is rejected, unless all that goes beyond the [n]-th character
    is spaces, which are then cut off. *)
Definition varchar (n : nat) (s : string) : option string :=
  let (kept, excess) := split_chars n s in
  if forallb (fun c => (nat_of_ascii c =? 32)%nat) (list_ascii_of_string excess)
  then Some kept else None.

(** A string parameter assigned to a [VARCHAR(n)] column through [set]. *)
Definition text {Row : Type} (n : nat) (v : string) (set : string -> Row -> Row)
  : option (Row -> Row) :=
  if text_ok v then option_map set (varchar n v) else None.

(** A number bound to an [INTEGER] parameter. *)
Definition integer (q : Q) : option Z :=
  if (Qnum q mod Zpos (Qden q) =? 0) then
    let n := Qnum q / Zpos (Qden q) in
    if int4 n then Some n else None
  else None.

(** The row an [INSERT INTO events] builds from the record, each string
    assigned to its column; [None] when one of them does not fit. *)
Definition new_event (id now date : Z) (e : EventInput) : option Event.t :=
  match varchar 64 (in_event_ref e), varchar 50 (in_sport e), varchar 100 (in_league e),
        varchar 100 (in_home_team e), varchar 100 (in_away_team e),
        varchar 20 (in_status e) with
  | Some ref, Some sport, Some league, Some home, Some away, Some status =>
      match in_venue e with
      | None =>
          Some (Event.mk id ref sport league home away date None status now now false)
      | Some v =>
          option_map
            (fun venue =>
               Event.mk id ref sport league home away date (Some venue) status now now false)
            (varchar 200 v)
      end
  | _, _, _, _, _, _ => None
  end.

(** The strings [create] binds all reach the store. *)
Definition event_text_ok (e : EventInput) : bool :=
  forallb text_ok
    [in_event_ref e; in_sport e; in_league e; in_home_team e; in_away_team e; in_status e]
  && match in_venue e with
     | Some v => text_ok v
     | None => true
     end.

(** [INSERT INTO events (...) VALUES (...) ON CONFLICT (event_ref) DO NOTHING
    RETURNING *].  The parameters are read first: a NUL character, a date
    that is no timestamp or a string too long for its column ends the
    statement before it runs.  Then the defaults are filled in ([id] from the
    sequence, which has 2 ^ 31 - 1 as its last value, both timestamps,
    [is_archived = false]) and the check constraint is tested; only then is
    the unique index on [event_ref] consulted, and after it the primary key.
    The sequence value is used up whether or not a row is inserted. *)
Definition insert_event_do_nothing (now : Z) (e : EventInput) : M (list Event.t) :=
  fun db =>
    if negb (event_text_ok e) then
      (db, Throw (StorageError "invalid byte sequence for encoding UTF8: 0x00"))
    else
      match timestamp_param (in_event_date e) with
      | None => (db, Throw (StorageError "no timestamp: invalid input syntax or out of range"))
      | Some date =>
          match new_event (events_id_seq db) now date e with
          | None => (db, Throw (StorageError "value too long for type character varying"))
          | Some row =>
              if 2 ^ 31 <=? events_id_seq db then
                (db, Throw (StorageError "nextval: reached maximum value of sequence"))
              else
                let db1 := mkDb (events db) (predictions db) (events_id_seq db + 1) in
                if negb (check_status (Event.status row)) then
                  (db1, Throw (StorageError "violates check constraint check_status"))
                else if existsb (fun r => Event.event_ref r =? Event.event_ref row)%string
                                (events db)
                then (db1, Ok [])
                else if existsb (fun r => Event.id r =? Event.id row) (events db) then
                  (db1, Throw (StorageError "duplicate key value violates events_pkey"))
                else (with_events (events db ++ [row]) db1, Ok [row])
          end
      end.

(** [SELECT * FROM events WHERE event_ref = $1] *)
Definition select_events_by_ref (ref : string) : M (list Event.t) :=
  fun db =>
    if text_ok ref
    then (db, Ok (filter (fun r => Event.event_ref r =? ref)%string (events db)))
    else (db, Throw (StorageError "invalid byte sequence for encoding UTF8: 0x00")).

(** [WHERE is_archived = false AND event_date < NOW() - INTERVAL 'n days'],
    a day being 24 hours. *)
Definition archivable (now retentionDays : Z) (r : Event.t) : bool :=
  negb (Event.is_archived r)
  && (Event.event_date r <? now - retentionDays * ms_per_day).

(** [UPDATE events SET is_archived = true WHERE ...].  The days of an
    interval are a 32-bit integer, and [NOW() - INTERVAL ...] has to be a
    timestamp again; if not, the statement fails whatever the table holds.
    Each row the statement touches becomes a new row version, with
    [updated_at] refreshed by the [BEFORE UPDATE] trigger.  The result is
    [rowCount]. *)
Definition update_archive (now retentionDays : Z) : M Z :=
  fun db =>
    if negb (int4 retentionDays) then
      (db, Throw (StorageError "interval field value out of range"))
    else if negb (timestamp_ok (now - retentionDays * ms_per_day)) then
      (db, Throw (StorageError "timestamp out of range"))
    else
      let hit := archivable now retentionDays in
      (with_events (filter (fun r => negb (hit r)) (events db)
                    ++ map (Event.archive now) (filter hit (events db))) db,
       Ok (Z.of_nat (List.length (filter hit (events db))))).

(** The order in which a statement comes upon the rows it reads is the
    engine's choice (a scan of the table, of an index in either direction,
    ...): any rearrangement of them. *)
Record Plan (A : Type) : Type := mkPlan
  { visit : list A -> list A;
    visit_permutes : forall l : list A, Permutation (visit l) l }.

Arguments mkPlan {A}.
Arguments visit {A}.
Arguments visit_permutes {A}.

(** The rows in storage order, and in the reverse of it. *)
Definition forward {A : Type} : Plan A :=
  mkPlan (fun l => l) (fun l => Permutation_refl l).

Definition backward {A : Type} : Plan A :=
  mkPlan (fun l => rev l) (fun l => Permutation_sym (Permutation_rev l)).

(** [ORDER BY]; [le a b] says that [a] may come before [b].  SQL leaves the
    order of rows with equal keys open: they come out in the order in which
    the plan visits them. *)
Section OrderBy.
Context {A : Type} (le : A -> A -> bool).

Fixpoint insert_row (x : A) (l : list A) : list A :=
  match l with
  | [] => [x]
  | y :: l' => if le x y then x :: l else y :: insert_row x l'
  end.

Definition order_by (plan : Plan A) (l : list A) : list A :=
  fold_right insert_row [] (visit plan l).
End OrderBy.

(** [LIMIT $n OFFSET $m]: both are 64-bit integers, and PostgreSQL rejects a
    negative value of either. *)
Definition limit_offset {A : Type} (limit offset : Z) (l : list A) : Result (list A) :=
  if negb (int8 limit && int8 offset) then
    Throw (StorageError "value out of range for type bigint")
  else if ((limit <? 0) || (offset <? 0))%bool
  then Throw (StorageError "LIMIT and OFFSET must not be negative")
  else Ok (firstn (Z.to_nat limit) (skipn (Z.to_nat offset) l)).

(** An optional [Date] filter bound as a query parameter. *)
Definition date_param (d : option JSDate) : Result (option Z) :=
  match d with
  | None => Ok None
  | Some d' =>
      match timestamp_param d' with
      | Some t => Ok (Some t)
      | None => Throw (StorageError "no timestamp: invalid input syntax or out of range")
      end
  end.

(** The [LEFT JOIN LATERAL] of the event queries: the most recently created
    prediction of the event, if it has one.  (The unique index on [event_id]
    leaves an event one prediction at most, so that no two are ever tied.) *)
Definition latest_prediction (preds : list Prediction.t) (eventId : Z)
  : option Prediction.t :=
  hd_error
    (order_by (fun a b => Prediction.created_at b <=? Prediction.created_at a) forward
              (filter (fun p => Prediction.event_id p =? eventId) preds)).

(** [FROM predictions p INNER JOIN events e ON p.event_id = e.id] *)
Definition join_predictions_events (db : Db) : list (Prediction.t * Event.t) :=
  flat_map
    (fun p =>
       map (fun e => (p, e))
           (filter (fun e => Prediction.event_id p =? Event.id e) (events db)))
    (predictions db).

Fixpoint distinct (keys : list string) : bool :=
  match keys with
  | [] => true
  | k :: rest => negb (existsb (String.eqb k) rest) && distinct rest
  end.

Fixpoint distinctZ (keys : list Z) : bool :=
  match keys with
  | [] => true
  | k :: rest => negb (existsb (Z.eqb k) rest) && distinctZ rest
  end.

(** A key spliced into a statement where a column name is expected.  A word
    (a letter or [_], then letters, digits, [_] and [$]) is an identifier,
    which PostgreSQL folds to lower case: [ID] names the column [id].  Any
    other text is answered here as a syntax error; what a statement makes of
    quotes, blanks or operators inside a key is beyond this embedding. *)
Definition word_start (c : ascii) : bool :=
  let n := nat_of_ascii c in
  (((65 <=? n) && (n <=? 90)) || ((97 <=? n) && (n <=? 122)) || (n =? 95)
   || (128 <=? n))%nat.

Definition word_part (c : ascii) : bool :=
  let n := nat_of_ascii c in
  (word_start c || ((48 <=? n) && (n <=? 57)) || (n =? 36))%nat.

Definition fold_case (c : ascii) : ascii :=
  let n := nat_of_ascii c in
  if ((65 <=? n) && (n <=? 90))%nat then ascii_of_nat (n + 32) else c.

Fixpoint fold (s : string) : string :=
  match s with
  | String c rest => String (fold_case c) (fold rest)
  | EmptyString => EmptyString
  end.

Definition identifier (key : string) : option string :=
  match key with
  | String c rest =>
      if word_start c && forallb word_part (list_ascii_of_string rest)
      then Some (fold key) else None
  | EmptyString => None
  end.

(** [UPDATE t SET k1 = $1, ... WHERE id = $n RETURNING *].  [column] gives
    the effect of one assignment by the name of its column, for a value of
    the type the interface declares for it, or [None] when the statement is
    rejected before it runs (no such column, or a value the column does not
    take); naming a column twice is rejected as well.  [row_ok] is the
    table's check constraints, read on each new row version, and [table_ok]
    its unique indexes and foreign keys, read on the table after the
    statement; [touch] is the [BEFORE UPDATE] trigger.  The new row versions
    are stored after the rows that stay.  The result is the new table
    with the rows returned. *)
Section UpdateById.
Context {Row : Type}.
Variable row_id : Row -> Z.
Variable column : string -> JsValue -> option (Row -> Row).
Variable row_ok : Row -> bool.
Variable table_ok : list Row -> bool.
Variable touch : Z -> Row -> Row.

Fixpoint assignments (fields : Entries) : option (Row -> Row) :=
  match fields with
  | [] => Some (fun r => r)
  | (key, value) :: rest =>
      match identifier key with
      | Some name =>
          match column name value, assignments rest with
          | Some set, Some sets => Some (fun r => sets (set r))
          | _, _ => None
          end
      | None => None
      end
  end.

Definition targets (fields : Entries) : list string :=
  map (fun entry => match identifier (fst entry) with
                    | Some name => name
                    | None => EmptyString
                    end) fields.

Definition update_by_id (now id : Z) (fields : Entries) (rows : list Row)
  : Result (list Row * list Row) :=
  if negb (int4 id) then Throw (StorageError "value out of range for type integer")
  else
    match assignments fields with
    | None => Throw (StorageError "column or value rejected")
    | Some sets =>
        if negb (distinct (targets fields)) then
          Throw (StorageError "multiple assignments to same column")
        else
          let hit r := row_id r =? id in
          let returned := map (fun r => touch now (sets r)) (filter hit rows) in
          let rows' := filter (fun r => negb (hit r)) rows ++ returned in
          match returned with
          | [] => Ok (rows, [])
          | _ :: _ =>
              if (forallb row_ok returned && table_ok rows')%bool
              then Ok (rows', returned)
              else Throw (StorageError "constraint violated")
          end
    end.
End UpdateById.

(** [SELECT * FROM events WHERE id = $1] *)
Definition select_event_by_id (id : Z) : M (list Event.t) :=
  fun db =>
    if int4 id then (db, Ok (filter (fun r => Event.id r =? id) (events db)))
    else (db, Throw (StorageError "value out of range for type integer")).

(** [SELECT p.* FROM predictions p WHERE p.id = $1] *)
Definition select_prediction_by_id (id : Z) : M (list Prediction.t) :=
  fun db =>
    if int4 id then (db, Ok (filter (fun p => Prediction.id p =? id) (predictions db)))
    else (db, Throw (StorageError "value out of range for type integer")).

(** [DELETE FROM events WHERE id = $1]: the rows go, and with each of them
    the predictions that reference it ([ON DELETE CASCADE]).  The result is
    [rowCount]. *)
Definition delete_event (id : Z) : M Z :=
  fun db =>
    if int4 id then
      let hit r := Event.id r =? id in
      let gone := filter hit (events db) in
      (mkDb (filter (fun r => negb (hit r)) (events db))
            (match gone with
             | [] => predictions db
             | _ :: _ => filter (fun p => negb (Prediction.event_id p =? id)) (predictions db)
             end)
            (events_id_seq db),
       Ok (Z.of_nat (List.length gone)))
    else (db, Throw (StorageError "value out of range for type integer")).

(** [DELETE FROM predictions WHERE id = $1] *)
Definition delete_prediction (id : Z) : M Z :=
  fun db =>
    if int4 id then
      let hit p := Prediction.id p =? id in
      (mkDb (events db) (filter (fun p => negb (hit p)) (predictions db))
            (events_id_seq db),
       Ok (Z.of_nat (List.length (filter hit (predictions db)))))
    else (db, Throw (StorageError "value out of range for type integer")).

(** [SELECT COUNT( * ) as cnt FROM events WHERE is_archived = true] *)
Definition count_archived : M Z :=
  fun db => (db, Ok (Z.of_nat (List.length (filter Event.is_archived (events db))))).

End Sql.

(** The entries a repository's [update] turns into assignments. *)
Definition provided (entry : string * JsValue) : bool :=
  let (key, value) := entry in
  negb (match value with VUndefined => true | _ => false end)
  && negb (key =? "id")%string
  && negb (key =? "created_at")%string
  && negb (key =? "updated_at")%string.

(** [PaginationParams] *)
Record PaginationParams : Type := mkPagination
  { page : Z;
    limit : Z;
    offset : Z }.

(** [if (filters.x)] followed by [AND column = $n]: the clause is added only
    for a defined, non-empty string. *)
Definition clause (filter : option string) (test : string -> bool) : bool :=
  match filter with
  | Some v => if Js.truthy v then test v else true
  | None => true
  end.

(** A date clause: present whenever the filter holds a [Date] object. *)
Definition date_clause (bound : option Z) (test : Z -> bool) : bool :=
  match bound with
  | Some t => test t
  | None => true
  end.

(** An event as the list and detail queries return it. *)
Record EventView : Type := mkEventView
  { row : Event.t;
    prediction : option Prediction.t;
    winner : option string }.

Record EventFilters : Type := mkEventFilters
  { ef_sport : option string;
    ef_league : option string;
    ef_team : option string;
    ef_startDate : option JSDate;
    ef_endDate : option JSDate;
    ef_status : option string;
    ef_when : option string;
    ef_includePredictions : option bool }.

(** What [findById] returns for a stored event: the bare row, or the row
    with its [prediction] and [winner] properties. *)
Inductive EventDetail : Type :=
| Bare (r : Event.t)
| Detailed (v : EventView).

(** ** database/repositories/eventRepository.ts *)

Module EventRepository.

(** [create]: the conditional insert, then the look-up of the existing row
    when the insert returned nothing.  [rows[0]] of an empty result is
    [undefined], here [None]. *)
Definition create (now : Z) (event : EventInput) : M (option Event.t) :=
  rows <- Sql.insert_event_do_nothing now event ;;
  match rows with
  | [] =>
      existing <- Sql.select_events_by_ref (in_event_ref event) ;;
      ret (hd_error existing)
  | r :: _ => ret (Some r)
  end.

(** [archiveOldEvents]: [result.rowCount || 0]. *)
Definition archiveOldEvents (now retentionDays : Z) : M Z :=
  n <- Sql.update_archive now retentionDays ;;
  ret (Js.or_default (Some n) 0).

(** [filters.when === v] *)
Definition when_is (f : EventFilters) (v : string) : bool :=
  match ef_when f with
  | Some w => (w =? v)%string
  | None => false
  end.

(** The [WHERE] clause [findAll] builds, with the date parameters bound. *)
Definition where_ (now : Z) (f : EventFilters) (startDate endDate : option Z)
    (e : Event.t) : bool :=
  negb (Event.is_archived e)
  && clause (ef_sport f) (fun v => Event.sport e =? v)%string
  && clause (ef_league f) (fun v => Event.league e =? v)%string
  && clause (ef_team f)
       (fun v => (Event.home_team e =? v)%string || (Event.away_team e =? v)%string)
  && date_clause startDate (fun t => t <=? Event.event_date e)
  && date_clause endDate (fun t => Event.event_date e <=? t)
  && clause (ef_status f) (fun v => Event.status e =? v)%string
  && (if when_is f "upcoming" then now <=? Event.event_date e
      else if when_is f "past" then Event.event_date e <? now
      else true).

(** [ORDER BY e.event_date ASC] for ['upcoming'], [DESC] in both other
    branches. *)
Definition before (f : EventFilters) (a b : Event.t) : bool :=
  if when_is f "upcoming" then Event.event_date a <=? Event.event_date b
  else if when_is f "past" then Event.event_date b <=? Event.event_date a
  else Event.event_date b <=? Event.event_date a.

Definition view (db : Db) (e : Event.t) : EventView :=
  let p := Sql.latest_prediction (predictions db) (Event.id e) in
  mkEventView e p (option_map Prediction.predicted_value p).

(** The rows the count query counts. *)
Definition matching (now : Z) (f : EventFilters) (startDate endDate : option Z)
    (db : Db) : list Event.t :=
  filter (where_ now f startDate endDate) (events db).

(** The string parameters of the query [findAll] builds all reach the
    store. *)
Definition params_ok (f : EventFilters) : bool :=
  clause (ef_sport f) Sql.text_ok && clause (ef_league f) Sql.text_ok
  && clause (ef_team f) Sql.text_ok && clause (ef_status f) Sql.text_ok.

(** [findAll]: the count query, then the ordered and paginated query, which
    the store runs by [plan]. *)
Definition findAll (plan : Sql.Plan Event.t) (now : Z) (f : EventFilters)
    (pagination : PaginationParams) : M (list EventView * Z) :=
  fun db =>
    if negb (params_ok f) then
      (db, Throw (StorageError "invalid byte sequence for encoding UTF8: 0x00"))
    else
      match Sql.date_param (ef_startDate f), Sql.date_param (ef_endDate f) with
      | Ok startDate, Ok endDate =>
          let rows := matching now f startDate endDate db in
          let total := Z.of_nat (List.length rows) in
          match Sql.limit_offset (limit pagination) (offset pagination)
                                 (Sql.order_by (before f) plan rows) with
          | Ok pageRows => (db, Ok (map (view db) pageRows, total))
          | Throw e => (db, Throw e)
          end
      | Throw e, _ | _, Throw e => (db, Throw e)
      end.

Definition with_id v (r : Event.t) : Event.t :=
  Event.mk v (Event.event_ref r) (Event.sport r) (Event.league r) (Event.home_team r)
    (Event.away_team r) (Event.event_date r) (Event.venue r) (Event.status r)
    (Event.created_at r) (Event.updated_at r) (Event.is_archived r).
Definition with_created_at v (r : Event.t) : Event.t :=
  Event.mk (Event.id r) (Event.event_ref r) (Event.sport r) (Event.league r)
    (Event.home_team r) (Event.away_team r) (Event.event_date r) (Event.venue r)
    (Event.status r) v (Event.updated_at r) (Event.is_archived r).

Definition with_event_ref v (r : Event.t) : Event.t :=
  Event.mk (Event.id r) v (Event.sport r) (Event.league r) (Event.home_team r)
    (Event.away_team r) (Event.event_date r) (Event.venue r) (Event.status r)
    (Event.created_at r) (Event.updated_at r) (Event.is_archived r).
Definition with_sport v (r : Event.t) : Event.t :=
  Event.mk (Event.id r) (Event.event_ref r) v (Event.league r) (Event.home_team r)
    (Event.away_team r) (Event.event_date r) (Event.venue r) (Event.status r)
    (Event.created_at r) (Event.updated_at r) (Event.is_archived r).
Definition with_league v (r : Event.t) : Event.t :=
  Event.mk (Event.id r) (Event.event_ref r) (Event.sport r) v (Event.home_team r)
    (Event.away_team r) (Event.event_date r) (Event.venue r) (Event.status r)
    (Event.created_at r) (Event.updated_at r) (Event.is_archived r).
Definition with_home_team v (r : Event.t) : Event.t :=
  Event.mk (Event.id r) (Event.event_ref r) (Event.sport r) (Event.league r) v
    (Event.away_team r) (Event.event_date r) (Event.venue r) (Event.status r)
    (Event.created_at r) (Event.updated_at r) (Event.is_archived r).
Definition with_away_team v (r : Event.t) : Event.t :=
  Event.mk (Event.id r) (Event.event_ref r) (Event.sport r) (Event.league r)
    (Event.home_team r) v (Event.event_date r) (Event.venue r) (Event.status r)
    (Event.created_at r) (Event.updated_at r) (Event.is_archived r).
Definition with_event_date v (r : Event.t) : Event.t :=
  Event.mk (Event.id r) (Event.event_ref r) (Event.sport r) (Event.league r)
    (Event.home_team r) (Event.away_team r) v (Event.venue r) (Event.status r)
    (Event.created_at r) (Event.updated_at r) (Event.is_archived r).
Definition with_venue v (r : Event.t) : Event.t :=
  Event.mk (Event.id r) (Event.event_ref r) (Event.sport r) (Event.league r)
    (Event.home_team r) (Event.away_team r) (Event.event_date r) v (Event.status r)
    (Event.created_at r) (Event.updated_at r) (Event.is_archived r).
Definition with_status v (r : Event.t) : Event.t :=
  Event.mk (Event.id r) (Event.event_ref r) (Event.sport r) (Event.league r)
    (Event.home_team r) (Event.away_team r) (Event.event_date r) (Event.venue r) v
    (Event.created_at r) (Event.updated_at r) (Event.is_archived r).
Definition with_is_archived v (r : Event.t) : Event.t :=
  Event.mk (Event.id r) (Event.event_ref r) (Event.sport r) (Event.league r)
    (Event.home_team r) (Event.away_team r) (Event.event_date r) (Event.venue r)
    (Event.status r) (Event.created_at r) (Event.updated_at r) v.
Definition with_updated_at v (r : Event.t) : Event.t :=
  Event.mk (Event.id r) (Event.event_ref r) (Event.sport r) (Event.league r)
    (Event.home_team r) (Event.away_team r) (Event.event_date r) (Event.venue r)
    (Event.status r) (Event.created_at r) v (Event.is_archived r).

(** One [SET name = value] on [events], by the name of the column, for a
    value of the type the [Event] interface declares for it. *)
Definition column (name : string) (value : JsValue) : option (Event.t -> Event.t) :=
  match name, value with
  | "id", VNumber q => option_map with_id (Sql.integer q)
  | "event_ref", VString v => Sql.text 64 v with_event_ref
  | "sport", VString v => Sql.text 50 v with_sport
  | "league", VString v => Sql.text 100 v with_league
  | "home_team", VString v => Sql.text 100 v with_home_team
  | "away_team", VString v => Sql.text 100 v with_away_team
  | "event_date", VDate d => option_map with_event_date (Sql.timestamp_param d)
  | "venue", VString v => Sql.text 200 v (fun x => with_venue (Some x))
  | "venue", VNull => Some (with_venue None)
  | "status", VString v => Sql.text 20 v with_status
  | "created_at", VDate d => option_map with_created_at (Sql.timestamp_param d)
  | "updated_at", VDate d => option_map with_updated_at (Sql.timestamp_param d)
  | "is_archived", VBool b => Some (with_is_archived b)
  | _, _ => None
  end.

(** The primary key and the unique index on [event_ref], and the foreign key
    of [predictions]: a prediction that referenced the id still has to find
    its event. *)
Definition table_ok (db : Db) (id : Z) (rows : list Event.t) : bool :=
  Sql.distinctZ (map Event.id rows)
  && Sql.distinct (map Event.event_ref rows)
  && forallb (fun p => existsb (fun r => Event.id r =? Prediction.event_id p) rows)
             (filter (fun p => Prediction.event_id p =? id) (predictions db)).

(** [update]: nothing is sent to the store when no entry is provided. *)
Definition update (now id : Z) (event : Entries) : M (option Event.t) :=
  let fields := filter provided event in
  match fields with
  | [] => ret None
  | _ :: _ =>
      fun db =>
        match Sql.update_by_id Event.id column
                (fun r => Sql.check_status (Event.status r))
                (table_ok db id)
                with_updated_at now id fields (events db) with
        | Ok (rows', returned) => (with_events rows' db, Ok (hd_error returned))
        | Throw e => (db, Throw e)
        end
  end.

(** [findByEventRef]: [result.rows[0] || null]. *)
Definition findByEventRef (eventRef : string) : M (option Event.t) :=
  rows <- Sql.select_events_by_ref eventRef ;;
  ret (hd_error rows).

(** [findById(id, options)]; [includePredictions] is
    [options?.includePredictions], absent when either is. *)
Definition findById (id : Z) (includePredictions : option bool)
  : M (option EventDetail) :=
  let bare := match includePredictions with Some false => true | _ => false end in
  rows <- Sql.select_event_by_id id ;;
  if bare then ret (option_map Bare (hd_error rows))
  else fun db => (db, Ok (option_map (fun r => Detailed (view db r)) (hd_error rows))).

(** [delete]: [(result.rowCount || 0) > 0]. *)
Definition delete (id : Z) : M bool :=
  n <- Sql.delete_event id ;;
  ret (0 <? Js.or_default (Some n) 0).

(** [getArchivedCount] *)
Definition getArchivedCount : M Z := Sql.count_archived.

End EventRepository.

(** ** services/archiveService.ts *)

Record ArchiveJobResult : Type := mkArchiveJobResult
  { archivedCount : Z;
    retentionDays : Z;
    archivedBefore : JSDate }.

Module ArchiveService.

(** [archiveOldPredictions]: the store applies the cutoff at its own instant
    [now]; the cutoff reported is computed afterwards from [clock], the
    [Date.now()] of the process, as
    [new Date(Date.now() - retentionDays * 24 * 60 * 60 * 1000)]. *)
Definition archiveOldPredictions (now clock days : Z) : M ArchiveJobResult :=
  n <- EventRepository.archiveOldEvents now days ;;
  ret (mkArchiveJobResult n days
         (Js.date_of_time
            (Js.sub clock (Js.mul (Js.mul (Js.mul (Js.mul days 24) 60) 60) 1000)))).

Definition getArchivedCount : M Z := EventRepository.getArchivedCount.

End ArchiveService.

(** ** database/repositories/predictionRepository.ts *)

Record PredictionFilters : Type := mkPredictionFilters
  { pf_sport : option string;
    pf_league : option string;
    pf_team : option string;
    pf_startDate : option JSDate;
    pf_endDate : option JSDate;
    pf_predictionType : option string;
    pf_minConfidence : option Q;
    pf_includeArchived : option bool }.

(** [Omit<Prediction, 'id' | 'created_at' | 'updated_at'>], as [create]
    reads it. *)
Record PredictionInput : Type := mkPredictionInput
  { pin_event_id : Z;
    pin_prediction_type : string;
    pin_predicted_value : string;
    pin_confidence_score : Q;
    pin_reasoning : string;
    pin_model_version : string }.

Module PredictionRepository.

Definition where_ (f : PredictionFilters) (startDate endDate : option Z)
    (pe : Prediction.t * Event.t) : bool :=
  let (p, e) := pe in
  (match pf_includeArchived f with
   | Some true => true
   | _ => negb (Event.is_archived e)
   end)
  && clause (pf_sport f) (fun v => Event.sport e =? v)%string
  && clause (pf_league f) (fun v => Event.league e =? v)%string
  && clause (pf_team f)
       (fun v => (Event.home_team e =? v)%string || (Event.away_team e =? v)%string)
  && date_clause startDate (fun t => t <=? Event.event_date e)
  && date_clause endDate (fun t => Event.event_date e <=? t)
  && clause (pf_predictionType f) (fun v => Prediction.prediction_type p =? v)%string
  && match pf_minConfidence f with
     | Some c => Qle_bool c (Prediction.confidence_score p # 100)
     | None => true
     end.

(** [ORDER BY e.event_date DESC, p.created_at DESC] *)
Definition before (a b : Prediction.t * Event.t) : bool :=
  (Event.event_date (snd b) <? Event.event_date (snd a))
  || ((Event.event_date (snd a) =? Event.event_date (snd b))
      && (Prediction.created_at (fst b) <=? Prediction.created_at (fst a))).

Definition matching (f : PredictionFilters) (startDate endDate : option Z)
    (db : Db) : list (Prediction.t * Event.t) :=
  filter (where_ f startDate endDate) (Sql.join_predictions_events db).

Definition params_ok (f : PredictionFilters) : bool :=
  clause (pf_sport f) Sql.text_ok && clause (pf_league f) Sql.text_ok
  && clause (pf_team f) Sql.text_ok && clause (pf_predictionType f) Sql.text_ok.

Definition findAll (plan : Sql.Plan (Prediction.t * Event.t)) (f : PredictionFilters)
    (pagination : PaginationParams) : M (list Prediction.t * Z) :=
  fun db =>
    if negb (params_ok f) then
      (db, Throw (StorageError "invalid byte sequence for encoding UTF8: 0x00"))
    else
      match Sql.date_param (pf_startDate f), Sql.date_param (pf_endDate f) with
      | Ok startDate, Ok endDate =>
          let rows := matching f startDate endDate db in
          let total := Z.of_nat (List.length rows) in
          match Sql.limit_offset (limit pagination) (offset pagination)
                                 (Sql.order_by before plan rows) with
          | Ok pageRows => (db, Ok (map fst pageRows, total))
          | Throw e => (db, Throw e)
          end
      | Throw e, _ | _, Throw e => (db, Throw e)
      end.

Definition with_id v (r : Prediction.t) : Prediction.t :=
  Prediction.mk v (Prediction.event_id r) (Prediction.prediction_type r)
    (Prediction.predicted_value r) (Prediction.confidence_score r)
    (Prediction.reasoning r) (Prediction.model_version r)
    (Prediction.created_at r) (Prediction.updated_at r).
Definition with_created_at v (r : Prediction.t) : Prediction.t :=
  Prediction.mk (Prediction.id r) (Prediction.event_id r)
    (Prediction.prediction_type r) (Prediction.predicted_value r)
    (Prediction.confidence_score r) (Prediction.reasoning r)
    (Prediction.model_version r) v (Prediction.updated_at r).

Definition with_event_id v (r : Prediction.t) : Prediction.t :=
  Prediction.mk (Prediction.id r) v (Prediction.prediction_type r)
    (Prediction.predicted_value r) (Prediction.confidence_score r)
    (Prediction.reasoning r) (Prediction.model_version r)
    (Prediction.created_at r) (Prediction.updated_at r).
Definition with_prediction_type v (r : Prediction.t) : Prediction.t :=
  Prediction.mk (Prediction.id r) (Prediction.event_id r) v
    (Prediction.predicted_value r) (Prediction.confidence_score r)
    (Prediction.reasoning r) (Prediction.model_version r)
    (Prediction.created_at r) (Prediction.updated_at r).
Definition with_predicted_value v (r : Prediction.t) : Prediction.t :=
  Prediction.mk (Prediction.id r) (Prediction.event_id r)
    (Prediction.prediction_type r) v (Prediction.confidence_score r)
    (Prediction.reasoning r) (Prediction.model_version r)
    (Prediction.created_at r) (Prediction.updated_at r).
Definition with_confidence_score v (r : Prediction.t) : Prediction.t :=
  Prediction.mk (Prediction.id r) (Prediction.event_id r)
    (Prediction.prediction_type r) (Prediction.predicted_value r) v
    (Prediction.reasoning r) (Prediction.model_version r)
    (Prediction.created_at r) (Prediction.updated_at r).
Definition with_reasoning v (r : Prediction.t) : Prediction.t :=
  Prediction.mk (Prediction.id r) (Prediction.event_id r)
    (Prediction.prediction_type r) (Prediction.predicted_value r)
    (Prediction.confidence_score r) v (Prediction.model_version r)
    (Prediction.created_at r) (Prediction.updated_at r).
Definition with_model_version v (r : Prediction.t) : Prediction.t :=
  Prediction.mk (Prediction.id r) (Prediction.event_id r)
    (Prediction.prediction_type r) (Prediction.predicted_value r)
    (Prediction.confidence_score r) (Prediction.reasoning r) v
    (Prediction.created_at r) (Prediction.updated_at r).
Definition with_updated_at v (r : Prediction.t) : Prediction.t :=
  Prediction.mk (Prediction.id r) (Prediction.event_id r)
    (Prediction.prediction_type r) (Prediction.predicted_value r)
    (Prediction.confidence_score r) (Prediction.reasoning r)
    (Prediction.model_version r) (Prediction.created_at r) v.

(** A number stored in a [DECIMAL(5, 2)] column: rounded to hundredths, half
    away from zero; rejected from 1000 upwards in absolute value. *)
Definition decimal_5_2 (q : Q) : option Z :=
  let n := 200 * Qnum q in
  let d := 2 * Zpos (Qden q) in
  let h := if 0 <=? n then (n + Zpos (Qden q)) / d
           else - ((- n + Zpos (Qden q)) / d) in
  if Z.abs h <? 100000 then Some h else None.

(** A string assigned to a [TEXT] column. *)
Definition unbounded (v : string) (set : string -> Prediction.t -> Prediction.t)
  : option (Prediction.t -> Prediction.t) :=
  if Sql.text_ok v then Some (set v) else None.

(** One [SET name = value] on [predictions], by the name of the column, for
    a value of the type the [Prediction] interface declares for it.
    Migration 003 dropped [is_archived], so that key names no column. *)
Definition column (name : string) (value : JsValue)
  : option (Prediction.t -> Prediction.t) :=
  match name, value with
  | "id", VNumber q => option_map with_id (Sql.integer q)
  | "event_id", VNumber q => option_map with_event_id (Sql.integer q)
  | "prediction_type", VString v => Sql.text 20 v with_prediction_type
  | "predicted_value", VString v => unbounded v with_predicted_value
  | "confidence_score", VNumber q => option_map with_confidence_score (decimal_5_2 q)
  | "reasoning", VString v => unbounded v with_reasoning
  | "model_version", VString v => Sql.text 50 v with_model_version
  | "created_at", VDate d => option_map with_created_at (Sql.timestamp_param d)
  | "updated_at", VDate d => option_map with_updated_at (Sql.timestamp_param d)
  | _, _ => None
  end.

(** [check_prediction_type] and [check_confidence_score] *)
Definition row_ok (r : Prediction.t) : bool :=
  existsb (String.eqb (Prediction.prediction_type r)) ["WINNER"; "SCORE"; "OVER_UNDER"]
  && (0 <=? Prediction.confidence_score r)
  && (Prediction.confidence_score r <=? 10000).

(** The primary key, the unique index on [event_id] (migration 002) and the
    foreign key. *)
Definition table_ok (db : Db) (rows : list Prediction.t) : bool :=
  Sql.distinctZ (map Prediction.id rows)
  && Sql.distinctZ (map Prediction.event_id rows)
  && forallb (fun p => existsb (fun e => Event.id e =? Prediction.event_id p) (events db))
             rows.

Definition update (now id : Z) (prediction : Entries) : M (option Prediction.t) :=
  let fields := filter provided prediction in
  match fields with
  | [] => ret None
  | _ :: _ =>
      fun db =>
        match Sql.update_by_id Prediction.id column row_ok (table_ok db)
                with_updated_at now id fields (predictions db) with
        | Ok (rows', returned) =>
            (mkDb (events db) rows' (events_id_seq db), Ok (hd_error returned))
        | Throw e => (db, Throw e)
        end
  end.

(** The row an [INSERT INTO predictions] builds from the record, each value
    assigned to its column; [None] when one of them does not fit. *)
Definition new_prediction (id now : Z) (p : PredictionInput) : option Prediction.t :=
  match Sql.varchar 20 (pin_prediction_type p), Sql.varchar 50 (pin_model_version p),
        decimal_5_2 (pin_confidence_score p) with
  | Some type, Some version, Some score =>
      Some (Prediction.mk id (pin_event_id p) type (pin_predicted_value p) score
              (pin_reasoning p) version now now)
  | _, _, _ => None
  end.

(** The strings [create] binds all reach the store. *)
Definition prediction_text_ok (p : PredictionInput) : bool :=
  forallb Sql.text_ok
    [pin_prediction_type p; pin_predicted_value p; pin_reasoning p; pin_model_version p].

(** [INSERT INTO predictions (...) VALUES (...) ON CONFLICT (event_id) DO
    NOTHING RETURNING *].  [nextId] is the value the id sequence hands out
    for the statement; the sequence has 2 ^ 31 - 1 as its last value.  The
    parameters are read first; then the check constraints are tested, the
    unique index on [event_id] is consulted, after it the primary key, and
    the foreign key once a row is inserted. *)
Definition insert_do_nothing (now nextId : Z) (p : PredictionInput)
  : M (list Prediction.t) :=
  fun db =>
    if negb (Sql.int4 (pin_event_id p)) then
      (db, Throw (StorageError "value out of range for type integer"))
    else if negb (prediction_text_ok p) then
      (db, Throw (StorageError "invalid byte sequence for encoding UTF8: 0x00"))
    else
      match new_prediction nextId now p with
      | None => (db, Throw (StorageError "value too long or numeric field overflow"))
      | Some r =>
          if 2 ^ 31 <=? nextId then
            (db, Throw (StorageError "nextval: reached maximum value of sequence"))
          else if negb (row_ok r) then
            (db, Throw (StorageError "violates check constraint"))
          else if existsb (fun q => Prediction.event_id q =? pin_event_id p)
                          (predictions db)
          then (db, Ok [])
          else if existsb (fun q => Prediction.id q =? nextId) (predictions db) then
            (db, Throw (StorageError "duplicate key value violates predictions_pkey"))
          else if negb (existsb (fun e => Event.id e =? pin_event_id p) (events db))
          then (db, Throw (StorageError "violates foreign key constraint"))
          else (mkDb (events db) (predictions db ++ [r]) (events_id_seq db), Ok [r])
      end.

(** [SELECT * FROM predictions WHERE event_id = $1 ORDER BY created_at DESC
    LIMIT 1] is [Sql.latest_prediction]. *)
Definition create (now nextId : Z) (prediction : PredictionInput)
  : M (option Prediction.t) :=
  rows <- insert_do_nothing now nextId prediction ;;
  match rows with
  | r :: _ => ret (Some r)
  | [] =>
      fun db => (db, Ok (Sql.latest_prediction (predictions db) (pin_event_id prediction)))
  end.

Definition findById (id : Z) : M (option Prediction.t) :=
  rows <- Sql.select_prediction_by_id id ;;
  ret (hd_error rows).

Definition delete (id : Z) : M bool :=
  n <- Sql.delete_prediction id ;;
  ret (0 <? Js.or_default (Some n) 0).

End PredictionRepository.

(** ** services/eventService.ts *)

(** [PaginatedResponse<T>]; [totalPages] is [None] when [Math.ceil] yields no
    finite number. *)
Record PaginatedResponse (T : Type) : Type := mkPaginatedResponse
  { data : list T;
    pg_page : Z;
    pg_limit : Z;
    pg_total : Z;
    pg_totalPages : option Z }.

Arguments mkPaginatedResponse {T}.
Arguments data {T}.
Arguments pg_page {T}.
Arguments pg_limit {T}.
Arguments pg_total {T}.
Arguments pg_totalPages {T}.

Module EventService.

Definition getEvents (plan : Sql.Plan Event.t) (now : Z) (filters : EventFilters)
    (pagination : PaginationParams) : M (PaginatedResponse EventView) :=
  found <- EventRepository.findAll plan now filters pagination ;;
  let (events, total) := found in
  ret (mkPaginatedResponse events (page pagination) (limit pagination) total
         (Js.ceil_div total (limit pagination))).

Definition getEventById (id : Z) (includePredictions : option bool)
  : M (option EventDetail) :=
  event <- EventRepository.findById id includePredictions ;;
  match event with
  | None => ret None
  | Some e => ret (Some e)
  end.

End EventService.

(** ** api/routes *)

(** [req.query]: each parameter is absent or a string. *)
Record Query : Type := mkQuery
  { q_sport : option string;
    q_league : option string;
    q_team : option string;
    q_startDate : option string;
    q_endDate : option string;
    q_status : option string;
    q_when : option string;
    q_includePredictions : option string;
    q_predictionType : option string;
    q_minConfidence : option string;
    q_includeArchived : option string;
    q_page : option string;
    q_limit : option string }.

Module Routes.

(** A destructuring default: [{ page = '1' } = req.query]. *)
Definition default (o : option string) (d : string) : string :=
  match o with
  | Some v => v
  | None => d
  end.

(** [if (x) filters.x = x] *)
Definition pick (o : option string) : option string :=
  match o with
  | Some v => if Js.truthy v then Some v else None
  | None => None
  end.

Definition pageNum (q : Query) : Z :=
  Z.max 1 (Js.or_default (Js.parseInt (default (q_page q) "1")) 1).

Definition limitNum (q : Query) : Z :=
  Z.min 100 (Z.max 1 (Js.or_default (Js.parseInt (default (q_limit q) "20")) 20)).

(** [const offset = (pageNum - 1) * limitNum], in JavaScript numbers. *)
Definition pagination (q : Query) : PaginationParams :=
  mkPagination (pageNum q) (limitNum q) (Js.mul (Js.sub (pageNum q) 1) (limitNum q)).

(** [GET /api/events] *)
Definition eventFilters (rt : Runtime) (q : Query) : EventFilters :=
  mkEventFilters
    (pick (q_sport q)) (pick (q_league q)) (pick (q_team q))
    (option_map (newDate rt) (pick (q_startDate q)))
    (option_map (newDate rt) (pick (q_endDate q)))
    (pick (q_status q))
    (Some (default (q_when q) "all"))
    (Some (negb (default (q_includePredictions q) "true" =? "false")%string)).

Definition getEvents (rt : Runtime) (plan : Sql.Plan Event.t) (now : Z) (q : Query)
  : M (PaginatedResponse EventView) :=
  let when := default (q_when q) "all" in
  if negb (existsb (String.eqb when) ["upcoming"; "past"; "all"])
  then throw (AppError 400 "Invalid value for when parameter")
  else EventService.getEvents plan now (eventFilters rt q) (pagination q).

(** [GET /api/predictions]: the filters, or the [AppError] of a rejected
    [predictionType] or [minConfidence]. *)
Definition predictionFilters (rt : Runtime) (q : Query) : Result PredictionFilters :=
  let* predictionType :=
    match pick (q_predictionType q) with
    | Some t =>
        if negb (existsb (String.eqb t) ["WINNER"; "SCORE"; "OVER_UNDER"])
        then Throw (AppError 400 "Invalid prediction type")
        else Ok (Some t)
    | None => Ok None
    end in
  let* minConfidence :=
    match pick (q_minConfidence q) with
    | Some c =>
        match parseFloat rt c with
        | Some minConf =>
            if (negb (Qle_bool 0 minConf) || negb (Qle_bool minConf 100))%bool
            then Throw (AppError 400 "Invalid confidence score")
            else Ok (Some minConf)
        | None => Throw (AppError 400 "Invalid confidence score")
        end
    | None => Ok None
    end in
  Ok (mkPredictionFilters
        (pick (q_sport q)) (pick (q_league q)) (pick (q_team q))
        (option_map (newDate rt) (pick (q_startDate q)))
        (option_map (newDate rt) (pick (q_endDate q)))
        predictionType minConfidence
        (Some (default (q_includeArchived q) "false" =? "true")%string)).

Definition getPredictions (rt : Runtime) (plan : Sql.Plan (Prediction.t * Event.t))
    (q : Query) : M (PaginatedResponse Prediction.t) :=
  match predictionFilters rt q with
  | Throw e => throw e
  | Ok filters =>
      found <- PredictionRepository.findAll plan filters (pagination q) ;;
      let (predictions, total) := found in
      ret (mkPaginatedResponse predictions (pageNum q) (limitNum q) total
             (Js.ceil_div total (limitNum q)))
  end.

(** [GET /api/events/:id] *)
Definition getEventById (idParam : string) (includePredictions : option string)
  : M EventDetail :=
  match Js.parseInt idParam with
  | None => throw (AppError 400 "Invalid event ID")
  | Some eventId =>
      event <- EventService.getEventById eventId
                 (Some (negb (default includePredictions "true" =? "false")%string)) ;;
      match event with
      | None => throw (AppError 404 "Event not found")
      | Some e => ret e
      end
  end.

(** [GET /api/predictions/:id] *)
Definition getPredictionById (idParam : string) : M Prediction.t :=
  match Js.parseInt idParam with
  | None => throw (AppError 400 "Invalid prediction ID")
  | Some predictionId =>
      prediction <- PredictionRepository.findById predictionId ;;
      match prediction with
      | None => throw (AppError 404 "Prediction not found")
      | Some p => ret p
      end
  end.

End Routes.

(** ** services/dataIngestionService.ts *)

Record Participant : Type := mkParticipant
  { pt_name : string;
    pt_id : option string;
    pt_role : option string }.

(** [EventData], a record of the events file after [JSON.parse]. *)
Record EventData : Type := mkEventData
  { ed_event_ref : string;
    ed_sport_type : option string;
    ed_league : option string;
    ed_home_team : option string;
    ed_away_team : option string;
    ed_event_date : option string;
    ed_scheduled_at : option string;
    ed_participants : option (list Participant);
    ed_event_name : option string;
    ed_location : option string;
    ed_venue : option string;
    ed_event_status : option string;
    ed_status : option string }.

(** [analysis_details], a value of type [any], by the two readings the
    loader makes of it: its [reasoning] property and its [JSON.stringify]. *)
Record AnalysisDetails : Type := mkAnalysisDetails
  { ad_reasoning : option string;
    ad_json : string }.

(** [PredictionData], a record of the predictions file after [JSON.parse];
    [pd_confidence_score] is absent when the property is not a number. *)
Record PredictionData : Type := mkPredictionData
  { pd_event_index : option Z;
    pd_event_ref : option string;
    pd_prediction_type : option string;
    pd_predicted_value : option string;
    pd_predicted_outcome : option string;
    pd_confidence_score : option Q;
    pd_reasoning : option string;
    pd_analysis_details : option AnalysisDetails;
    pd_model_version : option string }.

(** What the loader makes of the event reference of a prediction record. *)
Inductive Resolution : Type :=
| Resolved (eventId : Z)
| Skipped
| Crashed.

Module DataIngestionService.

(** [participants?.find(p => (p.role || '').toLowerCase() === role)?.name] *)
Definition by_role (rt : Runtime) (role : string) (e : EventData) : option string :=
  match ed_participants e with
  | Some ps =>
      option_map pt_name
        (find (fun p =>
                 (toLowerCase rt
                    (match pt_role p with
                     | Some r => if Js.truthy r then r else ""
                     | None => ""
                     end) =? role)%string) ps)
  | None => None
  end.

(** [participants?.[i]?.name] *)
Definition by_index (i : nat) (e : EventData) : option string :=
  match ed_participants e with
  | Some ps => option_map pt_name (nth_error ps i)
  | None => None
  end.

(** [event_name?.split(' vs ')[i]] *)
Definition by_name (i : nat) (e : EventData) : option string :=
  match ed_event_name e with
  | Some n => nth_error (Js.split " vs " n) i
  | None => None
  end.

Definition team (rt : Runtime) (explicit : option string) (role : string)
    (i : nat) (e : EventData) : string :=
  match Js.coalesce explicit
          (Js.coalesce (by_role rt role e) (Js.coalesce (by_index i e) (by_name i e))) with
  | Some t => t
  | None => "unknown"
  end.

Definition status_of (rt : Runtime) (e : EventData) : string :=
  match ed_status e with
  | Some st => st
  | None =>
      match ed_event_status e with
      | Some es =>
          if Js.truthy es then
            if (toLowerCase rt es =? "upcoming")%string then "SCHEDULED"
            else toUpperCase rt es
          else "SCHEDULED"
      | None => "SCHEDULED"
      end
  end.

(** The record [loadEvents] hands to [eventRepository.create]. *)
Definition to_input (rt : Runtime) (eventDate : JSDate) (e : EventData) : EventInput :=
  let homeTeam := team rt (ed_home_team e) "home" 0 e in
  let awayTeam := team rt (ed_away_team e) "away" 1 e in
  let sport := match ed_sport_type e with Some v => v | None => "unknown" end in
  let league :=
    match Js.coalesce (ed_league e) (Js.coalesce (ed_location e) (ed_event_name e)) with
    | Some v => v
    | None => ""
    end in
  mkEventInput (ed_event_ref e) sport (if Js.truthy league then league else "NA")
    homeTeam awayTeam eventDate
    (Js.coalesce (ed_venue e) (ed_location e))
    (status_of rt e).

(** The loop of [loadEvents] over the parsed file. *)
Fixpoint loadEvents_from (rt : Runtime) (now : Z) (events : list EventData)
    (createdEvents : list Event.t) : M (list Event.t) :=
  match events with
  | [] => ret createdEvents
  | eventData :: rest =>
      let dateStr :=
        match Js.coalesce (ed_scheduled_at eventData) (ed_event_date eventData) with
        | Some v => v
        | None => ""
        end in
      let eventDate := newDate rt dateStr in
      if Js.is_invalid eventDate then loadEvents_from rt now rest createdEvents
      else
        created <- EventRepository.create now (to_input rt eventDate eventData) ;;
        match created with
        | Some event => loadEvents_from rt now rest (createdEvents ++ [event])
        | None => throw TypeError
        end
  end.

Definition loadEvents (rt : Runtime) (now : Z) (events : list EventData)
  : M (list Event.t) :=
  loadEvents_from rt now events [].

(** The owning event of a prediction record: by [event_ref] among the
    events just loaded when the reference is a non-empty string, otherwise
    by [event_index].  An index below zero passes the bound test and reads
    [undefined.id]. *)
Definition resolve (events : list Event.t) (p : PredictionData) : Resolution :=
  match Routes.pick (pd_event_ref p) with
  | Some ref =>
      match find (fun e => Event.event_ref e =? ref)%string events with
      | Some evt => Resolved (Event.id evt)
      | None => Skipped
      end
  | None =>
      match pd_event_index p with
      | Some i =>
          if Z.of_nat (List.length events) <=? i then Skipped
          else if i <? 0 then Crashed
          else match nth_error events (Z.to_nat i) with
               | Some e => Resolved (Event.id e)
               | None => Crashed
               end
      | None => Skipped
      end
  end.

(** The record [loadPredictions] hands to [predictionRepository.create]. *)
Definition to_prediction (eventId : Z) (p : PredictionData) : PredictionInput :=
  mkPredictionInput eventId
    (match pd_prediction_type p with Some t => t | None => "WINNER" end)
    (match Js.coalesce (pd_predicted_value p) (pd_predicted_outcome p) with
     | Some v => v
     | None => ""
     end)
    (match pd_confidence_score p with Some c => c | None => 0%Q end)
    (match Js.coalesce (pd_reasoning p)
             (match pd_analysis_details p with
              | Some d => ad_reasoning d
              | None => None
              end) with
     | Some r => r
     | None => match pd_analysis_details p with
               | Some d => ad_json d
               | None => "{}"
               end
     end)
    (match pd_model_version p with Some v => v | None => "ingest-1" end).

(** The loop of [loadPredictions]; [nextId] is the next value of the id
    sequence of [predictions], used up by every insert that is sent. *)
Fixpoint loadPredictions_from (now nextId : Z) (predictions : list PredictionData)
    (events : list Event.t) (predictionIds : list Z) : M (list Z) :=
  match predictions with
  | [] => ret predictionIds
  | predData :: rest =>
      match resolve events predData with
      | Skipped => loadPredictions_from now nextId rest events predictionIds
      | Crashed => throw TypeError
      | Resolved eventId =>
          created <- PredictionRepository.create now nextId (to_prediction eventId predData) ;;
          match created with
          | Some prediction =>
              loadPredictions_from now (nextId + 1) rest events
                (predictionIds ++ [Prediction.id prediction])
          | None => throw TypeError
          end
      end
  end.

Definition loadPredictions (now nextId : Z) (predictions : list PredictionData)
    (events : list Event.t) : M (list Z) :=
  loadPredictions_from now nextId predictions events [].

(** [loadData]: the events, their ids, and the prediction ids. *)
Definition loadData (rt : Runtime) (now nextId : Z) (eventsFile : list EventData)
    (predictionsFile : list PredictionData) : M (list Event.t * list Z * list Z) :=
  events <- loadEvents rt now eventsFile ;;
  predictionIds <- loadPredictions now nextId predictionsFile events ;;
  ret (events, map Event.id events, predictionIds).

End DataIngestionService.

(** * The vocabulary of the properties *)

(** The string has [n] characters at most. *)
Definition fits (n : nat) (s : string) : bool := (Sql.char_length s <=? n)%nat.

(** The record satisfies what the [events] table demands of a new row:
    strings without a NUL character and within the width of their columns, an
    instant the store can hold, and one of the five statuses. *)
Definition input_ok (e : EventInput) : bool :=
  Sql.event_text_ok e
  && match Sql.timestamp_param (in_event_date e) with
     | Some _ => true
     | None => false
     end
  && Sql.check_status (in_status e)
  && fits 64 (in_event_ref e) && fits 50 (in_sport e) && fits 100 (in_league e)
  && fits 100 (in_home_team e) && fits 100 (in_away_team e)
  && match in_venue e with
     | Some v => fits 200 v
     | None => true
     end.

(** The id sequence of [events] still has a value to hand out. *)
Definition sequence_left (db : Db) : Prop := events_id_seq db < 2 ^ 31.

(** The row [create] stores for a record the table accepts. *)
Definition row_of (id now date : Z) (e : EventInput) : Event.t :=
  Event.mk id (in_event_ref e) (in_sport e) (in_league e) (in_home_team e)
    (in_away_team e) date (in_venue e) (in_status e) now now false.



(** The query with another [page], and with another [limit]. *)
Definition set_page (v : option string) (q : Query) : Query :=
  mkQuery (q_sport q) (q_league q) (q_team q) (q_startDate q) (q_endDate q)
    (q_status q) (q_when q) (q_includePredictions q) (q_predictionType q)
    (q_minConfidence q) (q_includeArchived q) v (q_limit q).

Definition set_limit (v : option string) (q : Query) : Query :=
  mkQuery (q_sport q) (q_league q) (q_team q) (q_startDate q) (q_endDate q)
    (q_status q) (q_when q) (q_includePredictions q) (q_predictionType q)
    (q_minConfidence q) (q_includeArchived q) (q_page q) v.

Definition has_ref (ref : string) (r : Event.t) : bool :=
  (Event.event_ref r =? ref)%string.

(** How many rows of a table are archived. *)
Definition archived (rows : list Event.t) : Z :=
  Z.of_nat (List.length (filter Event.is_archived rows)).

(** The rows a sweep with this cutoff is to archive. *)
Definition old (cutoff : Z) (e : Event.t) : bool :=
  negb (Event.is_archived e) && (Event.event_date e <? cutoff).

(** A retention the store can apply at the instant [now]: a 32-bit number of
    days whose cutoff is an instant a timestamp can hold. *)
Definition retention_ok (now days : Z) : bool :=
  Sql.int4 days && Sql.timestamp_ok (now - days * ms_per_day).

Definition is_app_error {A : Type} (r : Result A) : bool :=
  match r with
  | Throw (AppError _ _) => true
  | _ => false
  end.



(** The order C6 states for a list of events: by date descending and then by
    creation time descending, or by date ascending for ['upcoming']. *)
Definition stated_before (upcoming : bool) (a b : Event.t) : bool :=
  if upcoming then Event.event_date a <=? Event.event_date b
  else (Event.event_date b <? Event.event_date a)
       || ((Event.event_date a =? Event.event_date b)
           && (Event.created_at b <=? Event.created_at a)).

Fixpoint sortedb {A : Type} (le : A -> A -> bool) (l : list A) : bool :=
  match l with
  | [] => true
  | x :: rest => forallb (le x) rest && sortedb le rest
  end.

(** The order the event list has: by date alone. *)
Definition by_date (upcoming : bool) (a b : Event.t) : Prop :=
  if upcoming then Event.event_date a <= Event.event_date b
  else Event.event_date b <= Event.event_date a.

(** The order the prediction list has, on the joined rows. *)
Definition by_date_then_creation (a b : Prediction.t * Event.t) : Prop :=
  Event.event_date (snd b) < Event.event_date (snd a)
  \/ (Event.event_date (snd a) = Event.event_date (snd b)
      /\ Prediction.created_at (fst b) <= Prediction.created_at (fst a)).

(** ** Sample data for the closed statements *)

Definition ascii_lower (c : ascii) : ascii :=
  let n := nat_of_ascii c in
  if ((65 <=? n)%nat && (n <=? 90)%nat)%bool then ascii_of_nat (n + 32) else c.

Definition ascii_upper (c : ascii) : ascii :=
  let n := nat_of_ascii c in
  if ((97 <=? n)%nat && (n <=? 122)%nat)%bool then ascii_of_nat (n - 32) else c.

Fixpoint map_string (f : ascii -> ascii) (s : string) : string :=
  match s with
  | String c rest => String (f c) (map_string f rest)
  | EmptyString => EmptyString
  end.

(** A runtime that agrees with a JavaScript engine on the strings used
    below. *)
Definition sample_runtime : Runtime :=
  mkRuntime
    (fun s => option_map inject_Z (Js.parseInt s))
    (fun s => if (s =? "2026-01-15T15:00:00Z")%string
              then TimeValue 1768489200000 else InvalidDate)
    (map_string ascii_lower)
    (map_string ascii_upper).

Definition sample_event (id : Z) (ref : string) (date created : Z) (archived : bool)
  : Event.t :=
  Event.mk id ref "Football" "Premier League" "Arsenal" "Chelsea" date
           (Some "Emirates Stadium") "SCHEDULED" created created archived.

(** Two events on the same date, stored in the order they were created, and
    an archived third. *)
Definition sample_db : Db :=
  mkDb [sample_event 1 "ref-1" 5000 100 false;
        sample_event 2 "ref-2" 5000 200 false;
        sample_event 3 "ref-3" 1000 300 true]
       [Prediction.mk 1 1 "WINNER" "Arsenal" 7550 "form" "v1" 150 150;
        Prediction.mk 2 3 "WINNER" "Chelsea" 6000 "form" "v1" 350 350]
       4.



Definition no_query : Query :=
  mkQuery None None None None None None None None None None None None None.

Definition with_page_limit (pageStr limitStr : string) : Query :=
  mkQuery None None None None None None None None None None None
          (Some pageStr) (Some limitStr).

Definition football_record (ref : string) : EventData :=
  mkEventData ref (Some "Football") (Some "Premier League")
    (Some "Manchester United") (Some "Liverpool") None
    (Some "2026-01-15T15:00:00Z") None None None (Some "Old Trafford") None None.

Definition empty_db : Db := mkDb [] [] 1.

Definition arsenal_input (ref : string) : EventInput :=
  mkEventInput ref "Football" "Premier League" "Arsenal" "Chelsea"
    (TimeValue 5000) (Some "Emirates Stadium") "SCHEDULED".

(** ** Vocabulary of the further properties *)

(** The event satisfies every filter that is supplied; a filter that is the
    empty string counts as not supplied. *)
Definition event_passes (now : Z) (f : EventFilters) (e : Event.t) : Prop :=
  (forall v, ef_sport f = Some v -> v <> "" -> Event.sport e = v)
  /\ (forall v, ef_league f = Some v -> v <> "" -> Event.league e = v)
  /\ (forall v, ef_team f = Some v -> v <> "" ->
                Event.home_team e = v \/ Event.away_team e = v)
  /\ (forall t, ef_startDate f = Some (TimeValue t) -> t <= Event.event_date e)
  /\ (forall t, ef_endDate f = Some (TimeValue t) -> Event.event_date e <= t)
  /\ (forall v, ef_status f = Some v -> v <> "" -> Event.status e = v)
  /\ (ef_when f = Some "upcoming" -> now <= Event.event_date e)
  /\ (ef_when f = Some "past" -> Event.event_date e < now).

(** The prediction, with its owning event, satisfies every supplied filter. *)
Definition prediction_passes (f : PredictionFilters) (p : Prediction.t) (e : Event.t)
  : Prop :=
  (forall v, pf_sport f = Some v -> v <> "" -> Event.sport e = v)
  /\ (forall v, pf_league f = Some v -> v <> "" -> Event.league e = v)
  /\ (forall v, pf_team f = Some v -> v <> "" ->
                Event.home_team e = v \/ Event.away_team e = v)
  /\ (forall t, pf_startDate f = Some (TimeValue t) -> t <= Event.event_date e)
  /\ (forall t, pf_endDate f = Some (TimeValue t) -> Event.event_date e <= t)
  /\ (forall v, pf_predictionType f = Some v -> v <> "" ->
                Prediction.prediction_type p = v)
  /\ (forall c, pf_minConfidence f = Some c ->
                (c <= Prediction.confidence_score p # 100)%Q).






(** [v] carries the most recently created prediction of its event and that
    prediction's value as [winner], or [null] twice when the event has no
    prediction. *)
Definition carries_latest_prediction (db : Db) (v : EventView) : Prop :=
  match prediction v with
  | Some p =>
      In p (predictions db)
      /\ Prediction.event_id p = Event.id (row v)
      /\ (forall q, In q (predictions db) ->
                    Prediction.event_id q = Event.id (row v) ->
                    Prediction.created_at q <= Prediction.created_at p)
      /\ winner v = Some (Prediction.predicted_value p)
  | None =>
      (forall q, In q (predictions db) -> Prediction.event_id q <> Event.id (row v))
      /\ winner v = None
  end.

(** The key constraints of the schema: event ids are distinct, event
    references are distinct, prediction ids are distinct, no two predictions
    share an event, and a prediction's [event_id] is that of a stored
    event. *)
Definition store_ok (db : Db) : Prop :=
  NoDup (map Event.id (events db))
  /\ NoDup (map Event.event_ref (events db))
  /\ NoDup (map Prediction.id (predictions db))
  /\ NoDup (map Prediction.event_id (predictions db))
  /\ (forall p, In p (predictions db) ->
                exists e, In e (events db) /\ Event.id e = Prediction.event_id p).

(** Every key is a plain name, which the statement reads as the name of a
    column.  (A key with blanks, quotes or operators is spliced into the
    statement like any other; what the statement then does is not covered
    here.) *)
Definition plain (fields : Entries) : Prop :=
  forall key value, In (key, value) fields -> Sql.identifier key <> None.

(** No entry names the column [name], once its key is read as an
    identifier. *)
Definition unnamed (name : string) (fields : Entries) : Prop :=
  forall key value, In (key, value) fields -> Sql.identifier key <> Some name.

(** The reference of a row that [loadEvents] returned for a record: the
    record's, or, when that has more than 64 characters, what the column
    kept of it. *)
Definition kept_ref (r : Event.t) (e : EventData) : Prop :=
  Event.event_ref r = ed_event_ref e
  \/ (fits 64 (ed_event_ref e) = false
      /\ Sql.varchar 64 (ed_event_ref e) = Some (Event.event_ref r)).

(** The stored row inside what [findById] returns. *)
Definition detail_row (d : EventDetail) : Event.t :=
  match d with
  | Bare r => r
  | Detailed v => row v
  end.

(** The record passes the type, range and check constraints of
    [predictions]: a 32-bit [event_id], strings without a NUL character, a
    [model_version] of 50 characters at most, a known [prediction_type], and
    a confidence that rounds to a value in [0, 100]. *)
Definition prediction_ok (p : PredictionInput) : bool :=
  Sql.int4 (pin_event_id p)
  && PredictionRepository.prediction_text_ok p
  && fits 20 (pin_prediction_type p) && fits 50 (pin_model_version p)
  && match PredictionRepository.decimal_5_2 (pin_confidence_score p) with
     | Some score =>
         existsb (String.eqb (pin_prediction_type p)) ["WINNER"; "SCORE"; "OVER_UNDER"]
         && (0 <=? score) && (score <=? 10000)
     | None => false
     end.

Definition is_bare (d : EventDetail) : bool :=
  match d with
  | Bare _ => true
  | Detailed _ => false
  end.

(** The date the loader reads off an event record. *)
Definition record_date (rt : Runtime) (e : EventData) : JSDate :=
  newDate rt
    (match Js.coalesce (ed_scheduled_at e) (ed_event_date e) with
     | Some v => v
     | None => ""
     end).

(** The record has a date that parses. *)
Definition dated (rt : Runtime) (e : EventData) : bool :=
  negb (Js.is_invalid (record_date rt e)).

(** The prediction record names an event of the batch. *)
Definition resolvable (events : list Event.t) (p : PredictionData) : bool :=
  match DataIngestionService.resolve events p with
  | Skipped => false
  | _ => true
  end.

(** [i] is the id of a stored prediction that belongs to one of [events]. *)
Definition stored_for (db : Db) (events : list Event.t) (i : Z) : Prop :=
  exists q, In q (predictions db) /\ Prediction.id q = i
            /\ exists e, In e events /\ Prediction.event_id q = Event.id e.

(** ** Sample data for the further properties *)

Definition no_event_filters : EventFilters :=
  mkEventFilters None None None None None None None None.


(** A prediction record that names its event by reference. *)
Definition prediction_record (ref : option string) (index : option Z) : PredictionData :=
  mkPredictionData index ref (Some "WINNER") (Some "Manchester United") None
    (Some (75 # 1)) (Some "home form") None (Some "v1").

Definition winner_input (eventId : Z) : PredictionInput :=
  mkPredictionInput eventId "WINNER" "Arsenal" (80 # 1) "form" "v2".

(** Three events on one date, created at the instants 100, 200 and 300. *)
Definition three_created : Db :=
  fst (EventRepository.create 300 (arsenal_input "ref-c")
         (fst (EventRepository.create 200 (arsenal_input "ref-b")
                 (fst (EventRepository.create 100 (arsenal_input "ref-a") empty_db))))).

(** The same table after the second event went live at the instant 400. *)
Definition one_updated : Db :=
  fst (EventRepository.update 400 2 [("status", VString "LIVE")] three_created).

(** The instant 2026-01-15T15:00:00Z. *)
Definition kickoff : Z := 1768489200000.

(** The events [GET /api/events] lists for a request without parameters,
    when the store reads the table by [plan]. *)
Definition listed (plan : Sql.Plan Event.t) (db : Db) : option (list Event.t) :=
  match snd (Routes.getEvents sample_runtime plan 2000 no_query db) with
  | Ok resp => Some (map row (data resp))
  | Throw _ => None
  end.

(** * Properties *)

(** ** The identity hash *)

Section HexDigest.

Lemma hex_digit_lower (d : Z) : Sha256.is_lower_hex (Sha256.hex_digit d) = true.
Proof.
  unfold Sha256.hex_digit.
  assert (Hlt : (Z.to_nat (d mod 16) < 16)%nat)
    by (pose proof (Z.mod_pos_bound d 16 ltac:(lia)); lia).
  remember (Z.to_nat (d mod 16)) as n eqn:En. clear En.
  do 16 (destruct n as [| n]; [reflexivity |]).
  lia.
Qed.

Lemma hex_word_length (x : Z) : List.length (Sha256.hex_word x) = 8%nat.
Proof. reflexivity. Qed.

Lemma hex_word_lower (x : Z) :
  forallb Sha256.is_lower_hex (Sha256.hex_word x) = true.
Proof.
  unfold Sha256.hex_word. cbn [map forallb].
  rewrite !hex_digit_lower. reflexivity.
Qed.

Lemma string_of_list_length (l : list ascii) :
  String.length (string_of_list_ascii l) = List.length l.
Proof. induction l as [| c l IH]; simpl; congruence. Qed.

Lemma hex_state_length (s : Sha256.state) :
  String.length (Sha256.hex_state s) = 64%nat.
Proof.
  unfold Sha256.hex_state.
  rewrite string_of_list_length, !length_app, !hex_word_length. reflexivity.
Qed.

Lemma hex_state_lower (s : Sha256.state) :
  forallb Sha256.is_lower_hex (list_ascii_of_string (Sha256.hex_state s)) = true.
Proof.
  unfold Sha256.hex_state.
  rewrite list_ascii_of_string_of_list_ascii, !forallb_app, !hex_word_lower.
  reflexivity.
Qed.

End HexDigest.

Lemma toISOString_throws (d : JSDate) :
  Js.toISOString d = Throw RangeError <-> Js.is_invalid d = true.
Proof.
  unfold Js.toISOString, Js.is_invalid.
  destruct d as [ms |]; [| split; reflexivity].
  destruct ((- Js.max_time <=? ms) && (ms <=? Js.max_time))%bool.
  - destruct (Js.civil_from_days (ms / 86400000)) as [[y m] dd].
    split; intro H; discriminate H.
  - split; reflexivity.
Qed.

Lemma toISOString_error (d : JSDate) (e : Error) :
  Js.toISOString d = Throw e -> e = RangeError.
Proof.
  unfold Js.toISOString.
  destruct d as [ms |]; [| congruence].
  destruct ((- Js.max_time <=? ms) && (ms <=? Js.max_time))%bool; [| congruence].
  destruct (Js.civil_from_days (ms / 86400000)) as [[y m] dd]. discriminate.
Qed.

(** C5. [generateEventRef] is a function of its four arguments alone.  On a
    date that holds a valid instant it returns the hexadecimal SHA-256 digest
    of [sport|homeTeam|awayTeam|isoTimestamp], a string of exactly 64
    characters, each one of [0-9a-f]; it throws (a [RangeError], from
    [toISOString]) exactly on an invalid date.  The digest is SHA-256 and the
    time stamp that of [toISOString]: they give the known answers of
    FIPS 180-4 (the empty message, [abc], and the two-block message) and of
    the calendar (a leap day, the last millisecond before the epoch), and the
    references of four fixtures, one of them with names outside ASCII, are
    the digests [sha256sum] prints for their joined strings. *)
Theorem generateEventRef_is_sha256_hex :
  (forall (sport homeTeam awayTeam : string) (eventDate : JSDate),
     match Js.toISOString eventDate with
     | Ok iso =>
         let data := (sport ++ "|" ++ homeTeam ++ "|" ++ awayTeam ++ "|" ++ iso)%string in
         let ref := Sha256.hexdigest data in
         generateEventRef sport homeTeam awayTeam eventDate = Ok ref
         /\ String.length ref = 64%nat
         /\ forallb Sha256.is_lower_hex (list_ascii_of_string ref) = true
         /\ Js.is_invalid eventDate = false
     | Throw e =>
         generateEventRef sport homeTeam awayTeam eventDate = Throw RangeError
         /\ Js.is_invalid eventDate = true
     end)
  /\ Sha256.hexdigest ""
     = "e3b0c44298fc1c149afbf4c8996fb92427ae41e4649b934ca495991b7852b855"
  /\ Sha256.hexdigest "abc"
     = "ba7816bf8f01cfea414140de5dae2223b00361a396177a9cb410ff61f20015ad"
  /\ Sha256.hexdigest "abcdbcdecdefdefgefghfghighijhijkijkljklmklmnlmnomnopnopq"
     = "248d6a61d20638b8e5c026930c3e6039a33ce45964ff2167f6ecedd419db06c1"
  /\ Js.toISOString (TimeValue 1709251199999) = Ok "2024-02-29T23:59:59.999Z"
  /\ Js.toISOString (TimeValue (-1)) = Ok "1969-12-31T23:59:59.999Z"
  /\ Js.toISOString (TimeValue 1768489200000) = Ok "2026-01-15T15:00:00.000Z"
  /\ generateEventRef "Football" "Manchester United" "Liverpool"
       (TimeValue 1768489200000)
     = Ok "a89410892eb2d90b1f2aaaf58bece39f8584877e7259de793e54327a956e8788"
  /\ generateEventRef "Basketball" "Los Angeles Lakers" "Boston Celtics"
       (TimeValue 1709251199999)
     = Ok "010b8c4a56034f87a7786f507a57c5abd2764738391fd0221f61267cad709bba"
  /\ generateEventRef "Tennis" "A" "B" (TimeValue (-1))
     = Ok "a00558c6980d780ab564373829243d3e4304b77cb8b80662f8acb9d4ea357828"
  /\ generateEventRef "Fútbol" "Atlético" "Barça" (TimeValue 1709251199999)
     = Ok "af6980ca6d1ef405f757feab6a16851c8a6f32cfa35cafa31b93552c8815e608".
Proof.
  split.
  - intros sport homeTeam awayTeam eventDate.
    unfold generateEventRef, bind.
    destruct (Js.toISOString eventDate) as [iso | e] eqn:Hiso; cbv zeta.
    + unfold Sha256.hexdigest.
      split; [reflexivity |].
      split; [apply hex_state_length |].
      split; [apply hex_state_lower |].
      destruct (Js.is_invalid eventDate) eqn:Hinv; [| reflexivity].
      apply toISOString_throws in Hinv. congruence.
    + assert (He : e = RangeError) by (eapply toISOString_error; eassumption).
      subst e. split; [reflexivity |].
      apply toISOString_throws. exact Hiso.
  - repeat split; vm_compute; reflexivity.
Qed.

(** ** Event creation *)

Lemma split_chars_all (n : nat) (s : string) :
  (Sql.char_length s <= n)%nat -> Sql.split_chars n s = (s, EmptyString).
Proof.
  revert n. induction s as [| c s IH]; intros n Hn; [reflexivity |].
  cbn [Sql.split_chars Sql.char_length] in *.
  destruct (Sql.continuation c).
  - rewrite IH by exact Hn. reflexivity.
  - destruct n as [| k]; [lia |].
    rewrite IH by lia. reflexivity.
Qed.

Lemma varchar_fits (n : nat) (s : string) :
  fits n s = true -> Sql.varchar n s = Some s.
Proof.
  unfold fits, Sql.varchar. intros H. apply Nat.leb_le in H.
  rewrite (split_chars_all n s H). reflexivity.
Qed.

(** What the table makes of a record it accepts. *)
Lemma input_ok_accepted (e : EventInput) :
  input_ok e = true ->
  Sql.event_text_ok e = true
  /\ Sql.check_status (in_status e) = true
  /\ exists date,
       Sql.timestamp_param (in_event_date e) = Some date
       /\ forall id now, Sql.new_event id now date e = Some (row_of id now date e).
Proof.
  unfold input_ok. rewrite !andb_true_iff.
  intros [[[[[[[[Htext Hdate] Hstatus] Href] Hsport] Hleague] Hhome] Haway] Hvenue].
  split; [exact Htext |]. split; [exact Hstatus |].
  destruct (Sql.timestamp_param (in_event_date e)) as [date |]; [| discriminate].
  exists date. split; [reflexivity |]. intros id now.
  assert (H20 : fits 20 (in_status e) = true).
  { unfold Sql.check_status in Hstatus. cbn [existsb] in Hstatus.
    repeat (apply orb_true_iff in Hstatus as [Hstatus | Hstatus];
            [apply String.eqb_eq in Hstatus; rewrite Hstatus; reflexivity |]).
    discriminate. }
  unfold Sql.new_event, row_of.
  rewrite (varchar_fits _ _ Href), (varchar_fits _ _ Hsport), (varchar_fits _ _ Hleague),
    (varchar_fits _ _ Hhome), (varchar_fits _ _ Haway), (varchar_fits _ _ H20).
  destruct (in_venue e) as [v |]; [| reflexivity].
  rewrite (varchar_fits _ _ Hvenue). reflexivity.
Qed.

Lemma hd_filter_exists {A : Type} (p : A -> bool) (l : list A) :
  existsb p l = true ->
  exists r, hd_error (filter p l) = Some r /\ In r l /\ p r = true.
Proof.
  induction l as [| x l IH]; simpl; [discriminate |].
  destruct (p x) eqn:Hx; simpl.
  - intros _. exists x. auto.
  - intros H. destruct (IH H) as (r & Hr & Hin & Hp). exists r. auto.
Qed.

Lemma filter_none {A : Type} (p : A -> bool) (l : list A) :
  existsb p l = false -> filter p l = [].
Proof.
  induction l as [| x l IH]; simpl; [reflexivity |].
  destruct (p x); simpl; [discriminate | exact IH].
Qed.

Lemma text_ok_ref (e : EventInput) :
  Sql.event_text_ok e = true -> Sql.text_ok (in_event_ref e) = true.
Proof.
  unfold Sql.event_text_ok. cbn [forallb]. rewrite !andb_true_iff. tauto.
Qed.

(** The conditional insert of a record the table accepts, by cases on the
    unique index and the primary key. *)
Lemma insert_accepted (now : Z) (e : EventInput) (db : Db) :
  input_ok e = true ->
  sequence_left db ->
  exists date,
    Sql.timestamp_param (in_event_date e) = Some date
    /\ Sql.insert_event_do_nothing now e db
       = let db1 := mkDb (events db) (predictions db) (events_id_seq db + 1) in
         let row := row_of (events_id_seq db) now date e in
         if existsb (has_ref (in_event_ref e)) (events db) then (db1, Ok [])
         else if existsb (fun r => Event.id r =? events_id_seq db) (events db) then
           (db1, Throw (StorageError "duplicate key value violates events_pkey"))
         else (with_events (events db ++ [row]) db1, Ok [row]).
Proof.
  intros Hok Hseq.
  destruct (input_ok_accepted e Hok) as (Htext & Hstatus & date & Hdate & Hrow).
  exists date. split; [exact Hdate |].
  unfold Sql.insert_event_do_nothing. rewrite Htext, Hdate, Hrow. cbn [negb].
  unfold sequence_left in Hseq.
  destruct (Z.leb_spec (2 ^ 31) (events_id_seq db)); [lia |].
  cbn [row_of Event.status Event.event_ref Event.id]. rewrite Hstatus. cbn [negb].
  reflexivity.
Qed.

(** What [create] does, by cases on the unique index. *)
Lemma create_conflict (now : Z) (event : EventInput) (db : Db) :
  input_ok event = true ->
  sequence_left db ->
  existsb (has_ref (in_event_ref event)) (events db) = true ->
  exists r,
    EventRepository.create now event db
    = (mkDb (events db) (predictions db) (events_id_seq db + 1), Ok (Some r))
    /\ hd_error (filter (has_ref (in_event_ref event)) (events db)) = Some r
    /\ In r (events db)
    /\ Event.event_ref r = in_event_ref event.
Proof.
  intros Hok Hseq Hex.
  destruct (insert_accepted now event db Hok Hseq) as (date & _ & Hins).
  destruct (input_ok_accepted event Hok) as (Htext & _).
  destruct (hd_filter_exists _ _ Hex) as (r & Hhd & Hin & Hp).
  exists r.
  unfold EventRepository.create, mbind. rewrite Hins. cbv zeta. rewrite Hex.
  unfold Sql.select_events_by_ref, ret. rewrite (text_ok_ref _ Htext).
  cbn [events]. fold (has_ref (in_event_ref event)). rewrite Hhd.
  repeat split; auto.
  apply String.eqb_eq. exact Hp.
Qed.

Lemma create_fresh (now : Z) (event : EventInput) (db : Db) :
  input_ok event = true ->
  sequence_left db ->
  existsb (has_ref (in_event_ref event)) (events db) = false ->
  (forall e, In e (events db) -> Event.id e <> events_id_seq db) ->
  exists r,
    EventRepository.create now event db
    = (mkDb (events db ++ [r]) (predictions db) (events_id_seq db + 1), Ok (Some r))
    /\ Event.event_ref r = in_event_ref event
    /\ Event.id r = events_id_seq db
    /\ Event.is_archived r = false.
Proof.
  intros Hok Hseq Hex Hfresh.
  destruct (insert_accepted now event db Hok Hseq) as (date & _ & Hins).
  unfold EventRepository.create, mbind. rewrite Hins. cbv zeta. rewrite Hex.
  assert (Hpk : existsb (fun r => Event.id r =? events_id_seq db) (events db) = false).
  { destruct (existsb (fun r => Event.id r =? events_id_seq db) (events db)) eqn:Hpk;
      [| reflexivity].
    apply existsb_exists in Hpk as (x & Hx & Heq). apply Z.eqb_eq in Heq.
    exfalso. exact (Hfresh x Hx Heq). }
  rewrite Hpk. unfold ret, with_events.
  eexists. repeat split.
Qed.

(** C1, as stated, fails.  The reference [ref-1] is stored, and [create]
    with that reference throws, storing nothing, when the record has a
    status the table does not know, a sport of 51 characters, a NUL
    character or a date that is none, and when the id sequence is used up.
    And a first [create] throws, for a reference that is not stored, when the
    next value of the id sequence is the id of a stored row. *)
Lemma create_rejects_a_stored_ref_with_an_unknown_status :
  (exists r, In r (events sample_db) /\ Event.event_ref r = "ref-1")
  /\ EventRepository.create 9000
       (mkEventInput "ref-1" "Football" "Premier League" "Arsenal" "Chelsea"
          (TimeValue 5000) (Some "Emirates Stadium") "UNKNOWN")
       sample_db
     = (mkDb (events sample_db) (predictions sample_db) 5,
        Throw (StorageError "violates check constraint check_status"))
  /\ EventRepository.create 9000
       (mkEventInput "ref-1" "Football Football Football Football Football Footba"
          "Premier League" "Arsenal" "Chelsea"
          (TimeValue 5000) (Some "Emirates Stadium") "SCHEDULED")
       sample_db
     = (sample_db, Throw (StorageError "value too long for type character varying"))
  /\ EventRepository.create 9000
       (mkEventInput "ref-1" (String zero "Football") "Premier League" "Arsenal" "Chelsea"
          (TimeValue 5000) (Some "Emirates Stadium") "SCHEDULED")
       sample_db
     = (sample_db, Throw (StorageError "invalid byte sequence for encoding UTF8: 0x00"))
  /\ EventRepository.create 9000
       (mkEventInput "ref-1" "Football" "Premier League" "Arsenal" "Chelsea"
          InvalidDate (Some "Emirates Stadium") "SCHEDULED")
       sample_db
     = (sample_db,
        Throw (StorageError "no timestamp: invalid input syntax or out of range"))
  /\ EventRepository.create 9000 (arsenal_input "ref-1")
       (mkDb (events sample_db) (predictions sample_db) (2 ^ 31))
     = (mkDb (events sample_db) (predictions sample_db) (2 ^ 31),
        Throw (StorageError "nextval: reached maximum value of sequence"))
  /\ EventRepository.create 9000 (arsenal_input "ref-9")
       (mkDb (events sample_db) (predictions sample_db) 3)
     = (mkDb (events sample_db) (predictions sample_db) 4,
        Throw (StorageError "duplicate key value violates events_pkey")).
Proof.
  split; [eexists; split; [left; reflexivity | reflexivity] |].
  repeat split; vm_compute; reflexivity.
Qed.

(** C1, amended.  Let the record be one the table accepts (strings within
    the width of their columns and free of NUL, a date the store can hold,
    one of the five statuses) and let the id sequence have a value left.  If
    a row with its [event_ref] is already stored, [create] does not throw and
    stores nothing: it returns a row that was in the table before the call
    and carries that [event_ref].  And when the sequence has two values left
    and the next one is no stored row's id, a second [create] of an accepted
    record with the same [event_ref] (in particular with identical inputs)
    returns the row the first one returned and leaves the table as the first
    one left it. *)
Theorem create_is_conflict_as_success :
  forall (now : Z) (event : EventInput) (db : Db),
    input_ok event = true ->
    sequence_left db ->
    ((exists r0, In r0 (events db) /\ Event.event_ref r0 = in_event_ref event) ->
     exists r,
       snd (EventRepository.create now event db) = Ok (Some r)
       /\ In r (events db)
       /\ Event.event_ref r = in_event_ref event
       /\ events (fst (EventRepository.create now event db)) = events db)
    /\
    (forall (now' : Z) (event' : EventInput),
       input_ok event' = true ->
       in_event_ref event' = in_event_ref event ->
       events_id_seq db + 1 < 2 ^ 31 ->
       (forall e, In e (events db) -> Event.id e <> events_id_seq db) ->
       let first := EventRepository.create now event db in
       let second := EventRepository.create now' event' (fst first) in
       exists r,
         snd first = Ok (Some r)
         /\ snd second = Ok (Some r)
         /\ In r (events (fst first))
         /\ events (fst second) = events (fst first)).
Proof.
  intros now event db Hok Hseq. split.
  - intros (r0 & Hin0 & Href0).
    assert (Hex : existsb (has_ref (in_event_ref event)) (events db) = true).
    { apply existsb_exists. exists r0. split; [exact Hin0 |].
      apply String.eqb_eq. exact Href0. }
    destruct (create_conflict now event db Hok Hseq Hex) as (r & Hc & _ & Hin & Href).
    exists r. rewrite Hc. auto.
  - intros now' event' Hok' Href' Hroom Hfresh first second. subst first second.
    destruct (existsb (has_ref (in_event_ref event)) (events db)) eqn:Hex.
    + destruct (create_conflict now event db Hok Hseq Hex) as (r & Hc & Hhd & Hin & Href).
      rewrite Hc. cbn [fst snd].
      assert (Hex' : existsb (has_ref (in_event_ref event'))
                       (events (mkDb (events db) (predictions db) (events_id_seq db + 1)))
                     = true) by (rewrite Href'; exact Hex).
      destruct (create_conflict now' event'
                  (mkDb (events db) (predictions db) (events_id_seq db + 1))
                  Hok' Hroom Hex') as (r' & Hc' & Hhd' & _).
      rewrite Hc'. cbn [fst snd events] in *.
      rewrite Href', Hhd in Hhd'. injection Hhd' as <-.
      exists r. auto.
    + destruct (create_fresh now event db Hok Hseq Hex Hfresh) as (r & Hc & Href & _).
      rewrite Hc. cbn [fst snd].
      assert (Hp : has_ref (in_event_ref event) r = true)
        by (apply String.eqb_eq; exact Href).
      assert (Hex' : existsb (has_ref (in_event_ref event'))
                       (events (mkDb (events db ++ [r]) (predictions db)
                                     (events_id_seq db + 1)))
                     = true).
      { cbn [events]. rewrite Href', existsb_app. cbn [existsb].
        rewrite Hp. apply orb_true_iff. right. reflexivity. }
      destruct (create_conflict now' event'
                  (mkDb (events db ++ [r]) (predictions db) (events_id_seq db + 1))
                  Hok' Hroom Hex') as (r' & Hc' & Hhd' & _).
      rewrite Hc'. cbn [fst snd events] in *.
      rewrite Href', filter_app, (filter_none _ _ Hex) in Hhd'.
      cbn [filter app] in Hhd'. rewrite Hp in Hhd'. injection Hhd' as <-.
      exists r. repeat split; auto.
      apply in_or_app. right. left. reflexivity.
Qed.

(** ** The archival sweep *)

Lemma or_default_zero (n : Z) : Js.or_default (Some n) 0 = n.
Proof. unfold Js.or_default. destruct (Z.eqb_spec n 0); congruence. Qed.

Lemma filter_all {A : Type} (p : A -> bool) (l : list A) :
  (forall x, In x l -> p x = true) -> filter p l = l.
Proof.
  induction l as [| x l IH]; simpl; intros H; [reflexivity |].
  rewrite (H x (or_introl eq_refl)). f_equal. apply IH. auto.
Qed.

Lemma with_events_same (db : Db) : with_events (events db) db = db.
Proof. destruct db. reflexivity. Qed.

(** Rows rewritten by a statement are stored after the rows that stay: the
    table is a rearrangement of the old one with the rewritten rows in the
    place of their old versions. *)
Lemma rewritten_rows_permute {A : Type} (hit : A -> bool) (f : A -> A) (l : list A) :
  Permutation (filter (fun r => negb (hit r)) l ++ map f (filter hit l))
              (map (fun r => if hit r then f r else r) l).
Proof.
  induction l as [| x l IH]; [constructor |].
  cbn [filter map]. destruct (hit x); cbn [negb map].
  - apply Permutation_sym, Permutation_cons_app, Permutation_sym. exact IH.
  - cbn [app]. constructor. exact IH.
Qed.

Lemma archivable_is_old (now days : Z) (e : Event.t) :
  Sql.archivable now days e = old (now - days * ms_per_day) e.
Proof. reflexivity. Qed.

Lemma archiveOldEvents_eq (now days : Z) (db : Db) :
  retention_ok now days = true ->
  EventRepository.archiveOldEvents now days db
  = (with_events
       (filter (fun r => negb (Sql.archivable now days r)) (events db)
        ++ map (Event.archive now) (filter (Sql.archivable now days) (events db))) db,
     Ok (Z.of_nat (List.length (filter (Sql.archivable now days) (events db))))).
Proof.
  unfold retention_ok. rewrite andb_true_iff. intros [Hdays Hcut].
  unfold EventRepository.archiveOldEvents, mbind, Sql.update_archive, ret.
  rewrite Hdays, Hcut. cbn [negb]. rewrite or_default_zero. reflexivity.
Qed.

Lemma archiveOldEvents_refused (now days : Z) (db : Db) :
  retention_ok now days = false ->
  exists cause,
    EventRepository.archiveOldEvents now days db = (db, Throw (StorageError cause)).
Proof.
  unfold retention_ok. intros H.
  unfold EventRepository.archiveOldEvents, mbind, Sql.update_archive.
  destruct (Sql.int4 days); cbn [negb andb] in *; [| eexists; reflexivity].
  rewrite H. cbn [negb]. eexists. reflexivity.
Qed.

Lemma archiveOldEvents_nothing_to_do (now days : Z) (db : Db) :
  retention_ok now days = true ->
  (forall e, In e (events db) -> Sql.archivable now days e = false) ->
  EventRepository.archiveOldEvents now days db = (db, Ok 0).
Proof.
  intros Hret H. rewrite (archiveOldEvents_eq now days db Hret).
  assert (Hnone : filter (Sql.archivable now days) (events db) = []).
  { apply filter_none. destruct (existsb _ (events db)) eqn:Hex; [| reflexivity].
    apply existsb_exists in Hex as (e & He & Hhit). rewrite (H e He) in Hhit.
    discriminate. }
  rewrite Hnone, filter_all.
  - cbn [map List.length]. rewrite app_nil_r, with_events_same. reflexivity.
  - intros e He. rewrite (H e He). reflexivity.
Qed.

(** The archived rows after a sweep: those of before, and the rows it hit. *)
Lemma archived_after (now days : Z) (l : list Event.t) :
  archived (filter (fun r => negb (Sql.archivable now days r)) l
            ++ map (Event.archive now) (filter (Sql.archivable now days) l))
  = archived l + Z.of_nat (List.length (filter (Sql.archivable now days) l)).
Proof.
  unfold archived. rewrite filter_app, length_app, Nat2Z.inj_add. f_equal.
  - do 2 f_equal. induction l as [| e l IH]; [reflexivity |].
    cbn [filter]. unfold Sql.archivable at 1.
    destruct (Event.is_archived e) eqn:Ha; cbn [negb andb filter].
    + rewrite Ha. f_equal. exact IH.
    + destruct (Event.event_date e <? now - days * ms_per_day); cbn [negb filter];
        [| rewrite Ha]; exact IH.
  - f_equal. rewrite filter_all, length_map; [reflexivity |].
    intros e He. apply in_map_iff in He as (r & <- & _). reflexivity.
Qed.

Lemma mul_exact (a b : Z) : Z.abs (a * b) <= 2 ^ 53 -> Js.mul a b = a * b.
Proof.
  intros H. unfold Js.mul, Js.double.
  destruct (Z.leb_spec (Z.abs (a * b)) (2 ^ 53)); [reflexivity | lia].
Qed.

Lemma sub_exact (a b : Z) : Z.abs (a - b) <= 2 ^ 53 -> Js.sub a b = a - b.
Proof.
  intros H. unfold Js.sub, Js.double.
  destruct (Z.leb_spec (Z.abs (a - b)) (2 ^ 53)); [reflexivity | lia].
Qed.

(** The cutoff [archiveOldPredictions] reports, while the arithmetic stays
    within the integers a JavaScript number holds exactly. *)
Lemma reported_cutoff (clock days : Z) :
  Z.abs (days * ms_per_day) <= 2 ^ 53 ->
  Z.abs (clock - days * ms_per_day) <= 2 ^ 53 ->
  Js.sub clock (Js.mul (Js.mul (Js.mul (Js.mul days 24) 60) 60) 1000)
  = clock - days * ms_per_day.
Proof.
  unfold ms_per_day. intros Hd Hc.
  rewrite (mul_exact days 24) by lia.
  rewrite (mul_exact (days * 24) 60) by lia.
  rewrite (mul_exact (days * 24 * 60) 60) by lia.
  rewrite (mul_exact (days * 24 * 60 * 60) 1000) by lia.
  rewrite sub_exact by (replace (days * 24 * 60 * 60 * 1000)
                          with (days * (24 * 60 * 60 * 1000)) by lia; exact Hc).
  lia.
Qed.

(** C2, as stated, fails: a retention of 3000000 days puts the cutoff before
    the first instant a timestamp holds, and one of 2 ^ 31 days is no
    interval; the sweep then throws instead of returning a count. *)
Lemma a_long_retention_is_refused :
  EventRepository.archiveOldEvents kickoff 3000000 sample_db
  = (sample_db, Throw (StorageError "timestamp out of range"))
  /\ EventRepository.archiveOldEvents kickoff (2 ^ 31) sample_db
     = (sample_db, Throw (StorageError "interval field value out of range")).
Proof. split; reflexivity. Qed.

(** C2, amended.  Let [retentionDays] be a retention the store can apply: a
    32-bit number of days whose cutoff, [now - retentionDays] days at the
    store's instant [now], is an instant a timestamp holds.  Then
    [archiveOldEvents(retentionDays)] leaves the predictions alone and turns
    the table into a rearrangement of itself in which every row that was
    unarchived and dated before the cutoff is archived ([updated_at]
    refreshed by the trigger, every other column as it was) and every other
    row is as it was.  The number returned is the number of rows that were
    eligible, which is the number by which the archived rows grew.  A second
    call straight after changes nothing and returns 0, and so does any later
    call for which no row has become newly eligible.
    [ArchiveService.archiveOldPredictions] returns that number with the
    retention and with a cutoff of its own, computed from the clock of the
    process after the sweep. *)
Theorem archiveOldEvents_flips_exactly_the_old :
  forall (now days : Z) (db : Db),
    retention_ok now days = true ->
    let cutoff := now - days * ms_per_day in
    let db' := fst (EventRepository.archiveOldEvents now days db) in
    Permutation (events db')
      (map (fun e => if old cutoff e then Event.archive now e else e) (events db))
    /\ (forall e, In e (events db) -> old cutoff e = true ->
          In (Event.archive now e) (events db')
          /\ Event.is_archived (Event.archive now e) = true
          /\ Event.id (Event.archive now e) = Event.id e
          /\ Event.event_ref (Event.archive now e) = Event.event_ref e
          /\ Event.event_date (Event.archive now e) = Event.event_date e)
    /\ (forall e, In e (events db) -> old cutoff e = false -> In e (events db'))
    /\ predictions db' = predictions db
    /\ snd (EventRepository.archiveOldEvents now days db)
       = Ok (Z.of_nat (List.length (filter (old cutoff) (events db))))
    /\ archived (events db')
       = archived (events db) + Z.of_nat (List.length (filter (old cutoff) (events db)))
    /\ EventRepository.archiveOldEvents now days db' = (db', Ok 0)
    /\ (forall now' days' : Z,
          retention_ok now' days' = true ->
          (forall e, In e (events db) ->
                     Event.is_archived e = false ->
                     Event.event_date e < now' - days' * ms_per_day ->
                     Event.event_date e < cutoff) ->
          EventRepository.archiveOldEvents now' days' db' = (db', Ok 0))
    /\ (forall clock : Z,
          exists reported,
            ArchiveService.archiveOldPredictions now clock days db
            = (db', Ok (mkArchiveJobResult
                          (Z.of_nat (List.length (filter (old cutoff) (events db))))
                          days reported))
            /\ (Z.abs (days * ms_per_day) <= 2 ^ 53 ->
                Z.abs (clock - days * ms_per_day) <= 2 ^ 53 ->
                reported = Js.date_of_time (clock - days * ms_per_day))).
Proof.
  intros now days db Hret cutoff db'. subst cutoff db'.
  unfold ArchiveService.archiveOldPredictions, mbind, ret.
  rewrite (archiveOldEvents_eq now days db Hret). cbn [fst snd].
  cbn [events with_events predictions].
  set (hit := Sql.archivable now days).
  assert (Hold : forall e, old (now - days * ms_per_day) e = hit e) by reflexivity.
  assert (Hsame : filter (old (now - days * ms_per_day)) (events db)
                  = filter hit (events db)) by reflexivity.
  assert (Hlater : forall now' days' : Z,
            (forall e, In e (events db) ->
                       Event.is_archived e = false ->
                       Event.event_date e < now' - days' * ms_per_day ->
                       Event.event_date e < now - days * ms_per_day) ->
            forall e',
              In e' (filter (fun r => negb (hit r)) (events db)
                     ++ map (Event.archive now) (filter hit (events db))) ->
              Sql.archivable now' days' e' = false).
  { intros now' days' Hnew e' Hin.
    apply in_app_or in Hin as [Hin | Hin].
    - apply filter_In in Hin as [Hin Hmiss]. apply negb_true_iff in Hmiss.
      unfold hit, Sql.archivable in Hmiss. unfold Sql.archivable.
      destruct (Event.is_archived e') eqn:Ha; [reflexivity |].
      cbn [negb andb] in *. apply Z.ltb_ge in Hmiss. apply Z.ltb_ge.
      destruct (Z.lt_ge_cases (Event.event_date e') (now' - days' * ms_per_day))
        as [Hlt | Hge]; [| lia].
      specialize (Hnew e' Hin Ha Hlt). lia.
    - apply in_map_iff in Hin as (e & <- & _). reflexivity. }
  split; [| split; [| split; [| split; [| split; [| split; [| split; [| split]]]]]]].
  - apply rewritten_rows_permute.
  - intros e He Hhit. rewrite Hold in Hhit. split; [| repeat split].
    apply in_or_app. right. apply in_map. apply filter_In. auto.
  - intros e He Hmiss. rewrite Hold in Hmiss.
    apply in_or_app. left. apply filter_In. rewrite Hmiss. auto.
  - reflexivity.
  - rewrite Hsame. reflexivity.
  - rewrite Hsame. apply archived_after.
  - apply archiveOldEvents_nothing_to_do; [exact Hret |]. cbn [events with_events].
    apply (Hlater now days). intros; assumption.
  - intros now' days' Hret' Hnew.
    apply archiveOldEvents_nothing_to_do; [exact Hret' |]. cbn [events with_events].
    apply (Hlater now' days'). exact Hnew.
  - intros clock. eexists. split; [rewrite Hsame; reflexivity |].
    intros Hd Hc. rewrite (reported_cutoff clock days Hd Hc). reflexivity.
Qed.

(** ** Listing: what a page can contain *)

Section QueryLemmas.
Context {A : Type}.

Lemma insert_row_in (le : A -> A -> bool) (x z : A) (l : list A) :
  In z (Sql.insert_row le x l) <-> z = x \/ In z l.
Proof.
  induction l as [| y l IH]; simpl.
  - intuition.
  - destruct (le x y); simpl; rewrite ?IH; intuition.
Qed.

Lemma sorted_in (le : A -> A -> bool) (z : A) (l : list A) :
  In z (fold_right (Sql.insert_row le) [] l) <-> In z l.
Proof.
  induction l as [| y l IH]; simpl; [reflexivity |].
  rewrite insert_row_in, IH. intuition.
Qed.

Lemma order_by_in (le : A -> A -> bool) (plan : Sql.Plan A) (z : A) (l : list A) :
  In z (Sql.order_by le plan l) <-> In z l.
Proof.
  unfold Sql.order_by. rewrite sorted_in. split; apply Permutation_in.
  - apply Sql.visit_permutes.
  - apply Permutation_sym, Sql.visit_permutes.
Qed.

Lemma in_firstn (n : nat) (z : A) (l : list A) : In z (firstn n l) -> In z l.
Proof.
  revert l. induction n as [| n IH]; intros [| y l]; simpl; try tauto.
  intros [-> | H]; auto.
Qed.

Lemma in_skipn (m : nat) (z : A) (l : list A) : In z (skipn m l) -> In z l.
Proof.
  revert l. induction m as [| m IH]; intros [| y l]; simpl; auto.
Qed.

Lemma in_slice (n m : nat) (z : A) (l : list A) :
  In z (firstn n (skipn m l)) -> In z l.
Proof. intros H. apply in_skipn with m. apply in_firstn with n. exact H. Qed.

(** A page is returned only for a limit and an offset that are 64-bit
    integers and not negative, and it is that slice of the rows. *)
Lemma limit_offset_inv (limit offset : Z) (l page : list A) :
  Sql.limit_offset limit offset l = Ok page ->
  page = firstn (Z.to_nat limit) (skipn (Z.to_nat offset) l)
  /\ 0 <= limit < 2 ^ 63 /\ 0 <= offset < 2 ^ 63.
Proof.
  unfold Sql.limit_offset, Sql.int8.
  destruct (Z.leb_spec (- 2 ^ 63) limit); destruct (Z.ltb_spec limit (2 ^ 63));
    destruct (Z.leb_spec (- 2 ^ 63) offset); destruct (Z.ltb_spec offset (2 ^ 63));
    cbn [andb negb]; try discriminate.
  destruct (Z.ltb_spec limit 0); destruct (Z.ltb_spec offset 0);
    cbn [orb]; try discriminate.
  intros [= <-]. repeat split; lia.
Qed.

Lemma limit_offset_in (limit offset : Z) (l page : list A) (z : A) :
  Sql.limit_offset limit offset l = Ok page -> In z page -> In z l.
Proof.
  intros H. apply limit_offset_inv in H as [-> _]. apply in_slice.
Qed.

Lemma limit_offset_ok (limit offset : Z) (l : list A) :
  0 <= limit < 2 ^ 63 -> 0 <= offset < 2 ^ 63 ->
  Sql.limit_offset limit offset l
  = Ok (firstn (Z.to_nat limit) (skipn (Z.to_nat offset) l)).
Proof.
  intros Hl Ho. unfold Sql.limit_offset, Sql.int8.
  destruct (Z.leb_spec (- 2 ^ 63) limit); [| lia].
  destruct (Z.ltb_spec limit (2 ^ 63)); [| lia].
  destruct (Z.leb_spec (- 2 ^ 63) offset); [| lia].
  destruct (Z.ltb_spec offset (2 ^ 63)); [| lia].
  destruct (Z.ltb_spec limit 0); [lia |].
  destruct (Z.ltb_spec offset 0); [lia |].
  reflexivity.
Qed.
End QueryLemmas.

(** The outcome of [EventRepository.findAll], laid out. *)
Lemma events_findAll_ok (plan : Sql.Plan Event.t) (now : Z) (f : EventFilters)
    (pg : PaginationParams) (db : Db) (page : list EventView) (total : Z) :
  snd (EventRepository.findAll plan now f pg db) = Ok (page, total) ->
  exists startDate endDate rows,
    Sql.date_param (ef_startDate f) = Ok startDate
    /\ Sql.date_param (ef_endDate f) = Ok endDate
    /\ Sql.limit_offset (limit pg) (offset pg)
         (Sql.order_by (EventRepository.before f) plan
            (EventRepository.matching now f startDate endDate db)) = Ok rows
    /\ page = map (EventRepository.view db) rows
    /\ total = Z.of_nat (List.length (EventRepository.matching now f startDate endDate db)).
Proof.
  unfold EventRepository.findAll.
  destruct (negb (EventRepository.params_ok f)); [simpl; discriminate |].
  destruct (Sql.date_param (ef_startDate f)) as [sd | e1];
    destruct (Sql.date_param (ef_endDate f)) as [ed | e2];
    try (simpl; discriminate).
  destruct (Sql.limit_offset _ _ _) as [rows | e3] eqn:Hlo;
    [| simpl; discriminate].
  cbn [snd]. intros [= <- <-].
  exists sd, ed, rows. auto.
Qed.

Lemma predictions_findAll_ok (plan : Sql.Plan (Prediction.t * Event.t))
    (f : PredictionFilters) (pg : PaginationParams)
    (db : Db) (page : list Prediction.t) (total : Z) :
  snd (PredictionRepository.findAll plan f pg db) = Ok (page, total) ->
  exists startDate endDate rows,
    Sql.date_param (pf_startDate f) = Ok startDate
    /\ Sql.date_param (pf_endDate f) = Ok endDate
    /\ Sql.limit_offset (limit pg) (offset pg)
         (Sql.order_by PredictionRepository.before plan
            (PredictionRepository.matching f startDate endDate db)) = Ok rows
    /\ page = map fst rows
    /\ total = Z.of_nat (List.length (PredictionRepository.matching f startDate endDate db)).
Proof.
  unfold PredictionRepository.findAll.
  destruct (negb (PredictionRepository.params_ok f)); [simpl; discriminate |].
  destruct (Sql.date_param (pf_startDate f)) as [sd | e1];
    destruct (Sql.date_param (pf_endDate f)) as [ed | e2];
    try (simpl; discriminate).
  destruct (Sql.limit_offset _ _ _) as [rows | e3] eqn:Hlo;
    [| simpl; discriminate].
  cbn [snd]. intros [= <- <-].
  exists sd, ed, rows. auto.
Qed.

Lemma events_where_unarchived now f sd ed e :
  EventRepository.where_ now f sd ed e = true -> Event.is_archived e = false.
Proof.
  unfold EventRepository.where_. rewrite !andb_true_iff.
  intros H. decompose [and] H. apply negb_true_iff. assumption.
Qed.

Lemma events_page_rows plan now f pg db page total v :
  snd (EventRepository.findAll plan now f pg db) = Ok (page, total) ->
  In v page ->
  exists sd ed,
    In (row v) (events db)
    /\ EventRepository.where_ now f sd ed (row v) = true
    /\ v = EventRepository.view db (row v).
Proof.
  intros Hok Hin.
  destruct (events_findAll_ok _ _ _ _ _ _ _ Hok) as (sd & ed & rows & _ & _ & Hlo & -> & _).
  apply in_map_iff in Hin as (e & <- & Hin).
  apply (limit_offset_in _ _ _ _ _ Hlo) in Hin.
  apply order_by_in in Hin. unfold EventRepository.matching in Hin.
  apply filter_In in Hin as [Hin Hw].
  exists sd, ed. cbn [row EventRepository.view]. auto.
Qed.

Lemma date_param_no_app_error d : is_app_error (Sql.date_param d) = false.
Proof.
  unfold Sql.date_param. destruct d as [d |]; [| reflexivity].
  destruct (Sql.timestamp_param d); reflexivity.
Qed.

Lemma limit_offset_no_app_error {A : Type} l o (rows : list A) :
  is_app_error (Sql.limit_offset l o rows) = false.
Proof.
  unfold Sql.limit_offset.
  destruct (negb _); [reflexivity |].
  destruct ((l <? 0) || (o <? 0))%bool; reflexivity.
Qed.

Lemma events_findAll_no_app_error plan now f pg db :
  is_app_error (snd (EventRepository.findAll plan now f pg db)) = false.
Proof.
  unfold EventRepository.findAll.
  destruct (negb (EventRepository.params_ok f)); [reflexivity |].
  pose proof (date_param_no_app_error (ef_startDate f)) as H1.
  pose proof (date_param_no_app_error (ef_endDate f)) as H2.
  destruct (Sql.date_param (ef_startDate f)) as [sd | e1];
    destruct (Sql.date_param (ef_endDate f)) as [ed | e2]; cbn [snd]; auto.
  match goal with
  | |- context [Sql.limit_offset ?l ?o ?rows] =>
      pose proof (limit_offset_no_app_error l o rows) as H3;
      destruct (Sql.limit_offset l o rows)
  end; cbn [snd]; auto.
Qed.

Lemma predictions_findAll_no_app_error plan f pg db :
  is_app_error (snd (PredictionRepository.findAll plan f pg db)) = false.
Proof.
  unfold PredictionRepository.findAll.
  destruct (negb (PredictionRepository.params_ok f)); [reflexivity |].
  pose proof (date_param_no_app_error (pf_startDate f)) as H1.
  pose proof (date_param_no_app_error (pf_endDate f)) as H2.
  destruct (Sql.date_param (pf_startDate f)) as [sd | e1];
    destruct (Sql.date_param (pf_endDate f)) as [ed | e2]; cbn [snd]; auto.
  match goal with
  | |- context [Sql.limit_offset ?l ?o ?rows] =>
      pose proof (limit_offset_no_app_error l o rows) as H3;
      destruct (Sql.limit_offset l o rows)
  end; cbn [snd]; auto.
Qed.

Lemma join_in (db : Db) (p : Prediction.t) (e : Event.t) :
  In (p, e) (Sql.join_predictions_events db) ->
  In p (predictions db) /\ In e (events db) /\ Event.id e = Prediction.event_id p.
Proof.
  unfold Sql.join_predictions_events. intros H.
  apply in_flat_map in H as (p' & Hp & H).
  apply in_map_iff in H as (e' & [= <- <-] & He).
  apply filter_In in He as [He Hid].
  apply Z.eqb_eq in Hid. auto.
Qed.

Lemma predictions_page_rows plan f pg db page total p :
  snd (PredictionRepository.findAll plan f pg db) = Ok (page, total) ->
  In p page ->
  exists sd ed e,
    In p (predictions db) /\ In e (events db)
    /\ Event.id e = Prediction.event_id p
    /\ PredictionRepository.where_ f sd ed (p, e) = true.
Proof.
  intros Hok Hin.
  destruct (predictions_findAll_ok _ _ _ _ _ _ Hok)
    as (sd & ed & rows & _ & _ & Hlo & -> & _).
  apply in_map_iff in Hin as ([p' e] & Hp & Hin). cbn [fst] in Hp. subst p'.
  apply (limit_offset_in _ _ _ _ _ Hlo) in Hin.
  apply order_by_in in Hin. unfold PredictionRepository.matching in Hin.
  apply filter_In in Hin as [Hin Hw].
  apply join_in in Hin as (Hp & He & Hid).
  exists sd, ed, e. auto.
Qed.

Lemma service_getEvents_ok plan now f pg db resp :
  snd (EventService.getEvents plan now f pg db) = Ok resp ->
  snd (EventRepository.findAll plan now f pg db) = Ok (data resp, pg_total resp)
  /\ pg_page resp = page pg
  /\ pg_limit resp = limit pg
  /\ pg_totalPages resp = Js.ceil_div (pg_total resp) (limit pg).
Proof.
  unfold EventService.getEvents, mbind, ret.
  destruct (EventRepository.findAll plan now f pg db) as [db' [[evs total] | e]];
    cbn [snd]; [| discriminate].
  intros [= <-]. cbn. repeat split.
Qed.

Lemma route_getEvents_ok rt plan now q db resp :
  snd (Routes.getEvents rt plan now q db) = Ok resp ->
  snd (EventService.getEvents plan now (Routes.eventFilters rt q) (Routes.pagination q) db)
  = Ok resp.
Proof.
  unfold Routes.getEvents.
  destruct (negb (existsb _ _)); [cbn; discriminate | auto].
Qed.

Lemma route_getPredictions_ok rt plan q db resp :
  snd (Routes.getPredictions rt plan q db) = Ok resp ->
  exists f,
    Routes.predictionFilters rt q = Ok f
    /\ snd (PredictionRepository.findAll plan f (Routes.pagination q) db)
       = Ok (data resp, pg_total resp)
    /\ pg_page resp = Routes.pageNum q
    /\ pg_limit resp = Routes.limitNum q
    /\ pg_totalPages resp = Js.ceil_div (pg_total resp) (Routes.limitNum q).
Proof.
  unfold Routes.getPredictions.
  destruct (Routes.predictionFilters rt q) as [f | e]; [| cbn; discriminate].
  unfold mbind, ret.
  destruct (PredictionRepository.findAll plan f (Routes.pagination q) db)
    as [db' [[ps total] | e]] eqn:Hfind; cbn [snd]; [| discriminate].
  intros [= <-]. exists f. rewrite Hfind. cbn. repeat split.
Qed.

(** C10. Whatever the filters and the pagination, and in whatever order the
    store reads its rows, every event that [EventRepository.findAll] returns
    is a stored row with [is_archived = false]; so is every event in a
    response of [GET /api/events], whatever the query string: no parameter
    lets an archived event through. *)
Theorem events_list_never_returns_archived :
  forall (rt : Runtime) (plan : Sql.Plan Event.t) (now : Z) (q : Query)
         (f : EventFilters) (pg : PaginationParams) (db : Db),
    match snd (EventRepository.findAll plan now f pg db) with
    | Ok (page, _) =>
        Forall (fun v => In (row v) (events db)
                         /\ Event.is_archived (row v) = false) page
    | Throw _ => True
    end
    /\
    match snd (Routes.getEvents rt plan now q db) with
    | Ok resp =>
        Forall (fun v => In (row v) (events db)
                         /\ Event.is_archived (row v) = false) (data resp)
    | Throw _ => True
    end.
Proof.
  intros rt plan now q f pg db.
  assert (Hrepo : forall f pg page total,
             snd (EventRepository.findAll plan now f pg db) = Ok (page, total) ->
             Forall (fun v => In (row v) (events db)
                              /\ Event.is_archived (row v) = false) page).
  { intros f' pg' page total Hok. apply Forall_forall. intros v Hv.
    destruct (events_page_rows _ _ _ _ _ _ _ _ Hok Hv) as (sd & ed & Hin & Hw & _).
    split; [exact Hin |]. eapply events_where_unarchived. exact Hw. }
  split.
  - destruct (snd (EventRepository.findAll plan now f pg db)) as [[page total] | e] eqn:H;
      [| exact I].
    eapply Hrepo. exact H.
  - destruct (snd (Routes.getEvents rt plan now q db)) as [resp | e] eqn:H; [| exact I].
    apply route_getEvents_ok in H. apply service_getEvents_ok in H as [H _].
    eapply Hrepo. exact H.
Qed.

(** C4. With [includeArchived] absent or false, every prediction that
    [PredictionRepository.findAll] returns belongs to a stored event that is
    not archived, and every event that [EventRepository.findAll] returns is
    not archived.  The same holds of [GET /api/predictions] whenever the
    query's [includeArchived] is absent or is not the string [true]. *)
Theorem default_lists_exclude_archived :
  forall (rt : Runtime) (plan : Sql.Plan Event.t)
         (joined : Sql.Plan (Prediction.t * Event.t)) (now : Z) (q : Query)
         (pf : PredictionFilters) (ef : EventFilters) (pg : PaginationParams) (db : Db),
    (pf_includeArchived pf = None \/ pf_includeArchived pf = Some false ->
     match snd (PredictionRepository.findAll joined pf pg db) with
     | Ok (page, _) =>
         Forall (fun p => exists e, In e (events db)
                                    /\ Event.id e = Prediction.event_id p
                                    /\ Event.is_archived e = false) page
     | Throw _ => True
     end)
    /\
    match snd (EventRepository.findAll plan now ef pg db) with
    | Ok (page, _) => Forall (fun v => Event.is_archived (row v) = false) page
    | Throw _ => True
    end
    /\
    (q_includeArchived q <> Some "true" ->
     match snd (Routes.getPredictions rt joined q db) with
     | Ok resp =>
         Forall (fun p => exists e, In e (events db)
                                    /\ Event.id e = Prediction.event_id p
                                    /\ Event.is_archived e = false) (data resp)
     | Throw _ => True
     end).
Proof.
  intros rt plan joined now q pf ef pg db.
  assert (Hrepo : forall f pg page total,
             pf_includeArchived f <> Some true ->
             snd (PredictionRepository.findAll joined f pg db) = Ok (page, total) ->
             Forall (fun p => exists e, In e (events db)
                                        /\ Event.id e = Prediction.event_id p
                                        /\ Event.is_archived e = false) page).
  { intros f pg' page total Hinc Hok. apply Forall_forall. intros p Hp.
    destruct (predictions_page_rows _ _ _ _ _ _ _ Hok Hp)
      as (sd & ed & e & _ & He & Hid & Hw).
    exists e. repeat split; auto.
    unfold PredictionRepository.where_ in Hw. rewrite !andb_true_iff in Hw.
    decompose [and] Hw.
    destruct (pf_includeArchived f) as [[|] |]; try congruence;
      apply negb_true_iff; assumption. }
  split; [| split].
  - intros Hinc.
    destruct (snd (PredictionRepository.findAll joined pf pg db))
      as [[page total] | e] eqn:H; [| exact I].
    eapply Hrepo; [| exact H]. destruct Hinc as [-> | ->]; discriminate.
  - destruct (snd (EventRepository.findAll plan now ef pg db))
      as [[page total] | e] eqn:H; [| exact I].
    apply Forall_forall. intros v Hv.
    destruct (events_page_rows _ _ _ _ _ _ _ _ H Hv) as (sd & ed & _ & Hw & _).
    eapply events_where_unarchived. exact Hw.
  - intros Hq.
    destruct (snd (Routes.getPredictions rt joined q db)) as [resp | e] eqn:H; [| exact I].
    apply route_getPredictions_ok in H as (f & Hf & H & _).
    eapply Hrepo; [| exact H].
    unfold Routes.predictionFilters, bind in Hf.
    repeat match type of Hf with
           | match ?x with _ => _ end = _ => destruct x; try discriminate
           end.
    injection Hf as <-. cbn [pf_includeArchived].
    intros [= Heq]. apply String.eqb_eq in Heq.
    apply Hq. unfold Routes.default in Heq.
    destruct (q_includeArchived q); [congruence | discriminate].
Qed.

(** ** Numbers *)


Lemma double_mantissa (a e : Z) :
  0 <= a ->
  let q := a / 2 ^ e in
  let r := a mod 2 ^ e in
  let half := 2 ^ (e - 1) in
  q <= (if r <? half then q
        else if half <? r then q + 1
        else if Z.even q then q else q + 1).
Proof.
  intros Ha q r half.
  destruct (r <? half); [lia |].
  destruct (half <? r); [lia |].
  destruct (Z.even q); lia.
Qed.

Lemma double_nonpos (z : Z) : z <= 0 -> Js.double z <= 0.
Proof.
  intros Hz. unfold Js.double.
  destruct (Z.leb_spec (Z.abs z) (2 ^ 53)); [exact Hz |].
  assert (Hneg : z < 0) by lia. rewrite (Z.sgn_neg z Hneg).
  pose proof (double_mantissa (Z.abs z) (Z.log2 (Z.abs z) - 52) (Z.abs_nonneg z)) as Hm.
  cbv zeta in Hm.
  assert (0 <= Z.abs z / 2 ^ (Z.log2 (Z.abs z) - 52))
    by (apply Z_div_nonneg_nonneg; [lia | apply Z.pow_nonneg; lia]).
  assert (0 <= 2 ^ (Z.log2 (Z.abs z) - 52)) by (apply Z.pow_nonneg; lia).
  nia.
Qed.


(** ** Reading a decimal numeral *)











Lemma double_opp (z : Z) : Js.double (- z) = - Js.double z.
Proof.
  unfold Js.double. rewrite Z.abs_opp, Z.sgn_opp.
  destruct (Z.abs z <=? 2 ^ 53); [reflexivity | lia].
Qed.


(** ** Pagination *)


Lemma pageNum_range (q : Query) : 1 <= Routes.pageNum q.
Proof. unfold Routes.pageNum. lia. Qed.

Lemma limitNum_range (q : Query) : 1 <= Routes.limitNum q <= 100.
Proof. unfold Routes.limitNum. lia. Qed.

Lemma pageNum_cases (q : Query) :
  Routes.pageNum q
  = match q_page q with
    | Some s =>
        match Js.parseInt s with
        | Some n => if 1 <=? n then n else 1
        | None => 1
        end
    | None => 1
    end.
Proof.
  unfold Routes.pageNum, Routes.default, Js.or_default.
  destruct (q_page q) as [s |]; [| reflexivity].
  destruct (Js.parseInt s) as [n |]; [| reflexivity].
  destruct (Z.eqb_spec n 0); destruct (Z.leb_spec 1 n); lia.
Qed.

Lemma limitNum_cases (q : Query) :
  Routes.limitNum q
  = match q_limit q with
    | Some s =>
        match Js.parseInt s with
        | Some n =>
            if n =? 0 then 20
            else if n <? 1 then 1
            else if 100 <? n then 100
            else n
        | None => 20
        end
    | None => 20
    end.
Proof.
  unfold Routes.limitNum, Routes.default, Js.or_default.
  destruct (q_limit q) as [s |]; [| reflexivity].
  destruct (Js.parseInt s) as [n |]; [| reflexivity].
  destruct (Z.eqb_spec n 0); [reflexivity |].
  destruct (Z.ltb_spec n 1); destruct (Z.ltb_spec 100 n); lia.
Qed.




(** ** Validation of [page] and [limit] *)

Lemma service_getEvents_no_app_error plan now f pg db :
  is_app_error (snd (EventService.getEvents plan now f pg db)) = false.
Proof.
  unfold EventService.getEvents, mbind, ret.
  pose proof (events_findAll_no_app_error plan now f pg db) as H.
  destruct (EventRepository.findAll plan now f pg db) as [db' [[evs total] | e]];
    cbn [snd] in *; auto.
Qed.

(** The handlers read [page] and [limit] through the page number and the
    limit they compute, and nowhere else. *)
Lemma page_read_once rt plan joined now q q' db :
  q' = set_page (q_page q') q ->
  Routes.pageNum q' = Routes.pageNum q ->
  Routes.getEvents rt plan now q db = Routes.getEvents rt plan now q' db
  /\ Routes.getPredictions rt joined q db = Routes.getPredictions rt joined q' db.
Proof.
  intros Hq Hpage.
  assert (Hlimit : Routes.limitNum q' = Routes.limitNum q) by (rewrite Hq; reflexivity).
  assert (Hpg : Routes.pagination q' = Routes.pagination q).
  { unfold Routes.pagination. rewrite Hpage, Hlimit. reflexivity. }
  assert (Hef : Routes.eventFilters rt q' = Routes.eventFilters rt q)
    by (rewrite Hq; reflexivity).
  assert (Hpf : Routes.predictionFilters rt q' = Routes.predictionFilters rt q)
    by (rewrite Hq; reflexivity).
  assert (Hwhen : q_when q' = q_when q) by (rewrite Hq; reflexivity).
  unfold Routes.getEvents, Routes.getPredictions.
  rewrite Hpg, Hef, Hpf, Hwhen, Hpage, Hlimit. split; reflexivity.
Qed.

Lemma limit_read_once rt plan joined now q q' db :
  q' = set_limit (q_limit q') q ->
  Routes.limitNum q' = Routes.limitNum q ->
  Routes.getEvents rt plan now q db = Routes.getEvents rt plan now q' db
  /\ Routes.getPredictions rt joined q db = Routes.getPredictions rt joined q' db.
Proof.
  intros Hq Hlimit.
  assert (Hpage : Routes.pageNum q' = Routes.pageNum q) by (rewrite Hq; reflexivity).
  assert (Hpg : Routes.pagination q' = Routes.pagination q).
  { unfold Routes.pagination. rewrite Hpage, Hlimit. reflexivity. }
  assert (Hef : Routes.eventFilters rt q' = Routes.eventFilters rt q)
    by (rewrite Hq; reflexivity).
  assert (Hpf : Routes.predictionFilters rt q' = Routes.predictionFilters rt q)
    by (rewrite Hq; reflexivity).
  assert (Hwhen : q_when q' = q_when q) by (rewrite Hq; reflexivity).
  unfold Routes.getEvents, Routes.getPredictions.
  rewrite Hpg, Hef, Hpf, Hwhen, Hpage, Hlimit. split; reflexivity.
Qed.

(** C9, as stated, fails: [page=abc&limit=-5] is answered, with page 1 and
    limit 1, by both list endpoints. *)
Lemma unparsable_page_is_served_not_rejected :
  Js.parseInt "abc" = None
  /\ Js.parseInt "-5" = Some (-5)
  /\ (exists resp,
        snd (Routes.getPredictions sample_runtime Sql.forward
               (with_page_limit "abc" "-5") sample_db)
        = Ok resp
        /\ pg_page resp = 1 /\ pg_limit resp = 1)
  /\ (exists resp,
        snd (Routes.getEvents sample_runtime Sql.forward 2000
               (with_page_limit "abc" "-5") sample_db)
        = Ok resp
        /\ pg_page resp = 1 /\ pg_limit resp = 1).
Proof.
  split; [reflexivity |]. split; [reflexivity |].
  split; eexists; (split; [vm_compute; reflexivity | split; reflexivity]).
Qed.

(** C9, amended.  A [page] or [limit] that does not parse as a positive
    integer is never answered with a client error; it is coerced.  The
    request is served as if [page] were 1 when [page] does not parse or
    parses to less than 1; as if [limit] were 20 when [limit] does not parse
    or parses to 0, as if it were 1 when it parses to less than 0, and as if
    it were 100 when it parses to more than 100.  The only client errors of
    the two list handlers are those of [when] (events) and of a rejected
    [predictionType] or [minConfidence] (predictions), none of which reads
    [page] or [limit]. *)
Theorem page_and_limit_are_coerced :
  forall (rt : Runtime) (plan : Sql.Plan Event.t)
         (joined : Sql.Plan (Prediction.t * Event.t)) (now : Z) (q : Query) (db : Db),
    let served_as (q' : Query) :=
      Routes.getEvents rt plan now q db = Routes.getEvents rt plan now q' db
      /\ Routes.getPredictions rt joined q db = Routes.getPredictions rt joined q' db in
    is_app_error (snd (Routes.getEvents rt plan now q db))
    = negb (existsb (String.eqb (match q_when q with Some w => w | None => "all" end))
                    ["upcoming"; "past"; "all"])
    /\ is_app_error (snd (Routes.getPredictions rt joined q db))
       = is_app_error (Routes.predictionFilters rt q)
    /\ (forall v, Routes.predictionFilters rt (set_page v q) = Routes.predictionFilters rt q
                  /\ Routes.predictionFilters rt (set_limit v q)
                     = Routes.predictionFilters rt q)
    /\ (is_app_error (Routes.predictionFilters rt q) = true ->
        (exists t, Routes.pick (q_predictionType q) = Some t
                   /\ existsb (String.eqb t) ["WINNER"; "SCORE"; "OVER_UNDER"] = false)
        \/ (exists c, Routes.pick (q_minConfidence q) = Some c
                      /\ match parseFloat rt c with
                         | Some minConf =>
                             (Qle_bool 0 minConf && Qle_bool minConf 100)%bool = false
                         | None => True
                         end))
    /\ (forall s, q_page q = Some s ->
          (Js.parseInt s = None \/ exists n, Js.parseInt s = Some n /\ n < 1) ->
          served_as (set_page (Some "1") q))
    /\ (forall s, q_limit q = Some s ->
          (Js.parseInt s = None \/ Js.parseInt s = Some 0) ->
          served_as (set_limit (Some "20") q))
    /\ (forall s n, q_limit q = Some s -> Js.parseInt s = Some n -> n < 0 ->
          served_as (set_limit (Some "1") q))
    /\ (forall s n, q_limit q = Some s -> Js.parseInt s = Some n -> 100 < n ->
          served_as (set_limit (Some "100") q))
    /\ map Js.parseInt ["abc"; ""; "-"; "0"; "-3"; "1.5"; " 7"; "12px"; "+4"]
       = [None; None; None; Some 0; Some (-3); Some 1; Some 7; Some 12; Some 4].
Proof.
  intros rt plan joined now q db served_as. subst served_as. cbv beta.
  split; [| split; [| split; [| split; [| split; [| split; [| split; [| split]]]]]]].
  - unfold Routes.getEvents. fold (Routes.default (q_when q) "all").
    destruct (negb (existsb _ _)); [reflexivity |].
    apply service_getEvents_no_app_error.
  - unfold Routes.getPredictions.
    destruct (Routes.predictionFilters rt q) as [f | e]; [| reflexivity].
    unfold mbind, ret.
    pose proof (predictions_findAll_no_app_error joined f (Routes.pagination q) db) as H.
    destruct (PredictionRepository.findAll joined f (Routes.pagination q) db)
      as [db' [[ps total] | e]]; cbn [snd is_app_error] in *; auto.
  - intros v. split; reflexivity.
  - unfold Routes.predictionFilters, bind.
    destruct (Routes.pick (q_predictionType q)) as [t |].
    + destruct (existsb (String.eqb t) ["WINNER"; "SCORE"; "OVER_UNDER"]) eqn:Ht;
        cbn [negb]; [| intros _; left; eauto].
      destruct (Routes.pick (q_minConfidence q)) as [c |]; [| discriminate].
      intros H. right. exists c. split; [reflexivity |].
      destruct (parseFloat rt c) as [m |]; [| exact I].
      destruct (Qle_bool 0 m); destruct (Qle_bool m 100); cbn in *;
        first [reflexivity | discriminate].
    + destruct (Routes.pick (q_minConfidence q)) as [c |]; [| discriminate].
      intros H. right. exists c. split; [reflexivity |].
      destruct (parseFloat rt c) as [m |]; [| exact I].
      destruct (Qle_bool 0 m); destruct (Qle_bool m 100); cbn in *;
        first [reflexivity | discriminate].
  - intros s Hs Hparse. apply page_read_once; [reflexivity |].
    rewrite (pageNum_cases q), Hs.
    destruct Hparse as [-> | (n & -> & Hn)]; [reflexivity |].
    destruct (Z.leb_spec 1 n); [lia | reflexivity].
  - intros s Hs Hparse. apply limit_read_once; [reflexivity |].
    rewrite (limitNum_cases q), Hs.
    destruct Hparse as [-> | ->]; reflexivity.
  - intros s n Hs Hparse Hn. apply limit_read_once; [reflexivity |].
    rewrite (limitNum_cases q), Hs, Hparse.
    destruct (Z.eqb_spec n 0); [lia |].
    destruct (Z.ltb_spec n 1); [reflexivity | lia].
  - intros s n Hs Hparse Hn. apply limit_read_once; [reflexivity |].
    rewrite (limitNum_cases q), Hs, Hparse.
    destruct (Z.eqb_spec n 0); [lia |].
    destruct (Z.ltb_spec n 1); [lia |].
    destruct (Z.ltb_spec 100 n); [reflexivity | lia].
  - reflexivity.
Qed.

(** ** List order *)

Section OrderBySorted.
Context {A : Type} (le : A -> A -> bool).
Hypothesis le_total : forall a b, le a b = false -> le b a = true.
Hypothesis le_trans : forall a b c, le a b = true -> le b c = true -> le a c = true.

Let R (a b : A) : Prop := le a b = true.

Lemma insert_row_sorted (x : A) (l : list A) :
  StronglySorted R l -> StronglySorted R (Sql.insert_row le x l).
Proof.
  induction 1 as [| y l Hs IH Hy]; simpl.
  - constructor; constructor.
  - destruct (le x y) eqn:Hxy.
    + constructor; [constructor; assumption |].
      constructor; [exact Hxy |].
      eapply Forall_impl; [| exact Hy]. intros z Hz. eapply le_trans; eassumption.
    + constructor; [exact IH |].
      apply Forall_forall. intros z Hz. apply insert_row_in in Hz as [-> | Hz].
      * apply le_total. exact Hxy.
      * rewrite Forall_forall in Hy. apply Hy. exact Hz.
Qed.

Lemma order_by_sorted (plan : Sql.Plan A) (l : list A) :
  StronglySorted R (Sql.order_by le plan l).
Proof.
  unfold Sql.order_by. induction (Sql.visit plan l) as [| x m IH]; simpl.
  - constructor.
  - apply insert_row_sorted. exact IH.
Qed.
End OrderBySorted.

Section SortedSlices.
Context {A : Type} (R : A -> A -> Prop).

Lemma sorted_skipn (m : nat) (l : list A) :
  StronglySorted R l -> StronglySorted R (skipn m l).
Proof.
  revert l. induction m as [| m IH]; intros l Hs; [exact Hs |].
  destruct l as [| x l]; [constructor |].
  simpl. apply IH. inversion Hs; assumption.
Qed.

Lemma sorted_firstn (n : nat) (l : list A) :
  StronglySorted R l -> StronglySorted R (firstn n l).
Proof.
  revert l. induction n as [| n IH]; intros l Hs; [constructor |].
  destruct l as [| x l]; [constructor |].
  simpl. inversion Hs as [| ? ? Hl Hx]; subst.
  constructor; [apply IH; exact Hl |].
  apply Forall_forall. intros z Hz. apply in_firstn in Hz.
  rewrite Forall_forall in Hx. apply Hx. exact Hz.
Qed.

Lemma sorted_limit_offset (limit offset : Z) (l page : list A) :
  Sql.limit_offset limit offset l = Ok page ->
  StronglySorted R l -> StronglySorted R page.
Proof.
  intros H Hs. apply limit_offset_inv in H as [-> _].
  apply sorted_firstn, sorted_skipn, Hs.
Qed.

Lemma sorted_weaken (R' : A -> A -> Prop) (l : list A) :
  (forall a b, R a b -> R' a b) -> StronglySorted R l -> StronglySorted R' l.
Proof.
  intros Himp. induction 1 as [| x l Hs IH Hx]; constructor; [exact IH |].
  eapply Forall_impl; [| exact Hx]. intros z. apply Himp.
Qed.
End SortedSlices.

Lemma events_before_total (f : EventFilters) (a b : Event.t) :
  EventRepository.before f a b = false -> EventRepository.before f b a = true.
Proof.
  unfold EventRepository.before.
  destruct (EventRepository.when_is f "upcoming");
    [| destruct (EventRepository.when_is f "past")];
    rewrite Z.leb_gt; intros Hab; apply Z.leb_le; lia.
Qed.

Lemma events_before_trans (f : EventFilters) (a b c : Event.t) :
  EventRepository.before f a b = true -> EventRepository.before f b c = true ->
  EventRepository.before f a c = true.
Proof.
  unfold EventRepository.before.
  destruct (EventRepository.when_is f "upcoming");
    [| destruct (EventRepository.when_is f "past")];
    rewrite !Z.leb_le; lia.
Qed.

Lemma predictions_before_total (a b : Prediction.t * Event.t) :
  PredictionRepository.before a b = false -> PredictionRepository.before b a = true.
Proof.
  unfold PredictionRepository.before.
  rewrite orb_false_iff, andb_false_iff, orb_true_iff, andb_true_iff.
  rewrite !Z.ltb_ge, !Z.ltb_lt, !Z.eqb_neq, !Z.eqb_eq, Z.leb_gt, Z.leb_le. lia.
Qed.

Lemma predictions_before_trans (a b c : Prediction.t * Event.t) :
  PredictionRepository.before a b = true -> PredictionRepository.before b c = true ->
  PredictionRepository.before a c = true.
Proof.
  unfold PredictionRepository.before.
  rewrite !orb_true_iff, !andb_true_iff, !Z.ltb_lt, !Z.eqb_eq, !Z.leb_le. lia.
Qed.

(** C6, as stated, fails on the event list.  Three events on one date are
    created at the instants 100, 200 and 300, and the second is then updated,
    which stores its new version after the other two.  Whether the store
    reads the table forwards or backwards, the list does not come out by
    creation time descending: it is 1, 3, 2 one way and 2, 3, 1 the other. *)
Lemma events_list_ties_ignore_creation_time :
  map (fun e => (Event.id e, Event.event_date e, Event.created_at e)) (events one_updated)
  = [(1, 5000, 100); (3, 5000, 300); (2, 5000, 200)]
  /\ option_map (map Event.id) (listed Sql.forward one_updated) = Some [1; 3; 2]
  /\ option_map (sortedb (stated_before false)) (listed Sql.forward one_updated)
     = Some false
  /\ option_map (map Event.id) (listed Sql.backward one_updated) = Some [2; 3; 1]
  /\ option_map (sortedb (stated_before false)) (listed Sql.backward one_updated)
     = Some false.
Proof. repeat split; vm_compute; reflexivity. Qed.

(** C6, amended.  A page of the prediction list is ordered by the date of the
    owning event, latest first, and among equal dates by the prediction's
    creation time, latest first.  A page of the event list is ordered by
    event date only: ascending when [when] is ['upcoming'], descending
    otherwise; it has no second key, and events on one date come in the
    order in which the store reads them. *)
Theorem list_order :
  forall (plan : Sql.Plan Event.t) (joined : Sql.Plan (Prediction.t * Event.t))
         (now : Z) (ef : EventFilters) (pf : PredictionFilters)
         (pg : PaginationParams) (db : Db),
    match snd (EventRepository.findAll plan now ef pg db) with
    | Ok (page, _) =>
        StronglySorted (by_date (EventRepository.when_is ef "upcoming")) (map row page)
    | Throw _ => True
    end
    /\
    match snd (PredictionRepository.findAll joined pf pg db) with
    | Ok (page, _) =>
        exists rows,
          page = map fst rows
          /\ Forall (fun pe => In (snd pe) (events db)
                               /\ Event.id (snd pe) = Prediction.event_id (fst pe)) rows
          /\ StronglySorted by_date_then_creation rows
    | Throw _ => True
    end.
Proof.
  intros plan joined now ef pf pg db. split.
  - destruct (snd (EventRepository.findAll plan now ef pg db))
      as [[page total] | e] eqn:H; [| exact I].
    destruct (events_findAll_ok _ _ _ _ _ _ _ H) as (sd & ed & rows & _ & _ & Hlo & -> & _).
    rewrite map_map. cbn [row EventRepository.view]. rewrite map_id.
    apply (sorted_limit_offset _ _ _ _ _ Hlo).
    eapply sorted_weaken;
      [| apply order_by_sorted; [apply events_before_total | apply events_before_trans]].
    intros a b. unfold EventRepository.before, by_date.
    destruct (EventRepository.when_is ef "upcoming");
      [| destruct (EventRepository.when_is ef "past")];
      intros Hab; apply Z.leb_le; exact Hab.
  - destruct (snd (PredictionRepository.findAll joined pf pg db))
      as [[page total] | e] eqn:H; [| exact I].
    destruct (predictions_findAll_ok _ _ _ _ _ _ H)
      as (sd & ed & rows & _ & _ & Hlo & -> & _).
    exists rows. split; [reflexivity |]. split.
    + apply Forall_forall. intros [p e] Hin.
      apply (limit_offset_in _ _ _ _ _ Hlo) in Hin.
      apply order_by_in in Hin. unfold PredictionRepository.matching in Hin.
      apply filter_In in Hin as [Hin _]. apply join_in in Hin. cbn [fst snd]. tauto.
    + apply (sorted_limit_offset _ _ _ _ _ Hlo).
      eapply sorted_weaken;
        [| apply order_by_sorted;
           [apply predictions_before_total | apply predictions_before_trans]].
      intros a b. unfold PredictionRepository.before, by_date_then_creation.
      rewrite orb_true_iff, andb_true_iff, Z.ltb_lt, Z.eqb_eq, Z.leb_le. tauto.
Qed.

(** ** The event list answers every well-formed request *)

Lemma double_nonneg (z : Z) : 0 <= z -> 0 <= Js.double z.
Proof.
  intros Hz. pose proof (double_nonpos (- z) ltac:(lia)) as H.
  rewrite double_opp in H. lia.
Qed.

Lemma offset_nonneg (q : Query) : 0 <= offset (Routes.pagination q).
Proof.
  cbn [Routes.pagination offset]. unfold Js.mul, Js.sub.
  pose proof (pageNum_range q). pose proof (limitNum_range q).
  pose proof (double_nonneg (Routes.pageNum q - 1) ltac:(lia)).
  apply double_nonneg. nia.
Qed.

Lemma date_param_valid (o : option JSDate) :
  (forall d, o = Some d -> Sql.timestamp_param d <> None) ->
  exists t, Sql.date_param o = Ok t.
Proof.
  intros H. unfold Sql.date_param. destruct o as [d |]; [| eauto].
  specialize (H d eq_refl). destruct (Sql.timestamp_param d); [eauto | congruence].
Qed.

(** X1. [GET /api/events] returns a response and leaves the database as it
    was when [when] is admissible, no filter holds a NUL character, each date
    filter parses to an instant the store can hold, and the offset is a
    64-bit integer. *)
Lemma getEvents_succeeds (rt : Runtime) (plan : Sql.Plan Event.t) (now : Z) (q : Query)
    (db : Db) :
  existsb (String.eqb (Routes.default (q_when q) "all")) ["upcoming"; "past"; "all"]
  = true ->
  EventRepository.params_ok (Routes.eventFilters rt q) = true ->
  (forall v, Routes.pick (q_startDate q) = Some v ->
             Sql.timestamp_param (newDate rt v) <> None) ->
  (forall v, Routes.pick (q_endDate q) = Some v ->
             Sql.timestamp_param (newDate rt v) <> None) ->
  offset (Routes.pagination q) < 2 ^ 63 ->
  exists resp, Routes.getEvents rt plan now q db = (db, Ok resp).
Proof.
  intros Hwhen Hparams Hstart Hend Hoffset.
  unfold Routes.getEvents. rewrite Hwhen. cbn [negb].
  unfold EventService.getEvents, mbind, EventRepository.findAll.
  rewrite Hparams. cbn [negb].
  destruct (date_param_valid (ef_startDate (Routes.eventFilters rt q))) as [sd ->].
  { cbn [Routes.eventFilters ef_startDate]. intros d Hd.
    destruct (Routes.pick (q_startDate q)) as [v |]; [| discriminate].
    injection Hd as <-. apply Hstart. reflexivity. }
  destruct (date_param_valid (ef_endDate (Routes.eventFilters rt q))) as [ed ->].
  { cbn [Routes.eventFilters ef_endDate]. intros d Hd.
    destruct (Routes.pick (q_endDate q)) as [v |]; [| discriminate].
    injection Hd as <-. apply Hend. reflexivity. }
  pose proof (limitNum_range q). pose proof (offset_nonneg q).
  rewrite limit_offset_ok by (cbn [Routes.pagination limit] in *; lia).
  unfold ret. eauto.
Qed.

(** The default request against the sample table. *)
Lemma getEvents_succeeds_witness :
  exists resp,
    Routes.getEvents sample_runtime Sql.forward 2000 no_query sample_db
    = (sample_db, Ok resp).
Proof.
  apply (getEvents_succeeds sample_runtime Sql.forward 2000 no_query sample_db).
  - reflexivity.
  - reflexivity.
  - intros v Hv. discriminate Hv.
  - intros v Hv. discriminate Hv.
  - vm_compute. reflexivity.
Defined.

(** ** Update with nothing to write *)

(** C7, as stated, fails: the event with id 1 and the prediction with id 1
    are stored, and [update] with no entry returns [null] for both. *)
Lemma update_without_fields_returns_null :
  (exists r, In r (events sample_db) /\ Event.id r = 1)
  /\ EventRepository.update 9000 1 [] sample_db = (sample_db, Ok None)
  /\ (exists p, In p (predictions sample_db) /\ Prediction.id p = 1)
  /\ PredictionRepository.update 9000 1 [] sample_db = (sample_db, Ok None).
Proof.
  split; [eexists; split; [left; reflexivity | reflexivity] |].
  split; [reflexivity |].
  split; [eexists; split; [left; reflexivity | reflexivity] |].
  reflexivity.
Qed.

(** C7, amended. When the object holds no provided field (no entry at all,
    or only [undefined] values and the keys [id], [created_at] and
    [updated_at]), [update] sends nothing to the store: the database is left
    as it was and the call returns [null], whether or not a record has that
    id. *)
Theorem update_without_fields_is_a_noop :
  forall (now id : Z) (fields : Entries) (db : Db),
    filter provided fields = [] ->
    EventRepository.update now id fields db = (db, Ok None)
    /\ PredictionRepository.update now id fields db = (db, Ok None).
Proof.
  intros now id fields db Hnone.
  unfold EventRepository.update, PredictionRepository.update.
  rewrite Hnone. split; reflexivity.
Qed.

(** An object whose only entries are an [id] and an [undefined] value. *)
Lemma update_without_fields_is_a_noop_witness :
  EventRepository.update 9000 1 [("id", VNumber 7); ("sport", VUndefined)] sample_db
  = (sample_db, Ok None)
  /\ PredictionRepository.update 9000 1 [("id", VNumber 7); ("sport", VUndefined)] sample_db
     = (sample_db, Ok None).
Proof.
  apply (update_without_fields_is_a_noop 9000 1
           [("id", VNumber 7); ("sport", VUndefined)] sample_db).
  reflexivity.
Defined.

(** ** Batch ingestion *)

(** C8. [loadEvents] stores the [event_ref] of the file, whatever the
    record's sport, teams and date hash to: a record carrying the reference
    [my-ref] is stored under [my-ref], and two records of one and the same
    fixture with different references become two rows. *)
Lemma loadEvents_copies_the_file_event_ref :
  (exists ev db',
     DataIngestionService.loadEvents sample_runtime 100 [football_record "my-ref"] empty_db
     = (db', Ok [ev])
     /\ Event.event_ref ev = "my-ref"
     /\ generateEventRef (Event.sport ev) (Event.home_team ev) (Event.away_team ev)
          (TimeValue (Event.event_date ev))
        = Ok "a89410892eb2d90b1f2aaaf58bece39f8584877e7259de793e54327a956e8788")
  /\ (exists a b db',
        DataIngestionService.loadEvents sample_runtime 100
          [football_record "ref-a"; football_record "ref-b"] empty_db
        = (db', Ok [a; b])
        /\ events db' = [a; b]
        /\ Event.id a = 1 /\ Event.id b = 2
        /\ (Event.sport a, Event.home_team a, Event.away_team a, Event.event_date a)
           = (Event.sport b, Event.home_team b, Event.away_team b, Event.event_date b)).
Proof.
  split.
  - do 2 eexists. split; [vm_compute; reflexivity |].
    split; [reflexivity | vm_compute; reflexivity].
  - do 3 eexists. split; [vm_compute; reflexivity |].
    repeat split.
Qed.

(** ** Instances *)

(** Creating an event whose reference the sample table already holds. *)
Lemma create_is_conflict_as_success_witness :
  exists r,
    snd (EventRepository.create 9000 (arsenal_input "ref-1") sample_db) = Ok (Some r)
    /\ In r (events sample_db)
    /\ Event.event_ref r = "ref-1"
    /\ events (fst (EventRepository.create 9000 (arsenal_input "ref-1") sample_db))
       = events sample_db.
Proof.
  refine (proj1 (create_is_conflict_as_success 9000 (arsenal_input "ref-1") sample_db
                   eq_refl _) _).
  - unfold sequence_left. simpl. lia.
  - exists (sample_event 1 "ref-1" 5000 100 false).
    split; [left; reflexivity | reflexivity].
Defined.

(** A sweep with no retention, then one thirty days later with thirty days
    of retention: the cutoff is the same, so nothing is newly eligible. *)
Lemma archiveOldEvents_flips_exactly_the_old_witness :
  EventRepository.archiveOldEvents (9000 + 30 * ms_per_day) 30
    (fst (EventRepository.archiveOldEvents 9000 0 sample_db))
  = (fst (EventRepository.archiveOldEvents 9000 0 sample_db), Ok 0).
Proof.
  refine (proj1 (proj2 (proj2 (proj2 (proj2 (proj2 (proj2 (proj2
            (archiveOldEvents_flips_exactly_the_old 9000 0 sample_db eq_refl))))))))
            (9000 + 30 * ms_per_day) 30 eq_refl _).
  intros e Hin Harch Hlt.
  cbn [events sample_db In] in Hin.
  destruct Hin as [<- | [<- | [<- | []]]]; cbn in *; lia.
Defined.

(** The prediction list of the sample table with no filter at all. *)
Lemma default_lists_exclude_archived_witness :
  match snd (PredictionRepository.findAll Sql.forward
               (mkPredictionFilters None None None None None None None None)
               (mkPagination 1 20 0) sample_db) with
  | Ok (page, _) =>
      Forall (fun p => exists e, In e (events sample_db)
                                 /\ Event.id e = Prediction.event_id p
                                 /\ Event.is_archived e = false) page
  | Throw _ => True
  end.
Proof.
  apply (proj1 (default_lists_exclude_archived sample_runtime Sql.forward Sql.forward
                  2000 no_query
                  (mkPredictionFilters None None None None None None None None)
                  (mkEventFilters None None None None None None None None)
                  (mkPagination 1 20 0) sample_db)).
  left. reflexivity.
Defined.

Example toISOString_extended_year :
  Js.toISOString (TimeValue Js.max_time) = Ok "+275760-09-13T00:00:00.000Z".
Proof. reflexivity. Qed.

Example parseInt_examples :
  map Js.parseInt ["12"; " 7px"; "-3"; "+0"; "abc"; ""; "1e3"; "4.9";
                   "9007199254740993"; "-9007199254740995"] =
  [Some 12; Some 7; Some (-3); Some 0; None; None; Some 1; Some 4;
   Some 9007199254740992; Some (-9007199254740996)].
Proof. reflexivity. Qed.

(** A no-break space (U+00A0) and an ideographic space (U+3000) before the
    digits are skipped; a zero-width space (U+200B) is not white space. *)
Example parseInt_skips_unicode_spaces :
  Js.parseInt (String (ascii_of_nat 194) (String (ascii_of_nat 160) "42")) = Some 42
  /\ Js.parseInt (String (ascii_of_nat 227) (String (ascii_of_nat 128)
                    (String (ascii_of_nat 128) "42"))) = Some 42
  /\ Js.parseInt (String (ascii_of_nat 226) (String (ascii_of_nat 128)
                    (String (ascii_of_nat 139) "42"))) = None.
Proof. repeat split; reflexivity. Qed.

Example double_examples :
  map Js.double [0; 2 ^ 53; 2 ^ 53 + 1; 2 ^ 53 + 3; 10 ^ 18 - 1; - (10 ^ 18 - 1)] =
  [0; 2 ^ 53; 2 ^ 53; 2 ^ 53 + 4; 10 ^ 18; - 10 ^ 18].
Proof. reflexivity. Qed.

(** Trailing spaces beyond the width of a column are cut off; anything else
    beyond it is refused.  Characters count, not bytes. *)
Example varchar_examples :
  Sql.varchar 3 "abc" = Some "abc"
  /\ Sql.varchar 3 "abc  " = Some "abc"
  /\ Sql.varchar 3 "abcd" = None
  /\ Sql.varchar 3 "ab c" = None
  /\ Sql.varchar 2 "éé" = Some "éé"
  /\ Sql.varchar 1 "éé" = None.
Proof. repeat split; reflexivity. Qed.

Example identifier_examples :
  map Sql.identifier ["ID"; "Created_At"; "sport"; "home team"; "1st"; ""] =
  [Some "id"; Some "created_at"; Some "sport"; None; None; None].
Proof. reflexivity. Qed.

Example timestamp_examples :
  map Sql.timestamp_param
      [TimeValue 0; TimeValue Sql.min_timestamp; TimeValue (Sql.min_timestamp - 1);
       TimeValue Js.max_time; InvalidDate] =
  [Some 0; Some Sql.min_timestamp; None; Some Js.max_time; None].
Proof. reflexivity. Qed.

Example archive_sample :
  EventRepository.archiveOldEvents 9000 0 sample_db
  = (mkDb [sample_event 3 "ref-3" 1000 300 true;
           Event.archive 9000 (sample_event 1 "ref-1" 5000 100 false);
           Event.archive 9000 (sample_event 2 "ref-2" 5000 200 false)]
          (predictions sample_db) 4,
     Ok 2).
Proof. reflexivity. Qed.

Example predictions_default_hides_archived_event :
  snd (Routes.getPredictions sample_runtime Sql.forward no_query sample_db)
  = Ok (mkPaginatedResponse
          [Prediction.mk 1 1 "WINNER" "Arsenal" 7550 "form" "v1" 150 150]
          1 20 1 (Some 1)).
Proof. vm_compute. reflexivity. Qed.

Example split_examples :
  map (Js.split " vs ") ["Arsenal vs Chelsea"; "Arsenal"; ""; "A vs B vs C"; " vs "] =
  [["Arsenal"; "Chelsea"]; ["Arsenal"]; [""]; ["A"; "B"; "C"]; [""; ""]].
Proof. reflexivity. Qed.

Example pagination_examples :
  map (fun pl => let q := with_page_limit (fst pl) (snd pl) in
                 (Routes.pageNum q, Routes.limitNum q, offset (Routes.pagination q)))
      [("3", "5"); ("0", "0"); ("-2", "250"); ("x", "y"); ("2", "100")] =
  [(3, 5, 10); (1, 20, 0); (1, 100, 0); (1, 20, 0); (2, 100, 100)].
Proof. reflexivity. Qed.

(** The two sample events on one date, listed by a store that reads the
    table forwards and by one that reads it backwards. *)
Example events_list_sample :
  option_map (map Event.id) (listed Sql.forward sample_db) = Some [1; 2]
  /\ option_map (map Event.id) (listed Sql.backward sample_db) = Some [2; 1].
Proof. split; vm_compute; reflexivity. Qed.

Example invalid_when_is_rejected :
  snd (Routes.getEvents sample_runtime Sql.forward 2000
         (mkQuery None None None None None None (Some "soon") None None None None
                  None None) sample_db)
  = Throw (AppError 400 "Invalid value for when parameter").
Proof. reflexivity. Qed.

(** An update through a key in capitals reaches the column: [ID] is the
    column [id]. *)
Example update_through_a_folded_key :
  option_map (map Event.id)
    (match EventRepository.update 9000 2 [("ID", VNumber (1000 # 1))] sample_db with
     | (db', Ok (Some _)) => Some (events db')
     | _ => None
     end)
  = Some [1; 3; 1000].
Proof. reflexivity. Qed.

(** * Further properties *)

(** ** Filters *)

Lemma clause_holds (filter : option string) (test : string -> bool) (v : string) :
  clause filter test = true -> filter = Some v -> v <> "" -> test v = true.
Proof.
  unfold clause, Js.truthy. intros H -> Hne.
  destruct (String.eqb_spec v ""); [contradiction | exact H].
Qed.

Lemma date_param_time (t : Z) (bound : option Z) :
  Sql.date_param (Some (TimeValue t)) = Ok bound -> bound = Some t.
Proof.
  unfold Sql.date_param, Sql.timestamp_param.
  destruct (Js.is_invalid (TimeValue t)); [discriminate |].
  destruct (Sql.timestamp_ok t); [congruence | discriminate].
Qed.

Lemma events_where_passes now f sd ed e :
  Sql.date_param (ef_startDate f) = Ok sd ->
  Sql.date_param (ef_endDate f) = Ok ed ->
  EventRepository.where_ now f sd ed e = true ->
  event_passes now f e.
Proof.
  intros Hsd Hed Hw. unfold EventRepository.where_ in Hw.
  rewrite !andb_true_iff in Hw.
  destruct Hw as [[[[[[[_ Hsport] Hleague] Hteam] Hstart] Hend] Hstatus] Hwhen].
  unfold event_passes. repeat split.
  - intros v Hf Hne. apply String.eqb_eq. exact (clause_holds _ _ v Hsport Hf Hne).
  - intros v Hf Hne. apply String.eqb_eq. exact (clause_holds _ _ v Hleague Hf Hne).
  - intros v Hf Hne. pose proof (clause_holds _ _ v Hteam Hf Hne) as H.
    apply orb_true_iff in H. rewrite !String.eqb_eq in H. exact H.
  - intros t Hf. rewrite Hf in Hsd. apply date_param_time in Hsd. subst sd.
    apply Z.leb_le. exact Hstart.
  - intros t Hf. rewrite Hf in Hed. apply date_param_time in Hed. subst ed.
    apply Z.leb_le. exact Hend.
  - intros v Hf Hne. apply String.eqb_eq. exact (clause_holds _ _ v Hstatus Hf Hne).
  - intros Hf. unfold EventRepository.when_is in Hwhen. rewrite Hf in Hwhen.
    cbn in Hwhen. apply Z.leb_le. exact Hwhen.
  - intros Hf. unfold EventRepository.when_is in Hwhen. rewrite Hf in Hwhen.
    cbn in Hwhen. apply Z.ltb_lt. exact Hwhen.
Qed.

(** X2. Every event that [EventRepository.findAll] returns satisfies each
    filter that was supplied: equal sport, league and status, the team on
    either side, the date within the inclusive bounds, and on or after [now]
    for ['upcoming'], before [now] for ['past'].  A filter that is the empty
    string is ignored. *)
Theorem events_list_satisfies_every_filter :
  forall (plan : Sql.Plan Event.t) (now : Z) (f : EventFilters)
         (pg : PaginationParams) (db : Db),
    match snd (EventRepository.findAll plan now f pg db) with
    | Ok (page, _) => Forall (fun v => event_passes now f (row v)) page
    | Throw _ => True
    end.
Proof.
  intros plan now f pg db.
  destruct (snd (EventRepository.findAll plan now f pg db)) as [[page total] | e] eqn:H;
    [| exact I].
  destruct (events_findAll_ok _ _ _ _ _ _ _ H)
    as (sd & ed & rows & Hsd & Hed & Hlo & -> & _).
  apply Forall_forall. intros v Hv.
  apply in_map_iff in Hv as (e & <- & Hin). cbn [row EventRepository.view].
  apply (limit_offset_in _ _ _ _ _ Hlo) in Hin. apply order_by_in in Hin.
  unfold EventRepository.matching in Hin. apply filter_In in Hin as [_ Hw].
  eapply events_where_passes; eassumption.
Qed.

(** X3. Every prediction that [PredictionRepository.findAll] returns is a
    stored prediction of a stored event, and the pair satisfies each filter
    that was supplied: the event filters, the prediction type, and a
    confidence of at least [minConfidence]. *)
Theorem predictions_list_satisfies_every_filter :
  forall (plan : Sql.Plan (Prediction.t * Event.t)) (f : PredictionFilters)
         (pg : PaginationParams) (db : Db),
    match snd (PredictionRepository.findAll plan f pg db) with
    | Ok (page, _) =>
        Forall (fun p => In p (predictions db)
                         /\ exists e, In e (events db)
                                      /\ Event.id e = Prediction.event_id p
                                      /\ prediction_passes f p e) page
    | Throw _ => True
    end.
Proof.
  intros plan f pg db.
  destruct (snd (PredictionRepository.findAll plan f pg db)) as [[page total] | e] eqn:H;
    [| exact I].
  destruct (predictions_findAll_ok _ _ _ _ _ _ H)
    as (sd & ed & rows & Hsd & Hed & Hlo & -> & _).
  apply Forall_forall. intros p Hp.
  apply in_map_iff in Hp as ([p' e] & Heq & Hin). cbn [fst] in Heq. subst p'.
  apply (limit_offset_in _ _ _ _ _ Hlo) in Hin. apply order_by_in in Hin.
  unfold PredictionRepository.matching in Hin. apply filter_In in Hin as [Hin Hw].
  apply join_in in Hin as (Hp & He & Hid).
  split; [exact Hp |]. exists e. split; [exact He |]. split; [exact Hid |].
  unfold PredictionRepository.where_ in Hw. rewrite !andb_true_iff in Hw.
  destruct Hw as [[[[[[[_ Hsport] Hleague] Hteam] Hstart] Hend] Htype] Hconf].
  unfold prediction_passes. repeat split.
  - intros v Hf Hne. apply String.eqb_eq. exact (clause_holds _ _ v Hsport Hf Hne).
  - intros v Hf Hne. apply String.eqb_eq. exact (clause_holds _ _ v Hleague Hf Hne).
  - intros v Hf Hne. pose proof (clause_holds _ _ v Hteam Hf Hne) as Ht.
    apply orb_true_iff in Ht. rewrite !String.eqb_eq in Ht. exact Ht.
  - intros t Hf. rewrite Hf in Hsd. apply date_param_time in Hsd. subst sd.
    apply Z.leb_le. exact Hstart.
  - intros t Hf. rewrite Hf in Hed. apply date_param_time in Hed. subst ed.
    apply Z.leb_le. exact Hend.
  - intros v Hf Hne. apply String.eqb_eq. exact (clause_holds _ _ v Htype Hf Hne).
  - intros c Hf. rewrite Hf in Hconf. apply Qle_bool_iff. exact Hconf.
Qed.

(** ** The identity hash does not separate its fields *)

Lemma append_assoc (a b c : string) : ((a ++ b) ++ c = a ++ (b ++ c))%string.
Proof. induction a as [| x a IH]; simpl; [reflexivity | rewrite IH; reflexivity]. Qed.

(** X17. The fields are joined with [|] and nothing is escaped, so moving a
    [|] across a field boundary leaves the reference unchanged: the sport
    [a|b] with home team [c] and the sport [a] with home team [b|c] get the
    same [event_ref], whatever the away team and the date. *)
Theorem generateEventRef_ignores_field_boundaries :
  forall (a b c awayTeam : string) (eventDate : JSDate),
    generateEventRef (a ++ "|" ++ b) c awayTeam eventDate
    = generateEventRef a (b ++ "|" ++ c) awayTeam eventDate.
Proof.
  intros a b c awayTeam eventDate. unfold generateEventRef, bind.
  destruct (Js.toISOString eventDate) as [iso | e]; [| reflexivity].
  do 2 f_equal. rewrite !append_assoc. reflexivity.
Qed.

(** ** Pages *)

Section OrderByPermutes.
Context {A : Type} (le : A -> A -> bool).
Hypothesis le_total : forall a b, le a b = false -> le b a = true.
Hypothesis le_trans : forall a b c, le a b = true -> le b c = true -> le a c = true.

Let R (a b : A) : Prop := le a b = true.





End OrderByPermutes.










(** ** The prediction attached to an event *)

Lemma latest_prediction_spec (preds : list Prediction.t) (eventId : Z) :
  match Sql.latest_prediction preds eventId with
  | Some p =>
      In p preds /\ Prediction.event_id p = eventId
      /\ forall q, In q preds -> Prediction.event_id q = eventId ->
                   Prediction.created_at q <= Prediction.created_at p
  | None => forall q, In q preds -> Prediction.event_id q <> eventId
  end.
Proof.
  unfold Sql.latest_prediction.
  set (le := fun a b => Prediction.created_at b <=? Prediction.created_at a).
  set (own := filter (fun p => Prediction.event_id p =? eventId) preds).
  assert (Hs : StronglySorted (fun a b => le a b = true) (Sql.order_by le Sql.forward own)).
  { apply order_by_sorted; unfold le.
    - intros a b. rewrite Z.leb_gt, Z.leb_le. lia.
    - intros a b c. rewrite !Z.leb_le. lia. }
  assert (Hin : forall q, In q (Sql.order_by le Sql.forward own)
                          <-> In q preds /\ Prediction.event_id q = eventId).
  { intros q. rewrite order_by_in. unfold own. rewrite filter_In, Z.eqb_eq. tauto. }
  destruct (Sql.order_by le Sql.forward own) as [| p rest]; cbn [hd_error].
  - intros q Hq Heq. apply (proj2 (Hin q)). auto.
  - destruct (proj1 (Hin p) (or_introl eq_refl)) as [Hp Hid].
    repeat split; auto.
    intros q Hq Heq. destruct (proj2 (Hin q) (conj Hq Heq)) as [<- | Hrest]; [lia |].
    inversion Hs as [| ? ? _ Hall]; subst. rewrite Forall_forall in Hall.
    specialize (Hall q Hrest). unfold le in Hall. apply Z.leb_le in Hall. exact Hall.
Qed.

Lemma view_carries_latest (db : Db) (e : Event.t) :
  carries_latest_prediction db (EventRepository.view db e).
Proof.
  unfold carries_latest_prediction, EventRepository.view. cbn [prediction row winner].
  pose proof (latest_prediction_spec (predictions db) (Event.id e)) as H.
  destruct (Sql.latest_prediction (predictions db) (Event.id e)) as [p |];
    cbn [option_map]; intuition.
Qed.

(** X5. Every event of a list page, and the event that [findById] returns
    with predictions, carries the most recently created prediction stored
    for it, with [winner] that prediction's [predicted_value]; when the event
    has no prediction both properties are [null].  With
    [includePredictions] false [findById] returns the bare row. *)
Theorem events_carry_their_latest_prediction :
  forall (plan : Sql.Plan Event.t) (now id : Z) (f : EventFilters)
         (pg : PaginationParams) (includePredictions : option bool) (db : Db),
    match snd (EventRepository.findAll plan now f pg db) with
    | Ok (page, _) => Forall (carries_latest_prediction db) page
    | Throw _ => True
    end
    /\
    match snd (EventRepository.findById id includePredictions db) with
    | Ok (Some (Detailed v)) =>
        includePredictions <> Some false
        /\ In (row v) (events db) /\ Event.id (row v) = id
        /\ carries_latest_prediction db v
    | Ok (Some (Bare r)) =>
        includePredictions = Some false /\ In r (events db) /\ Event.id r = id
    | Ok None => forall e, In e (events db) -> Event.id e <> id
    | Throw _ => Sql.int4 id = false
    end.
Proof.
  intros plan now id f pg inc db. split.
  - destruct (snd (EventRepository.findAll plan now f pg db)) as [[page total] | e] eqn:H;
      [| exact I].
    destruct (events_findAll_ok _ _ _ _ _ _ _ H) as (sd & ed & rows & _ & _ & _ & -> & _).
    apply Forall_forall. intros v Hv. apply in_map_iff in Hv as (e & <- & _).
    apply view_carries_latest.
  - unfold EventRepository.findById, mbind, Sql.select_event_by_id, ret.
    destruct (Sql.int4 id) eqn:Hint; [| destruct inc as [[|] |]; reflexivity].
    assert (Hhd : match hd_error (filter (fun r => Event.id r =? id) (events db)) with
                  | Some r => In r (events db) /\ Event.id r = id
                  | None => forall e, In e (events db) -> Event.id e <> id
                  end).
    { destruct (filter (fun r => Event.id r =? id) (events db)) as [| r rest] eqn:Hf;
        cbn [hd_error].
      - intros e He Hid.
        assert (Hin : In e (filter (fun r => Event.id r =? id) (events db)))
          by (apply filter_In; split; [exact He | apply Z.eqb_eq; exact Hid]).
        rewrite Hf in Hin. exact Hin.
      - assert (Hin : In r (filter (fun r => Event.id r =? id) (events db)))
          by (rewrite Hf; left; reflexivity).
        apply filter_In in Hin as [Hin Hid]. apply Z.eqb_eq in Hid. auto. }
    destruct inc as [[|] |]; cbn [snd];
      destruct (hd_error (filter (fun r => Event.id r =? id) (events db))) as [r |];
      cbn [option_map row EventRepository.view]; try exact Hhd;
      try (destruct Hhd as [Hin Hid]; repeat split; auto; try discriminate;
           apply (view_carries_latest db r)).
Qed.

(** ** The key constraints are kept *)

Section KeyLemmas.
Context {A K : Type} (key : A -> K).

Lemma NoDup_map_filter (p : A -> bool) (l : list A) :
  NoDup (map key l) -> NoDup (map key (filter p l)).
Proof.
  induction l as [| x l IH]; simpl; [auto |].
  intros H. inversion H as [| ? ? Hnotin Hl]; subst.
  destruct (p x); simpl; [| auto].
  constructor; [| auto].
  intros Hin. apply Hnotin. apply in_map_iff in Hin as (y & Hy & Hin).
  apply filter_In in Hin as [Hin _]. apply in_map_iff. eauto.
Qed.

Lemma NoDup_map_snoc (x : A) (l : list A) :
  NoDup (map key l) -> ~ In (key x) (map key l) -> NoDup (map key (l ++ [x])).
Proof.
  intros Hl Hx. rewrite map_app. cbn [map].
  apply NoDup_app; [exact Hl | constructor; [intros [] | constructor] |].
  intros k Hk [<- | []]. contradiction.
Qed.

Lemma map_key_unchanged (f : A -> A) (l : list A) :
  (forall x, key (f x) = key x) -> map key (map f l) = map key l.
Proof. intros H. rewrite map_map. apply map_ext. exact H. Qed.

Lemma NoDup_map_permutation (l l' : list A) :
  Permutation l l' -> NoDup (map key l) -> NoDup (map key l').
Proof.
  intros Hp. apply Permutation_NoDup, Permutation_map, Hp.
Qed.
End KeyLemmas.

Lemma distinct_NoDup (l : list string) : Sql.distinct l = true -> NoDup l.
Proof.
  induction l as [| k l IH]; simpl; [constructor |].
  rewrite andb_true_iff, negb_true_iff. intros [Hk Hl].
  constructor; [| auto].
  intros Hin. assert (existsb (String.eqb k) l = true); [| congruence].
  apply existsb_exists. exists k. split; [exact Hin | apply String.eqb_refl].
Qed.

Lemma distinctZ_NoDup (l : list Z) : Sql.distinctZ l = true -> NoDup l.
Proof.
  induction l as [| k l IH]; simpl; [constructor |].
  rewrite andb_true_iff, negb_true_iff. intros [Hk Hl].
  constructor; [| auto].
  intros Hin. assert (existsb (Z.eqb k) l = true); [| congruence].
  apply existsb_exists. exists k. split; [exact Hin | apply Z.eqb_refl].
Qed.

Lemma not_in_keys {A : Type} (test : A -> bool) (key : A -> Z) (k : Z) (l : list A) :
  (forall x, test x = (key x =? k)) ->
  existsb test l = false -> ~ In k (map key l).
Proof.
  intros Htest Hex Hin. apply in_map_iff in Hin as (x & Hx & Hin).
  assert (existsb test l = true); [| congruence].
  apply existsb_exists. exists x. split; [exact Hin |].
  rewrite Htest. apply Z.eqb_eq. exact Hx.
Qed.

(** The rows a statement leaves and the rows it takes are all the rows. *)
Lemma filter_split {A : Type} (hit : A -> bool) (l : list A) :
  Permutation (filter (fun r => negb (hit r)) l ++ filter hit l) l.
Proof.
  induction l as [| x l IH]; simpl; [constructor |].
  destruct (hit x); cbn [negb].
  - apply Permutation_sym, Permutation_cons_app, Permutation_sym, IH.
  - simpl. constructor. exact IH.
Qed.

(** An id that is a key selects one row at most. *)
Lemma filter_key_one {A : Type} (key : A -> Z) (k : Z) (l : list A) :
  NoDup (map key l) ->
  filter (fun r => key r =? k) l = []
  \/ exists r, filter (fun r => key r =? k) l = [r] /\ In r l /\ key r = k.
Proof.
  induction l as [| x l IH]; simpl; [auto |].
  intros H. inversion H as [| ? ? Hnotin Hl]; subst.
  destruct (Z.eqb_spec (key x) k) as [Hk | Hk].
  - right. exists x. split; [| auto]. f_equal.
    destruct (filter (fun r => key r =? k) l) as [| y ys] eqn:Hf; [reflexivity |].
    exfalso. apply Hnotin.
    assert (Hy : In y (filter (fun r => key r =? k) l)) by (rewrite Hf; left; reflexivity).
    apply filter_In in Hy as [Hy Hky]. apply Z.eqb_eq in Hky.
    apply in_map_iff. exists y. split; [congruence | exact Hy].
  - destruct (IH Hl) as [Hnone | (r & Hr & Hin & Hkr)]; [left; exact Hnone |].
    right. exists r. auto.
Qed.

(** An assignment of [EventRepository.update] leaves every column but the
    one it names. *)
Lemma event_column_keeps name value set :
  EventRepository.column name value = Some set ->
  forall r,
    (name <> "id" -> Event.id (set r) = Event.id r)
    /\ (name <> "created_at" -> Event.created_at (set r) = Event.created_at r).
Proof.
  unfold EventRepository.column, Sql.text, option_map.
  repeat match goal with
         | |- context [match ?x with _ => _ end] => destruct x
         end;
    intros H; try discriminate H; injection H as <-; intros r;
    split; intros Hn; first [reflexivity | exfalso; apply Hn; reflexivity].
Qed.

Lemma event_assignments_keep fields sets :
  Sql.assignments EventRepository.column fields = Some sets ->
  forall r,
    (unnamed "id" fields -> Event.id (sets r) = Event.id r)
    /\ (unnamed "created_at" fields ->
        Event.created_at (sets r) = Event.created_at r).
Proof.
  revert sets. induction fields as [| [key value] rest IH]; cbn [Sql.assignments].
  - intros sets [= <-] r. auto.
  - intros sets H r.
    destruct (Sql.identifier key) as [name |] eqn:Hname; [| discriminate].
    destruct (EventRepository.column name value) as [set |] eqn:Hc; [| discriminate].
    destruct (Sql.assignments EventRepository.column rest) as [sets' |]; [| discriminate].
    injection H as <-.
    destruct (IH sets' eq_refl (set r)) as [H1 H2].
    destruct (event_column_keeps _ _ _ Hc r) as [H3 H4].
    split; intros Hun.
    + rewrite H1, H3; [reflexivity | |].
      * intros ->. apply (Hun key value); [left; reflexivity | exact Hname].
      * intros k v Hin. apply (Hun k v). right. exact Hin.
    + rewrite H2, H4; [reflexivity | |].
      * intros ->. apply (Hun key value); [left; reflexivity | exact Hname].
      * intros k v Hin. apply (Hun k v). right. exact Hin.
Qed.

(** The outcome of the generic [UPDATE ... WHERE id = $n RETURNING *]. *)
Lemma update_by_id_ok {Row : Type} (row_id : Row -> Z)
    (column : string -> JsValue -> option (Row -> Row)) (row_ok : Row -> bool)
    (table_ok : list Row -> bool) (touch : Z -> Row -> Row)
    (now id : Z) (fields : Entries) (rows rows' returned : list Row) :
  Sql.update_by_id row_id column row_ok table_ok touch now id fields rows
  = Ok (rows', returned) ->
  exists sets,
    Sql.assignments column fields = Some sets
    /\ returned = map (fun r => touch now (sets r)) (filter (fun r => row_id r =? id) rows)
    /\ ((returned = [] /\ rows' = rows)
        \/ (returned <> []
            /\ rows' = filter (fun r => negb (row_id r =? id)) rows ++ returned
            /\ forallb row_ok returned = true
            /\ table_ok rows' = true)).
Proof.
  unfold Sql.update_by_id.
  destruct (negb (Sql.int4 id)); [discriminate |].
  destruct (Sql.assignments column fields) as [sets |]; [| discriminate].
  destruct (negb (Sql.distinct (Sql.targets fields))); [discriminate |].
  destruct (map _ (filter _ rows)) as [| r0 rest] eqn:Hret.
  - intros [= <- <-]. exists sets. rewrite Hret. auto.
  - destruct (forallb row_ok (r0 :: rest) && table_ok _)%bool eqn:Hchk; [| discriminate].
    intros [= <- <-]. exists sets.
    apply andb_true_iff in Hchk as [H1 H2].
    split; [reflexivity |]. split; [symmetry; exact Hret |]. right.
    repeat split; auto. discriminate.
Qed.

Lemma event_update_outcome now id fields db :
  let out := EventRepository.update now id fields db in
  (fst out = db /\ (snd out = Ok None \/ exists e, snd out = Throw e))
  \/ exists sets r' rest,
       Sql.assignments EventRepository.column (filter provided fields) = Some sets
       /\ map (fun r => EventRepository.with_updated_at now (sets r))
              (filter (fun r => Event.id r =? id) (events db)) = r' :: rest
       /\ events (fst out)
          = filter (fun r => negb (Event.id r =? id)) (events db) ++ r' :: rest
       /\ predictions (fst out) = predictions db
       /\ events_id_seq (fst out) = events_id_seq db
       /\ snd out = Ok (Some r')
       /\ EventRepository.table_ok db id (events (fst out)) = true.
Proof.
  cbv zeta. unfold EventRepository.update.
  destruct (filter provided fields) as [| f0 fs] eqn:Hf.
  { left. cbn. auto. }
  rewrite <- Hf. clear Hf.
  destruct (Sql.update_by_id _ _ _ _ _ now id (filter provided fields) (events db))
    as [[rows' returned] | e] eqn:Hu; cbn [fst snd].
  - apply update_by_id_ok in Hu
      as (sets & Ha & Hret & [[-> ->] | (Hne & Hrows & _ & Htab)]).
    + left. rewrite with_events_same. cbn. auto.
    + right. destruct returned as [| r' rest]; [congruence |].
      exists sets, r', rest. unfold with_events.
      cbn [events predictions events_id_seq hd_error].
      repeat split; auto; congruence.
  - left. eauto.
Qed.

(** X11. [EventRepository.update] touches one record at most.  In a table
    whose ids are distinct and for provided keys that are plain names, when
    it returns a record there is one stored
    event under the requested id, and the table afterwards holds the record
    returned and, unchanged, the events stored under other ids (in which
    places this does not say); the record returned has [updated_at] set to
    the instant of the call, the id requested unless a provided key names
    the column [id], and the [created_at] of the event it replaces unless a
    provided key names that column (a key names a column as the store reads
    it: [ID] is [id]); predictions and the id sequence are as they were.
    When it returns [null] or throws, the database is as it was. *)
Theorem event_update_touches_one_record :
  forall (now id : Z) (fields : Entries) (db : Db),
    NoDup (map Event.id (events db)) ->
    plain (filter provided fields) ->
    let out := EventRepository.update now id fields db in
    match snd out with
    | Ok (Some r') =>
        exists r,
          In r (events db)
          /\ Event.id r = id
          /\ Permutation (events (fst out))
               (r' :: filter (fun e => negb (Event.id e =? id)) (events db))
          /\ Event.updated_at r' = now
          /\ (unnamed "id" (filter provided fields) -> Event.id r' = id)
          /\ (unnamed "created_at" (filter provided fields) ->
              Event.created_at r' = Event.created_at r)
          /\ predictions (fst out) = predictions db
          /\ events_id_seq (fst out) = events_id_seq db
    | Ok None => fst out = db
    | Throw _ => fst out = db
    end.
Proof.
  intros now id fields db Hid _ out. subst out.
  destruct (event_update_outcome now id fields db)
    as [[Hdb [Hnone | [e Hthrow]]]
       | (sets & r' & rest & Ha & Hret & Hev & Hpred & Hseq & Hres & _)].
  - rewrite Hnone. exact Hdb.
  - rewrite Hthrow. exact Hdb.
  - rewrite Hres.
    destruct (filter_key_one Event.id id (events db) Hid)
      as [Hnone | (r & Hone & Hin & Hr)];
      [rewrite Hnone in Hret; discriminate |].
    rewrite Hone in Hret. cbn [map] in Hret. injection Hret as <- <-.
    exists r. split; [exact Hin |]. split; [exact Hr |].
    split; [rewrite Hev; apply Permutation_sym, Permutation_cons_append |].
    split; [reflexivity |].
    destruct (event_assignments_keep _ _ Ha r) as [Hkid Hkcr].
    cbn [EventRepository.with_updated_at Event.id Event.created_at].
    split; [intros Hun; rewrite (Hkid Hun); exact Hr |].
    split; [exact Hkcr |]. split; [exact Hpred | exact Hseq].
Qed.

Ltac same_store :=
  cbn [fst]; unfold store_ok; cbn [events predictions events_id_seq];
  repeat split; assumption.

Lemma create_keeps_store_ok now event db :
  store_ok db -> store_ok (fst (EventRepository.create now event db)).
Proof.
  intros (Hid & Href & Hpid & Hpe & Hfk).
  unfold EventRepository.create, mbind, Sql.insert_event_do_nothing,
    Sql.select_events_by_ref, ret.
  destruct (negb (Sql.event_text_ok event)); [same_store |].
  destruct (Sql.timestamp_param (in_event_date event)) as [date |]; [| same_store].
  destruct (Sql.new_event (events_id_seq db) now date event) as [row |]; [| same_store].
  destruct (2 ^ 31 <=? events_id_seq db); [same_store |].
  destruct (negb (Sql.check_status (Event.status row))); [same_store |].
  destruct (existsb (fun r => (Event.event_ref r =? Event.event_ref row)%string)
                    (events db)) eqn:Hex.
  { destruct (Sql.text_ok (in_event_ref event)); same_store. }
  destruct (existsb (fun r => Event.id r =? Event.id row) (events db)) eqn:Hpk;
    [same_store |].
  cbn [fst]. unfold store_ok, with_events. cbn [events predictions events_id_seq].
  repeat split; auto.
  - apply NoDup_map_snoc; [exact Hid |].
    eapply not_in_keys; [| exact Hpk]. reflexivity.
  - apply NoDup_map_snoc; [exact Href |].
    intros Hin. apply in_map_iff in Hin as (e & He & Hin).
    assert (existsb (fun r => (Event.event_ref r =? Event.event_ref row)%string)
                    (events db) = true); [| congruence].
    apply existsb_exists. exists e. split; [exact Hin | apply String.eqb_eq; exact He].
  - intros p Hp. destruct (Hfk p Hp) as (e & He & Heq).
    exists e. split; [apply in_or_app; left; exact He | exact Heq].
Qed.

(** Rewriting rows without touching their keys keeps the constraints,
    wherever the new versions are stored. *)
Lemma store_ok_rewrite (f : Event.t -> Event.t) (rows : list Event.t) (db : Db) :
  (forall r, Event.id (f r) = Event.id r) ->
  (forall r, Event.event_ref (f r) = Event.event_ref r) ->
  Permutation rows (map f (events db)) ->
  store_ok db -> store_ok (with_events rows db).
Proof.
  intros Hfid Hfref Hperm (Hid & Href & Hpid & Hpe & Hfk).
  unfold store_ok, with_events. cbn [events predictions events_id_seq].
  repeat split; auto.
  - apply (NoDup_map_permutation Event.id _ _ (Permutation_sym Hperm)).
    rewrite (map_key_unchanged Event.id f) by exact Hfid. exact Hid.
  - apply (NoDup_map_permutation Event.event_ref _ _ (Permutation_sym Hperm)).
    rewrite (map_key_unchanged Event.event_ref f) by exact Hfref. exact Href.
  - intros p Hp. destruct (Hfk p Hp) as (e & He & Heq).
    exists (f e). split; [| rewrite Hfid; exact Heq].
    apply (Permutation_in _ (Permutation_sym Hperm)). apply in_map. exact He.
Qed.

Lemma archive_keeps_store_ok now days db :
  store_ok db -> store_ok (fst (EventRepository.archiveOldEvents now days db)).
Proof.
  intros Hok. destruct (retention_ok now days) eqn:Hret.
  - rewrite (archiveOldEvents_eq now days db Hret). cbn [fst].
    apply (store_ok_rewrite
             (fun r => if Sql.archivable now days r then Event.archive now r else r)).
    + intros r. destruct (Sql.archivable now days r); reflexivity.
    + intros r. destruct (Sql.archivable now days r); reflexivity.
    + apply rewritten_rows_permute.
    + exact Hok.
  - destruct (archiveOldEvents_refused now days db Hret) as (cause & ->). exact Hok.
Qed.

Lemma event_delete_keeps_store_ok id db :
  store_ok db -> store_ok (fst (EventRepository.delete id db)).
Proof.
  intros (Hid & Href & Hpid & Hpe & Hfk).
  unfold EventRepository.delete, mbind, Sql.delete_event, ret.
  destruct (Sql.int4 id); [| same_store].
  cbn [fst]. unfold store_ok. cbn [events predictions events_id_seq].
  repeat split.
  - apply NoDup_map_filter. exact Hid.
  - apply NoDup_map_filter. exact Href.
  - destruct (filter _ (events db)); [exact Hpid | apply NoDup_map_filter; exact Hpid].
  - destruct (filter _ (events db)); [exact Hpe | apply NoDup_map_filter; exact Hpe].
  - intros p Hp.
    destruct (filter (fun r => Event.id r =? id) (events db)) as [| g gs] eqn:Hgone.
    + destruct (Hfk p Hp) as (e & He & Heq). exists e. split; [| exact Heq].
      apply filter_In. split; [exact He |].
      destruct (Event.id e =? id) eqn:Hhit; [| reflexivity].
      assert (Hin : In e (filter (fun r => Event.id r =? id) (events db)))
        by (apply filter_In; auto).
      rewrite Hgone in Hin. destruct Hin.
    + apply filter_In in Hp as [Hp Hne]. apply negb_true_iff, Z.eqb_neq in Hne.
      destruct (Hfk p Hp) as (e & He & Heq). exists e. split; [| exact Heq].
      apply filter_In. split; [exact He |].
      apply negb_true_iff, Z.eqb_neq. congruence.
Qed.

Lemma event_update_keeps_store_ok now id fields db :
  store_ok db -> store_ok (fst (EventRepository.update now id fields db)).
Proof.
  intros Hok.
  destruct (event_update_outcome now id fields db)
    as [[-> _] | (sets & r' & rest & _ & _ & Hev & Hpred & _ & _ & Htab)];
    [exact Hok |].
  destruct Hok as (Hid & Href & Hpid & Hpe & Hfk).
  unfold EventRepository.table_ok in Htab.
  apply andb_true_iff in Htab as [Htab Hrefd]. apply andb_true_iff in Htab as [Hidd Hrefs].
  unfold store_ok. rewrite Hpred. repeat split; auto.
  - apply distinctZ_NoDup. exact Hidd.
  - apply distinct_NoDup. exact Hrefs.
  - intros p Hp. destruct (Z.eqb_spec (Prediction.event_id p) id) as [Hhit | Hmiss].
    + rewrite forallb_forall in Hrefd.
      assert (Hin : In p (filter (fun p => Prediction.event_id p =? id) (predictions db)))
        by (apply filter_In; split; [exact Hp | apply Z.eqb_eq; exact Hhit]).
      specialize (Hrefd p Hin). apply existsb_exists in Hrefd as (e & He & Heq).
      apply Z.eqb_eq in Heq. eauto.
    + destruct (Hfk p Hp) as (e & He & Heq). exists e. split; [| exact Heq].
      rewrite Hev. apply in_or_app. left. apply filter_In. split; [exact He |].
      apply negb_true_iff, Z.eqb_neq. congruence.
Qed.

Lemma new_prediction_keys id now p r :
  PredictionRepository.new_prediction id now p = Some r ->
  Prediction.id r = id /\ Prediction.event_id r = pin_event_id p
  /\ Prediction.created_at r = now.
Proof.
  unfold PredictionRepository.new_prediction.
  destruct (Sql.varchar 20 _); [| discriminate].
  destruct (Sql.varchar 50 _); [| discriminate].
  destruct (PredictionRepository.decimal_5_2 _); [| discriminate].
  intros [= <-]. auto.
Qed.

Lemma prediction_create_keeps_store_ok now nextId p db :
  store_ok db -> store_ok (fst (PredictionRepository.create now nextId p db)).
Proof.
  intros (Hid & Href & Hpid & Hpe & Hfk).
  unfold PredictionRepository.create, mbind, PredictionRepository.insert_do_nothing, ret.
  destruct (negb (Sql.int4 (pin_event_id p))); [same_store |].
  destruct (negb (PredictionRepository.prediction_text_ok p)); [same_store |].
  destruct (PredictionRepository.new_prediction nextId now p) as [r |] eqn:Hnew;
    [| same_store].
  destruct (new_prediction_keys _ _ _ _ Hnew) as (Hrid & Hrev & _).
  destruct (2 ^ 31 <=? nextId); [same_store |].
  destruct (negb (PredictionRepository.row_ok r)); [same_store |].
  destruct (existsb (fun q => Prediction.event_id q =? pin_event_id p) (predictions db))
    eqn:Hex; [same_store |].
  destruct (existsb (fun q => Prediction.id q =? nextId) (predictions db)) eqn:Hpk;
    [same_store |].
  destruct (existsb (fun e => Event.id e =? pin_event_id p) (events db)) eqn:Hev;
    cbn [negb]; [| same_store].
  cbn [fst]. unfold store_ok. cbn [events predictions events_id_seq].
  repeat split; auto.
  - apply NoDup_map_snoc; [exact Hpid |]. rewrite Hrid.
    eapply not_in_keys; [| exact Hpk]. reflexivity.
  - apply NoDup_map_snoc; [exact Hpe |]. rewrite Hrev.
    eapply not_in_keys; [| exact Hex]. reflexivity.
  - intros q Hq. apply in_app_or in Hq as [Hq | [<- | []]]; [auto |].
    rewrite Hrev. apply existsb_exists in Hev as (e & He & Heq).
    apply Z.eqb_eq in Heq. eauto.
Qed.

Lemma prediction_delete_keeps_store_ok id db :
  store_ok db -> store_ok (fst (PredictionRepository.delete id db)).
Proof.
  intros (Hid & Href & Hpid & Hpe & Hfk).
  unfold PredictionRepository.delete, mbind, Sql.delete_prediction, ret.
  destruct (Sql.int4 id); [| same_store].
  cbn [fst]. unfold store_ok. cbn [events predictions events_id_seq].
  repeat split; auto.
  - apply NoDup_map_filter. exact Hpid.
  - apply NoDup_map_filter. exact Hpe.
  - intros p Hp. apply filter_In in Hp as [Hp _]. auto.
Qed.

Lemma prediction_update_keeps_store_ok now id fields db :
  store_ok db -> store_ok (fst (PredictionRepository.update now id fields db)).
Proof.
  intros Hok. unfold PredictionRepository.update.
  destruct (filter provided fields) as [| f0 fs] eqn:Hf; [exact Hok |].
  rewrite <- Hf. clear Hf.
  destruct (Sql.update_by_id _ _ _ _ _ now id (filter provided fields) (predictions db))
    as [[rows' returned] | e] eqn:Hu; cbn [fst]; [| exact Hok].
  apply update_by_id_ok in Hu as (sets & _ & _ & [[_ ->] | (_ & _ & _ & Htab)]).
  - destruct db. exact Hok.
  - destruct Hok as (Hid & Href & Hpid & Hpe & Hfk).
    unfold PredictionRepository.table_ok in Htab.
    apply andb_true_iff in Htab as [Htab Hf]. apply andb_true_iff in Htab as [Hd He].
    unfold store_ok. cbn [events predictions events_id_seq].
    repeat split; auto.
    + apply distinctZ_NoDup. exact Hd.
    + apply distinctZ_NoDup. exact He.
    + intros p Hp. rewrite forallb_forall in Hf. specialize (Hf p Hp).
      apply existsb_exists in Hf as (e & Hin & Heq). apply Z.eqb_eq in Heq. eauto.
Qed.

(** X7. The repositories keep the key constraints of the schema.  If event
    ids are distinct, event references are distinct, prediction ids are
    distinct, no two predictions share an event and every prediction
    references a stored event, then the same holds after [create], [update],
    [delete] and [archiveOldEvents] on events and after [create], [update]
    and [delete] on predictions, whatever their arguments (an update that
    writes the [id] column through a key such as [ID] included) and whether
    they return or throw. *)
Theorem repositories_keep_the_key_constraints :
  forall (db : Db),
    store_ok db ->
    (forall now event, store_ok (fst (EventRepository.create now event db)))
    /\ (forall now id fields, store_ok (fst (EventRepository.update now id fields db)))
    /\ (forall id, store_ok (fst (EventRepository.delete id db)))
    /\ (forall now days, store_ok (fst (EventRepository.archiveOldEvents now days db)))
    /\ (forall now nextId p, store_ok (fst (PredictionRepository.create now nextId p db)))
    /\ (forall now id fields, store_ok (fst (PredictionRepository.update now id fields db)))
    /\ (forall id, store_ok (fst (PredictionRepository.delete id db))).
Proof.
  intros db Hok.
  split; [intros; apply create_keeps_store_ok; exact Hok |].
  split; [intros; apply event_update_keeps_store_ok; exact Hok |].
  split; [intros; apply event_delete_keeps_store_ok; exact Hok |].
  split; [intros; apply archive_keeps_store_ok; exact Hok |].
  split; [intros; apply prediction_create_keeps_store_ok; exact Hok |].
  split; [intros; apply prediction_update_keeps_store_ok; exact Hok |].
  intros; apply prediction_delete_keeps_store_ok; exact Hok.
Qed.

(** ** Look-ups after a write *)

Lemma filter_unique_key {A : Type} (key : A -> Z) (r : A) (l : list A) :
  NoDup (map key l) -> In r l -> filter (fun x => key x =? key r) l = [r].
Proof.
  induction l as [| x l IH]; simpl; [intros _ [] |].
  intros Hnd Hin. inversion Hnd as [| ? ? Hnotin Hl]; subst.
  destruct Hin as [-> | Hin].
  - rewrite Z.eqb_refl. f_equal.
    apply filter_none. destruct (existsb _ l) eqn:Hex; [| reflexivity].
    apply existsb_exists in Hex as (y & Hy & Heq). apply Z.eqb_eq in Heq.
    exfalso. apply Hnotin. rewrite <- Heq. apply in_map. exact Hy.
  - destruct (Z.eqb_spec (key x) (key r)) as [Heq | _]; [| auto].
    exfalso. apply Hnotin. rewrite Heq. apply in_map. exact Hin.
Qed.

Lemma text_ok_cons (c : ascii) (s : string) :
  Sql.text_ok (String c s) = (negb (nat_of_ascii c =? 0)%nat && Sql.text_ok s)%bool.
Proof. reflexivity. Qed.

(** What a [VARCHAR] column keeps of a string has no NUL character if the
    string has none. *)
Lemma split_chars_text_ok (n : nat) (s : string) :
  Sql.text_ok s = true -> Sql.text_ok (fst (Sql.split_chars n s)) = true.
Proof.
  revert n. induction s as [| c s IH]; intros n; [reflexivity |].
  rewrite text_ok_cons, andb_true_iff. intros [Hc Hs].
  cbn [Sql.split_chars]. destruct (Sql.continuation c).
  - specialize (IH n Hs). destruct (Sql.split_chars n s) as [kept excess].
    cbn [fst] in *. rewrite text_ok_cons, Hc, IH. reflexivity.
  - destruct n as [| k]; [reflexivity |].
    specialize (IH k Hs). destruct (Sql.split_chars k s) as [kept excess].
    cbn [fst] in *. rewrite text_ok_cons, Hc, IH. reflexivity.
Qed.

Lemma varchar_text_ok (n : nat) (s kept : string) :
  Sql.varchar n s = Some kept -> Sql.text_ok s = true -> Sql.text_ok kept = true.
Proof.
  unfold Sql.varchar. intros H Hs. pose proof (split_chars_text_ok n s Hs) as Hk.
  destruct (Sql.split_chars n s) as [k excess]. cbn [fst] in Hk.
  destruct (forallb _ _); [| discriminate]. injection H as <-. exact Hk.
Qed.

Lemma new_event_keys id now date e row :
  Sql.new_event id now date e = Some row ->
  Sql.varchar 64 (in_event_ref e) = Some (Event.event_ref row)
  /\ Event.id row = id
  /\ Event.created_at row = now
  /\ Event.is_archived row = false.
Proof.
  unfold Sql.new_event.
  destruct (Sql.varchar 64 _) as [ref |]; [| discriminate].
  destruct (Sql.varchar 50 _); [| discriminate].
  destruct (Sql.varchar 100 (in_league e)); [| discriminate].
  destruct (Sql.varchar 100 (in_home_team e)); [| discriminate].
  destruct (Sql.varchar 100 (in_away_team e)); [| discriminate].
  destruct (Sql.varchar 20 _); [| discriminate].
  destruct (in_venue e) as [v |].
  - destruct (Sql.varchar 200 v); [| discriminate]. intros [= <-]. auto.
  - intros [= <-]. auto.
Qed.

(** What [create] returns is the first stored row under its reference; the
    table has grown at its end, if at all. *)
Lemma create_returns_first_match now event db db' r :
  EventRepository.create now event db = (db', Ok (Some r)) ->
  Sql.text_ok (Event.event_ref r) = true
  /\ hd_error (filter (has_ref (Event.event_ref r)) (events db')) = Some r
  /\ (exists extra, events db' = events db ++ extra)
  /\ predictions db' = predictions db
  /\ (Event.event_ref r = in_event_ref event
      \/ Sql.varchar 64 (in_event_ref event) = Some (Event.event_ref r)).
Proof.
  unfold EventRepository.create, mbind, Sql.insert_event_do_nothing,
    Sql.select_events_by_ref, ret.
  destruct (Sql.event_text_ok event) eqn:Htext; cbn [negb]; [| discriminate].
  apply text_ok_ref in Htext.
  destruct (Sql.timestamp_param (in_event_date event)) as [date |]; [| discriminate].
  destruct (Sql.new_event (events_id_seq db) now date event) as [row |] eqn:Hnew;
    [| discriminate].
  destruct (new_event_keys _ _ _ _ _ Hnew) as (Href & _).
  destruct (2 ^ 31 <=? events_id_seq db); [discriminate |].
  destruct (negb (Sql.check_status (Event.status row))); [discriminate |].
  fold (has_ref (Event.event_ref row)).
  destruct (existsb (has_ref (Event.event_ref row)) (events db)) eqn:Hex.
  - rewrite Htext. cbn [events]. fold (has_ref (in_event_ref event)).
    intros [= <- Hhd]. cbn [events predictions].
    assert (Hin : In r (filter (has_ref (in_event_ref event)) (events db))).
    { destruct (filter _ (events db)) as [| x l]; [discriminate |].
      injection Hhd as <-. left. reflexivity. }
    apply filter_In in Hin as [_ Hr]. apply String.eqb_eq in Hr.
    rewrite Hr. split; [exact Htext |]. split; [exact Hhd |].
    split; [exists []; rewrite app_nil_r; reflexivity | auto].
  - destruct (existsb (fun r0 => Event.id r0 =? Event.id row) (events db));
      [discriminate |].
    intros [= <- <-]. unfold with_events. cbn [events predictions].
    split; [exact (varchar_text_ok _ _ _ Href Htext) |].
    split; [| split; [eauto | auto]].
    rewrite filter_app, (filter_none _ _ Hex). cbn [filter app].
    unfold has_ref at 1. rewrite String.eqb_refl. reflexivity.
Qed.

(** X6. What [create] returns can be read back.  After [create] returned a
    row, [findByEventRef] with the row's reference returns that row; the
    row's reference is the record's, or, for a record whose reference has
    more than 64 characters, what the column kept of it (the first 64
    characters, the rest being spaces); and when the key constraints held
    before and the row's id is a 32-bit integer, [findById] with its id
    returns that row, bare or with its latest prediction.  A reference
    without a NUL character that no stored event carries is answered with
    [null]. *)
Theorem created_event_is_found_again :
  forall (now : Z) (event : EventInput) (db db' : Db) (r : Event.t),
    EventRepository.create now event db = (db', Ok (Some r)) ->
    EventRepository.findByEventRef (Event.event_ref r) db' = (db', Ok (Some r))
    /\ (Event.event_ref r = in_event_ref event
        \/ (fits 64 (in_event_ref event) = false
            /\ Sql.varchar 64 (in_event_ref event) = Some (Event.event_ref r)))
    /\ In r (events db')
    /\ (store_ok db -> Sql.int4 (Event.id r) = true ->
        EventRepository.findById (Event.id r) (Some false) db' = (db', Ok (Some (Bare r)))
        /\ EventRepository.findById (Event.id r) None db'
           = (db', Ok (Some (Detailed (EventRepository.view db' r)))))
    /\ (forall ref, Sql.text_ok ref = true ->
                    (forall e, In e (events db') -> Event.event_ref e <> ref) ->
                    EventRepository.findByEventRef ref db' = (db', Ok None)).
Proof.
  intros now event db db' r Hc.
  destruct (create_returns_first_match _ _ _ _ _ Hc) as (Htext & Hhd & _ & _ & Href).
  assert (Hin : In r (filter (has_ref (Event.event_ref r)) (events db'))).
  { destruct (filter _ (events db')) as [| x l]; [discriminate |].
    injection Hhd as <-. left. reflexivity. }
  apply filter_In in Hin as [Hin _].
  split; [| split; [| split; [exact Hin | split]]].
  - unfold EventRepository.findByEventRef, mbind, Sql.select_events_by_ref, ret.
    rewrite Htext. fold (has_ref (Event.event_ref r)). rewrite Hhd. reflexivity.
  - destruct Href as [Href | Href]; [left; exact Href |].
    destruct (fits 64 (in_event_ref event)) eqn:Hfits; [| right; auto].
    left. rewrite (varchar_fits _ _ Hfits) in Href. congruence.
  - intros Hok Hint.
    assert (Hok' : store_ok db').
    { pose proof (create_keeps_store_ok now event db Hok) as H. rewrite Hc in H. exact H. }
    destruct Hok' as (Hid & _).
    unfold EventRepository.findById, mbind, Sql.select_event_by_id, ret.
    rewrite Hint, (filter_unique_key Event.id r (events db') Hid Hin).
    split; reflexivity.
  - intros ref Hreft Hnone.
    unfold EventRepository.findByEventRef, mbind, Sql.select_events_by_ref, ret.
    rewrite Hreft, filter_none; [reflexivity |].
    destruct (existsb _ (events db')) eqn:Hex; [| reflexivity].
    apply existsb_exists in Hex as (e & He & Heq). apply String.eqb_eq in Heq.
    exfalso. exact (Hnone e He Heq).
Qed.

(** ** Deleting an event *)

Lemma positive_count {A : Type} (p : A -> bool) (l : list A) :
  (0 <? Z.of_nat (List.length (filter p l))) = existsb p l.
Proof.
  induction l as [| x l IH]; [reflexivity |].
  cbn [filter existsb]. destruct (p x); [| exact IH].
  cbn [List.length orb]. apply Z.ltb_lt. lia.
Qed.

(** X8. [EventRepository.delete] with a 32-bit id returns [true] exactly when
    an event with that id was stored.  Afterwards the events are those with
    another id, unchanged and in order; [findById] answers [null]; a second
    [delete] returns [false].  When the key constraints held, the predictions
    left are exactly those of other events: the deleted event's predictions
    go with it. *)
Theorem deleting_an_event_cascades :
  forall (id : Z) (includePredictions : option bool) (db : Db),
    Sql.int4 id = true ->
    let out := EventRepository.delete id db in
    snd out = Ok (existsb (fun e => Event.id e =? id) (events db))
    /\ events (fst out) = filter (fun e => negb (Event.id e =? id)) (events db)
    /\ (store_ok db ->
        predictions (fst out)
        = filter (fun p => negb (Prediction.event_id p =? id)) (predictions db))
    /\ EventRepository.findById id includePredictions (fst out) = (fst out, Ok None)
    /\ snd (EventRepository.delete id (fst out)) = Ok false.
Proof.
  intros id inc db Hint out. subst out.
  unfold EventRepository.delete, mbind, Sql.delete_event, ret. rewrite Hint.
  cbn [fst snd events predictions]. rewrite or_default_zero.
  assert (Hnone : filter (fun r => Event.id r =? id)
                    (filter (fun r => negb (Event.id r =? id)) (events db)) = []).
  { apply filter_none. destruct (existsb _ _) eqn:Hex; [| reflexivity].
    apply existsb_exists in Hex as (e & He & Heq).
    apply filter_In in He as [_ Hne]. rewrite Heq in Hne. discriminate. }
  split; [| split; [reflexivity | split; [| split]]].
  - f_equal. apply positive_count.
  - intros (_ & _ & _ & _ & Hfk).
    destruct (filter (fun r => Event.id r =? id) (events db)) as [| g gs] eqn:Hgone;
      [| reflexivity].
    symmetry. apply filter_all. intros p Hp.
    destruct (Hfk p Hp) as (e & He & Heq).
    apply negb_true_iff. destruct (Prediction.event_id p =? id) eqn:Hhit; [| reflexivity].
    apply Z.eqb_eq in Hhit.
    assert (Hin : In e (filter (fun r => Event.id r =? id) (events db)))
      by (apply filter_In; split; [exact He | apply Z.eqb_eq; congruence]).
    rewrite Hgone in Hin. destruct Hin.
  - unfold EventRepository.findById, mbind, Sql.select_event_by_id, ret.
    rewrite Hint. cbn [events]. rewrite Hnone.
    destruct inc as [[|] |]; reflexivity.
  - cbn [events fst snd]. rewrite Hnone. reflexivity.
Qed.

(** ** After the sweep *)

(** X9. The archived count grows by what the sweep reports.
    [archiveOldPredictions] returns exactly when the store can apply the
    retention (a 32-bit number of days whose cutoff is an instant a timestamp
    holds); then [archivedCount] is not negative and [getArchivedCount]
    afterwards returns the count from before plus [archivedCount].  When the
    sweep throws, the database and with it the count are as they were. *)
Theorem archived_count_grows_by_the_result :
  forall (now clock days : Z) (db : Db),
    let out := ArchiveService.archiveOldPredictions now clock days db in
    exists before,
      snd (ArchiveService.getArchivedCount db) = Ok before
      /\ match snd out with
         | Ok result =>
             retention_ok now days = true
             /\ 0 <= archivedCount result
             /\ snd (ArchiveService.getArchivedCount (fst out))
                = Ok (before + archivedCount result)
         | Throw _ =>
             retention_ok now days = false
             /\ fst out = db
         end.
Proof.
  intros now clock days db out. subst out.
  exists (archived (events db)). split; [reflexivity |].
  unfold ArchiveService.archiveOldPredictions, mbind.
  destruct (retention_ok now days) eqn:Hret.
  - rewrite (archiveOldEvents_eq now days db Hret). cbn [ret fst snd archivedCount].
    split; [reflexivity |]. split; [lia |].
    unfold ArchiveService.getArchivedCount, EventRepository.getArchivedCount,
      Sql.count_archived, with_events. cbn [snd events].
    f_equal. apply archived_after.
  - destruct (archiveOldEvents_refused now days db Hret) as (cause & ->).
    cbn [fst snd]. auto.
Qed.

(** X10. A swept event leaves the list for good.  After a sweep
    [archiveOldEvents(retentionDays)] that the store could apply at [now],
    every event that [findAll] returns, at any later instant, under any
    filters and by any plan, is dated at or after [now - retentionDays]
    days. *)
Theorem swept_events_leave_the_list :
  forall (plan : Sql.Plan Event.t) (now days now' : Z) (f : EventFilters)
         (pg : PaginationParams) (db : Db),
    retention_ok now days = true ->
    match snd (EventRepository.findAll plan now' f pg
                 (fst (EventRepository.archiveOldEvents now days db))) with
    | Ok (page, _) =>
        Forall (fun v => now - days * ms_per_day <= Event.event_date (row v)) page
    | Throw _ => True
    end.
Proof.
  intros plan now days now' f pg db Hret.
  destruct (snd (EventRepository.findAll plan now' f pg _)) as [[page total] | e] eqn:H;
    [| exact I].
  apply Forall_forall. intros v Hv.
  destruct (events_page_rows _ _ _ _ _ _ _ _ H Hv) as (sd & ed & Hin & Hw & _).
  apply events_where_unarchived in Hw.
  rewrite (archiveOldEvents_eq now days db Hret) in Hin.
  cbn [fst events with_events] in Hin.
  apply in_app_or in Hin as [Hin | Hin].
  - apply filter_In in Hin as [_ Hr]. unfold Sql.archivable in Hr.
    rewrite Hw in Hr. cbn [negb andb] in Hr.
    apply negb_true_iff, Z.ltb_ge in Hr. exact Hr.
  - apply in_map_iff in Hin as (r & Hr & _). rewrite <- Hr in Hw. discriminate.
Qed.

(** ** The detail endpoints *)

Lemma hd_filter_cases {A : Type} (p : A -> bool) (l : list A) :
  match hd_error (filter p l) with
  | Some r => In r l /\ p r = true
  | None => forall x, In x l -> p x = false
  end.
Proof.
  destruct (existsb p l) eqn:Hex.
  - destruct (hd_filter_exists p l Hex) as (r & -> & Hin & Hp). auto.
  - rewrite (filter_none p l Hex). cbn [hd_error]. intros x Hx.
    destruct (p x) eqn:Hp; [| reflexivity].
    assert (existsb p l = true) by (apply existsb_exists; eauto). congruence.
Qed.

(** X12. [GET /api/events/:id] leaves the database alone and answers by the
    id alone.  An id that does not parse is a 400.  A 32-bit id that no stored
    event has is a 404.  A 32-bit id that a stored event has is answered with
    a stored event of that id, archived or not, bare exactly when
    [includePredictions] is the string [false] and otherwise with its latest
    prediction.  An id beyond 32 bits is a storage error, not a 404. *)
Theorem event_detail_answers_by_id :
  forall (idParam : string) (includePredictions : option string) (db : Db),
    let out := Routes.getEventById idParam includePredictions db in
    fst out = db
    /\ match Js.parseInt idParam with
       | None => snd out = Throw (AppError 400 "Invalid event ID")
       | Some n =>
           if Sql.int4 n then
             ((forall e, In e (events db) -> Event.id e <> n) ->
              snd out = Throw (AppError 404 "Event not found"))
             /\ ((exists e, In e (events db) /\ Event.id e = n) ->
                 exists d,
                   snd out = Ok d
                   /\ In (detail_row d) (events db)
                   /\ Event.id (detail_row d) = n
                   /\ (is_bare d = true <-> includePredictions = Some "false")
                   /\ (forall v, d = Detailed v -> carries_latest_prediction db v))
           else exists cause, snd out = Throw (StorageError cause)
       end.
Proof.
  intros idParam inc db out. subst out.
  unfold Routes.getEventById.
  destruct (Js.parseInt idParam) as [n |]; [| split; reflexivity].
  unfold EventService.getEventById, EventRepository.findById, mbind,
    Sql.select_event_by_id, ret, throw.
  destruct (Sql.int4 n); [| split; [| eexists]; reflexivity].
  pose proof (hd_filter_cases (fun r => Event.id r =? n) (events db)) as Hhd.
  assert (Hbare : (Routes.default inc "true" =? "false")%string = true
                  <-> inc = Some "false").
  { rewrite String.eqb_eq. unfold Routes.default.
    destruct inc as [v |]; split; intros H; try congruence; discriminate. }
  destruct (Routes.default inc "true" =? "false")%string eqn:Hinc; cbn [negb];
    destruct (hd_error (filter (fun r => Event.id r =? n) (events db))) as [r |];
    cbn [option_map fst snd]; (split; [reflexivity |]); split.
  all: try (intros Hnone; destruct Hhd as [Hin Hid]; apply Z.eqb_eq in Hid;
            exfalso; exact (Hnone r Hin Hid)).
  all: try (intros _; reflexivity).
  all: try (intros (e & He & Hid); specialize (Hhd e He);
            apply Z.eqb_neq in Hhd; contradiction).
  - intros _. destruct Hhd as [Hin Hid]. apply Z.eqb_eq in Hid.
    eexists. split; [reflexivity |]. cbn [detail_row is_bare].
    repeat split; auto; try discriminate; try (apply Hbare; reflexivity).
  - intros _. destruct Hhd as [Hin Hid]. apply Z.eqb_eq in Hid.
    eexists. split; [reflexivity |]. cbn [detail_row is_bare row EventRepository.view].
    repeat split; auto; try discriminate;
      try (intros H; apply Hbare in H; discriminate);
      try (intros v [= <-]; apply view_carries_latest).
Qed.

(** X13. [GET /api/predictions/:id] leaves the database alone: an id that
    does not parse is a 400, a 32-bit id of no stored prediction is a 404, a
    32-bit id of a stored prediction is answered with a stored prediction of
    that id (the event is not embedded), and an id beyond 32 bits is a storage
    error. *)
Theorem prediction_detail_answers_by_id :
  forall (idParam : string) (db : Db),
    let out := Routes.getPredictionById idParam db in
    fst out = db
    /\ match Js.parseInt idParam with
       | None => snd out = Throw (AppError 400 "Invalid prediction ID")
       | Some n =>
           if Sql.int4 n then
             ((forall p, In p (predictions db) -> Prediction.id p <> n) ->
              snd out = Throw (AppError 404 "Prediction not found"))
             /\ ((exists p, In p (predictions db) /\ Prediction.id p = n) ->
                 exists p, snd out = Ok p /\ In p (predictions db)
                           /\ Prediction.id p = n)
           else exists cause, snd out = Throw (StorageError cause)
       end.
Proof.
  intros idParam db out. subst out.
  unfold Routes.getPredictionById.
  destruct (Js.parseInt idParam) as [n |]; [| split; reflexivity].
  unfold PredictionRepository.findById, mbind, Sql.select_prediction_by_id, ret, throw.
  destruct (Sql.int4 n); [| split; [| eexists]; reflexivity].
  pose proof (hd_filter_cases (fun p => Prediction.id p =? n) (predictions db)) as Hhd.
  destruct (hd_error (filter (fun p => Prediction.id p =? n) (predictions db))) as [r |];
    cbn [fst snd]; (split; [reflexivity |]); split.
  - intros Hnone. destruct Hhd as [Hin Hid]. apply Z.eqb_eq in Hid.
    exfalso. exact (Hnone r Hin Hid).
  - intros _. destruct Hhd as [Hin Hid]. apply Z.eqb_eq in Hid. eauto.
  - intros _. reflexivity.
  - intros (p & Hp & Hid). specialize (Hhd p Hp). apply Z.eqb_neq in Hhd. contradiction.
Qed.

(** ** Creating a prediction *)

Lemma prediction_ok_checks p :
  prediction_ok p = true ->
  Sql.int4 (pin_event_id p) = true
  /\ PredictionRepository.prediction_text_ok p = true
  /\ exists score,
       PredictionRepository.decimal_5_2 (pin_confidence_score p) = Some score
       /\ forall now nextId,
            let r := Prediction.mk nextId (pin_event_id p) (pin_prediction_type p)
                       (pin_predicted_value p) score (pin_reasoning p)
                       (pin_model_version p) now now in
            PredictionRepository.new_prediction nextId now p = Some r
            /\ PredictionRepository.row_ok r = true.
Proof.
  unfold prediction_ok. rewrite !andb_true_iff.
  intros [[[[Hint Htext] Htype] Hversion] H].
  split; [exact Hint |]. split; [exact Htext |].
  destruct (PredictionRepository.decimal_5_2 (pin_confidence_score p)) as [score |] eqn:Hs;
    [| discriminate].
  exists score. split; [reflexivity |]. intros now nextId. cbv zeta. split.
  - unfold PredictionRepository.new_prediction.
    rewrite (varchar_fits _ _ Htype), (varchar_fits _ _ Hversion), Hs. reflexivity.
  - unfold PredictionRepository.row_ok.
    cbn [Prediction.prediction_type Prediction.confidence_score]. exact H.
Qed.

Lemma latest_of_single (l : list Prediction.t) (r : Prediction.t) :
  existsb (fun q => Prediction.event_id q =? Prediction.event_id r) l = false ->
  Sql.latest_prediction (l ++ [r]) (Prediction.event_id r) = Some r.
Proof.
  intros Hex. unfold Sql.latest_prediction.
  rewrite filter_app, (filter_none _ _ Hex). cbn [filter app].
  rewrite Z.eqb_refl. reflexivity.
Qed.

Lemma none_has (A : Type) (key : A -> Z) (k : Z) (l : list A) :
  (forall x, In x l -> key x <> k) -> existsb (fun x => key x =? k) l = false.
Proof.
  intros Hnone. destruct (existsb _ l) eqn:Hex; [| reflexivity].
  apply existsb_exists in Hex as (x & Hx & Heq). apply Z.eqb_eq in Heq.
  exfalso. exact (Hnone x Hx Heq).
Qed.

Lemma some_has (A : Type) (key : A -> Z) (k : Z) (l : list A) :
  (exists x, In x l /\ key x = k) -> existsb (fun x => key x =? k) l = true.
Proof.
  intros (x & Hx & Heq). apply existsb_exists. exists x.
  split; [exact Hx | apply Z.eqb_eq; exact Heq].
Qed.

(** [create] for an event that has a prediction stores nothing and reads
    that prediction back. *)
Lemma prediction_create_conflict now nextId p db :
  prediction_ok p = true -> nextId < 2 ^ 31 ->
  existsb (fun q => Prediction.event_id q =? pin_event_id p) (predictions db) = true ->
  PredictionRepository.create now nextId p db
  = (db, Ok (Sql.latest_prediction (predictions db) (pin_event_id p))).
Proof.
  intros Hok Hseq Hex.
  destruct (prediction_ok_checks p Hok) as (Hint & Htext & score & _ & Hrow).
  destruct (Hrow now nextId) as [Hnew Hrok].
  unfold PredictionRepository.create, mbind, PredictionRepository.insert_do_nothing.
  rewrite Hint, Htext, Hnew, Hrok, Hex. cbn [negb].
  destruct (Z.leb_spec (2 ^ 31) nextId); [lia | reflexivity].
Qed.

(** X14. [PredictionRepository.create] treats a taken event as success.  For
    a record that passes the column checks ([prediction_type] and
    [model_version] within their widths, no NUL character, a confidence in
    range) and an id the sequence can still hand out: if the event already
    has a prediction, nothing is stored and the call returns a stored
    prediction of that event, the most recently created one; if it has none,
    the event is stored and the id is free, one row is appended with the
    sequence's id and the instant of the call, and a repeated [create] for
    the same event returns that row and stores nothing; if it has none and
    the id is taken or the event is not stored, the call throws a storage
    error and stores nothing. *)
Theorem prediction_create_is_conflict_as_success :
  forall (now nextId : Z) (p : PredictionInput) (db : Db),
    prediction_ok p = true ->
    nextId < 2 ^ 31 ->
    let out := PredictionRepository.create now nextId p db in
    ((exists q, In q (predictions db) /\ Prediction.event_id q = pin_event_id p) ->
     fst out = db
     /\ exists q, snd out = Ok (Some q)
                  /\ In q (predictions db)
                  /\ Prediction.event_id q = pin_event_id p
                  /\ forall q', In q' (predictions db) ->
                                Prediction.event_id q' = pin_event_id p ->
                                Prediction.created_at q' <= Prediction.created_at q)
    /\
    ((forall q, In q (predictions db) -> Prediction.event_id q <> pin_event_id p) ->
     (exists e, In e (events db) /\ Event.id e = pin_event_id p) ->
     (forall q, In q (predictions db) -> Prediction.id q <> nextId) ->
     exists r,
       snd out = Ok (Some r)
       /\ predictions (fst out) = predictions db ++ [r]
       /\ events (fst out) = events db
       /\ Prediction.id r = nextId
       /\ Prediction.event_id r = pin_event_id p
       /\ Prediction.created_at r = now
       /\ forall now' nextId' p',
            prediction_ok p' = true -> nextId' < 2 ^ 31 ->
            pin_event_id p' = pin_event_id p ->
            PredictionRepository.create now' nextId' p' (fst out) = (fst out, Ok (Some r)))
    /\
    ((forall q, In q (predictions db) -> Prediction.event_id q <> pin_event_id p) ->
     (exists q, In q (predictions db) /\ Prediction.id q = nextId)
     \/ (forall e, In e (events db) -> Event.id e <> pin_event_id p) ->
     fst out = db /\ exists cause, snd out = Throw (StorageError cause)).
Proof.
  intros now nextId p db Hok Hseq out. subst out.
  destruct (prediction_ok_checks p Hok) as (Hint & Htext & score & Hscore & Hrow).
  destruct (Hrow now nextId) as [Hnew Hrok].
  assert (Hroom : (2 ^ 31 <=? nextId) = false) by (apply Z.leb_gt; exact Hseq).
  split; [| split].
  - intros Hsome. pose proof Hsome as (q0 & Hq0 & Heq0).
    rewrite (prediction_create_conflict now nextId p db Hok Hseq
               (some_has _ Prediction.event_id _ _ Hsome)).
    cbn [fst snd]. split; [reflexivity |].
    pose proof (latest_prediction_spec (predictions db) (pin_event_id p)) as Hl.
    destruct (Sql.latest_prediction (predictions db) (pin_event_id p)) as [q |].
    + exists q. destruct Hl as (H1 & H2 & H3). auto.
    + exfalso. exact (Hl q0 Hq0 Heq0).
  - intros Hnone Hstored Hfree.
    pose proof (none_has _ Prediction.event_id _ _ Hnone) as Hex.
    pose proof (some_has _ Event.id _ _ Hstored) as Hev.
    pose proof (none_has _ Prediction.id _ _ Hfree) as Hpk.
    set (r := Prediction.mk nextId (pin_event_id p) (pin_prediction_type p)
                (pin_predicted_value p) score (pin_reasoning p)
                (pin_model_version p) now now) in *.
    assert (Hout : PredictionRepository.create now nextId p db
                   = (mkDb (events db) (predictions db ++ [r]) (events_id_seq db),
                      Ok (Some r))).
    { unfold PredictionRepository.create, mbind,
        PredictionRepository.insert_do_nothing, ret.
      rewrite Hint, Htext, Hnew, Hroom, Hrok, Hex, Hpk, Hev. reflexivity. }
    rewrite Hout. cbn [fst snd].
    exists r. split; [reflexivity |]. cbn [predictions events].
    repeat split.
    intros now' nextId' p' Hok' Hseq' Heq'.
    rewrite (prediction_create_conflict now' nextId' p' _ Hok' Hseq').
    + cbn [predictions]. rewrite Heq'.
      pose proof (latest_of_single (predictions db) r Hex) as Hl.
      cbn [Prediction.event_id r] in Hl. rewrite Hl. reflexivity.
    + cbn [predictions]. rewrite Heq', existsb_app. cbn [existsb].
      unfold r at 1. cbn [Prediction.event_id].
      rewrite Z.eqb_refl. apply orb_true_iff. right. reflexivity.
  - intros Hnone Hwhy.
    pose proof (none_has _ Prediction.event_id _ _ Hnone) as Hex.
    unfold PredictionRepository.create, mbind, PredictionRepository.insert_do_nothing.
    rewrite Hint, Htext, Hnew, Hroom, Hrok, Hex. cbn [negb].
    destruct (existsb (fun q => Prediction.id q =? nextId) (predictions db)) eqn:Hpk;
      [split; [reflexivity | eexists; reflexivity] |].
    destruct Hwhy as [Htaken | Hnoev].
    + rewrite (some_has _ Prediction.id _ _ Htaken) in Hpk. discriminate.
    + rewrite (none_has _ Event.id _ _ Hnoev). cbn [negb fst snd].
      split; [reflexivity | eexists; reflexivity].
Qed.

(** ** Loading events *)

Lemma loadEvents_step rt now e rest acc db :
  DataIngestionService.loadEvents_from rt now (e :: rest) acc db
  = if dated rt e then
      match EventRepository.create now
              (DataIngestionService.to_input rt (record_date rt e) e) db with
      | (db', Ok (Some event)) =>
          DataIngestionService.loadEvents_from rt now rest (acc ++ [event]) db'
      | (db', Ok None) => (db', Throw TypeError)
      | (db', Throw err) => (db', Throw err)
      end
    else DataIngestionService.loadEvents_from rt now rest acc db.
Proof.
  cbn [DataIngestionService.loadEvents_from]. unfold dated. fold (record_date rt e).
  destruct (Js.is_invalid (record_date rt e)); cbn [negb]; [reflexivity |].
  unfold mbind.
  destruct (EventRepository.create now _ db) as [db' [[event |] | err]]; reflexivity.
Qed.

(** What the store has accepted of a record when [create] returns. *)
Lemma create_ok_inv now event db db' res :
  EventRepository.create now event db = (db', Ok res) ->
  Sql.event_text_ok event = true
  /\ exists date row,
       Sql.timestamp_param (in_event_date event) = Some date
       /\ Sql.new_event (events_id_seq db) now date event = Some row
       /\ Sql.check_status (Event.status row) = true.
Proof.
  unfold EventRepository.create, mbind, Sql.insert_event_do_nothing.
  destruct (Sql.event_text_ok event); cbn [negb]; [| discriminate].
  destruct (Sql.timestamp_param (in_event_date event)) as [date |]; [| discriminate].
  destruct (Sql.new_event (events_id_seq db) now date event) as [row |] eqn:Hnew;
    [| discriminate].
  destruct (2 ^ 31 <=? events_id_seq db); [discriminate |].
  destruct (Sql.check_status (Event.status row)) eqn:Hstatus; cbn [negb];
    [| discriminate].
  intros _. split; [reflexivity |]. exists date, row. auto.
Qed.

(** The id and the instant do not decide whether a record fits its columns,
    nor what the columns keep of it. *)
Lemma new_event_again id now id' now' date e row :
  Sql.new_event id now date e = Some row ->
  exists row',
    Sql.new_event id' now' date e = Some row'
    /\ Event.event_ref row' = Event.event_ref row
    /\ Event.status row' = Event.status row.
Proof.
  unfold Sql.new_event.
  destruct (Sql.varchar 64 _) as [ref |]; [| discriminate].
  destruct (Sql.varchar 50 _); [| discriminate].
  destruct (Sql.varchar 100 (in_league e)); [| discriminate].
  destruct (Sql.varchar 100 (in_home_team e)); [| discriminate].
  destruct (Sql.varchar 100 (in_away_team e)); [| discriminate].
  destruct (Sql.varchar 20 _); [| discriminate].
  destruct (in_venue e) as [v |].
  - destruct (Sql.varchar 200 v); [| discriminate].
    intros [= <-]. eexists. split; [reflexivity | auto].
  - intros [= <-]. eexists. split; [reflexivity | auto].
Qed.

Lemma hd_filter_app {A : Type} (p : A -> bool) (l more : list A) (r : A) :
  hd_error (filter p l) = Some r -> hd_error (filter p (l ++ more)) = Some r.
Proof.
  rewrite filter_app. destruct (filter p l); [discriminate | auto].
Qed.

(** A record that [create] has answered with a row is answered with that row
    again, in any later state of the table that has kept its rows in place
    and has a sequence value left, if the column holds its reference in
    full. *)
Lemma create_again now now' event db db' r dbx more :
  EventRepository.create now event db = (db', Ok (Some r)) ->
  fits 64 (in_event_ref event) = true ->
  events dbx = events db' ++ more ->
  events_id_seq dbx < 2 ^ 31 ->
  EventRepository.create now' event dbx
  = (mkDb (events dbx) (predictions dbx) (events_id_seq dbx + 1), Ok (Some r)).
Proof.
  intros Hc Hfits Hx Hseq.
  destruct (create_ok_inv _ _ _ _ _ Hc) as (Htext & date & row & Hdate & Hnew & Hstatus).
  destruct (create_returns_first_match _ _ _ _ _ Hc) as (_ & Hhd & _ & _ & Href).
  assert (Hr : Event.event_ref r = in_event_ref event).
  { destruct Href as [Href | Href]; [exact Href |].
    rewrite (varchar_fits _ _ Hfits) in Href. congruence. }
  rewrite Hr in Hhd.
  destruct (new_event_again _ _ (events_id_seq dbx) now' _ _ _ Hnew)
    as (row' & Hnew' & Href' & Hstatus').
  destruct (new_event_keys _ _ _ _ _ Hnew') as (Hkept & _).
  rewrite (varchar_fits _ _ Hfits) in Hkept. injection Hkept as Hkept.
  assert (Hhdx : hd_error (filter (has_ref (in_event_ref event)) (events dbx)) = Some r)
    by (rewrite Hx; apply hd_filter_app; exact Hhd).
  assert (Hex : existsb (has_ref (in_event_ref event)) (events dbx) = true).
  { destruct (existsb _ (events dbx)) eqn:Hex; [reflexivity |].
    rewrite (filter_none _ _ Hex) in Hhdx. discriminate. }
  unfold EventRepository.create, mbind, Sql.insert_event_do_nothing,
    Sql.select_events_by_ref, ret.
  rewrite Htext, Hdate, Hnew'. cbn [negb].
  destruct (Z.leb_spec (2 ^ 31) (events_id_seq dbx)); [lia |].
  rewrite Hstatus', Hstatus. cbn [negb].
  rewrite <- Hkept. fold (has_ref (in_event_ref event)). rewrite Hex.
  rewrite (text_ok_ref _ Htext). cbn [events]. rewrite Hhdx. reflexivity.
Qed.

Lemma loadEvents_replay rt (file : list EventData) :
  forall now acc db db1 out,
    DataIngestionService.loadEvents_from rt now file acc db = (db1, Ok out) ->
    exists rows extra,
      out = acc ++ rows
      /\ events db1 = events db ++ extra
      /\ predictions db1 = predictions db
      /\ Forall (fun r => In r (events db1)) rows
      /\ Forall2 kept_ref rows (filter (dated rt) file)
      /\ ((forall e, In e file -> fits 64 (ed_event_ref e) = true) ->
          forall now' acc' dbx more,
            events dbx = events db1 ++ more ->
            events_id_seq dbx + Z.of_nat (List.length rows) <= 2 ^ 31 ->
            DataIngestionService.loadEvents_from rt now' file acc' dbx
            = (mkDb (events dbx) (predictions dbx)
                    (events_id_seq dbx + Z.of_nat (List.length rows)),
               Ok (acc' ++ rows))).
Proof.
  induction file as [| e rest IH]; intros now acc db db1 out Hload.
  - cbn in Hload. injection Hload as <- <-.
    exists [], []. rewrite !app_nil_r. repeat split; auto.
    intros _ now' acc' dbx more _ _.
    cbn. rewrite app_nil_r, Z.add_0_r. destruct dbx. reflexivity.
  - rewrite loadEvents_step in Hload. cbn [filter].
    destruct (dated rt e) eqn:Hdated.
    + destruct (EventRepository.create now _ db) as [dbm [[r |] | err]] eqn:Hc;
        try discriminate.
      destruct (IH _ _ _ _ _ Hload)
        as (rows & extra & -> & Hev & Hpred & Hstored & Hrefs & Hreplay).
      destruct (create_returns_first_match _ _ _ _ _ Hc)
        as (_ & Hhd & [extra0 Hev0] & Hp & Href).
      assert (Hrin : In r (events dbm)).
      { destruct (filter _ (events dbm)) as [| x l] eqn:Hf; [discriminate |].
        injection Hhd as ->.
        assert (Hin : In r (filter (has_ref (Event.event_ref r)) (events dbm)))
          by (rewrite Hf; left; reflexivity).
        apply filter_In in Hin as [Hin _]. exact Hin. }
      exists (r :: rows), (extra0 ++ extra).
      split; [rewrite <- app_assoc; reflexivity |].
      split; [rewrite Hev, Hev0, app_assoc; reflexivity |].
      split; [congruence |].
      split; [constructor; [rewrite Hev; apply in_or_app; left; exact Hrin | exact Hstored] |].
      split.
      { constructor; [| exact Hrefs]. unfold kept_ref.
        cbn [DataIngestionService.to_input in_event_ref] in Href.
        destruct Href as [Href | Href]; [left; exact Href |].
        destruct (fits 64 (ed_event_ref e)) eqn:Hfits; [| right; auto].
        left. rewrite (varchar_fits _ _ Hfits) in Href. congruence. }
      intros Hfit now' acc' dbx more Hx Hseq.
      cbn [List.length] in Hseq. rewrite Nat2Z.inj_succ in Hseq.
      rewrite loadEvents_step, Hdated.
      rewrite (create_again now now' _ db dbm r dbx (extra ++ more) Hc);
        [| apply (Hfit e); left; reflexivity
         | rewrite Hx, Hev, <- app_assoc; reflexivity
         | lia].
      rewrite (Hreplay (fun e' He' => Hfit e' (or_intror He')) now' (acc' ++ [r])
                 (mkDb (events dbx) (predictions dbx) (events_id_seq dbx + 1)) more Hx)
        by (cbn [events_id_seq]; lia).
      cbn [events predictions events_id_seq List.length].
      rewrite <- app_assoc, Nat2Z.inj_succ. cbn [app].
      replace (events_id_seq dbx + 1 + Z.of_nat (List.length rows))
        with (events_id_seq dbx + Z.succ (Z.of_nat (List.length rows))) by lia.
      reflexivity.
    + destruct (IH _ _ _ _ _ Hload)
        as (rows & extra & -> & Hev & Hpred & Hstored & Hrefs & Hreplay).
      exists rows, extra. repeat split; auto.
      intros Hfit now' acc' dbx more Hx Hseq. rewrite loadEvents_step, Hdated.
      apply (Hreplay (fun e' He' => Hfit e' (or_intror He')) now' acc' dbx more Hx Hseq).
Qed.

(** X15. Loading an events file is idempotent.  If [loadEvents] returned and
    no reference of the file has more than 64 characters, loading the same
    file again, at any later instant and while the id sequence has a value
    left for every row returned, inserts nothing, leaves every stored event
    and prediction as it is, and returns the very same rows, with the same
    ids, in the same order; only the id sequence moves on, by one for each
    row. *)
Theorem loading_events_twice_adds_nothing :
  forall (rt : Runtime) (now now' : Z) (file : list EventData)
         (db db1 : Db) (created : list Event.t),
    DataIngestionService.loadEvents rt now file db = (db1, Ok created) ->
    (forall e, In e file -> fits 64 (ed_event_ref e) = true) ->
    events_id_seq db1 + Z.of_nat (List.length created) <= 2 ^ 31 ->
    DataIngestionService.loadEvents rt now' file db1
    = (mkDb (events db1) (predictions db1)
            (events_id_seq db1 + Z.of_nat (List.length created)),
       Ok created).
Proof.
  intros rt now now' file db db1 created Hload Hfit Hseq.
  unfold DataIngestionService.loadEvents in *.
  destruct (loadEvents_replay rt file _ _ _ _ _ Hload)
    as (rows & extra & -> & _ & _ & _ & _ & Hreplay).
  cbn [app] in *.
  apply (Hreplay Hfit now' [] db1 []); [rewrite app_nil_r; reflexivity | exact Hseq].
Qed.

(** X16. What [loadEvents] returns.  When the load returns, it returns one
    stored row for each record whose date parses, in file order; the row
    carries that record's [event_ref], or, for a reference of more than 64
    characters, what the column kept of it; records without a usable date
    leave no trace; the rows stored before are still there, in place, and
    predictions are untouched. *)
Theorem loaded_events_are_the_dated_records :
  forall (rt : Runtime) (now : Z) (file : list EventData)
         (db db1 : Db) (created : list Event.t),
    DataIngestionService.loadEvents rt now file db = (db1, Ok created) ->
    Forall2 kept_ref created (filter (dated rt) file)
    /\ ((forall e, In e file -> fits 64 (ed_event_ref e) = true) ->
        map Event.event_ref created = map ed_event_ref (filter (dated rt) file))
    /\ Forall (fun r => In r (events db1)) created
    /\ (exists extra, events db1 = events db ++ extra)
    /\ predictions db1 = predictions db
    /\ DataIngestionService.loadEvents rt now (filter (dated rt) file) db
       = (db1, Ok created).
Proof.
  intros rt now file db db1 created Hload.
  unfold DataIngestionService.loadEvents in *.
  destruct (loadEvents_replay rt file _ _ _ _ _ Hload)
    as (rows & extra & Hout & Hev & Hpred & Hstored & Hrefs & _).
  cbn [app] in Hout. subst created.
  split; [exact Hrefs |]. split.
  { intros Hfit.
    assert (Hfit' : forall e, In e (filter (dated rt) file) ->
                              fits 64 (ed_event_ref e) = true)
      by (intros e He; apply filter_In in He as [He _]; auto).
    clear - Hrefs Hfit'. induction Hrefs as [| r e rows es Hre _ IH]; [reflexivity |].
    cbn [map]. f_equal.
    - destruct Hre as [Hre | [Hno _]]; [exact Hre |].
      rewrite (Hfit' e (or_introl eq_refl)) in Hno. discriminate.
    - apply IH. intros e' He'. apply Hfit'. right. exact He'. }
  split; [exact Hstored |]. split; [eauto |].
  split; [exact Hpred |].
  rewrite <- Hload. generalize (@nil Event.t) as acc. clear. revert db.
  induction file as [| e rest IH]; intros db acc; [reflexivity |].
  cbn [filter]. rewrite (loadEvents_step rt now e rest).
  destruct (dated rt e) eqn:Hd.
  - rewrite loadEvents_step, Hd.
    destruct (EventRepository.create now _ db) as [db' [[r |] | err]]; auto.
  - apply IH.
Qed.

(** ** Loading predictions *)

Lemma loadPredictions_step now nextId p rest batch acc db :
  DataIngestionService.loadPredictions_from now nextId (p :: rest) batch acc db
  = match DataIngestionService.resolve batch p with
    | Skipped => DataIngestionService.loadPredictions_from now nextId rest batch acc db
    | Crashed => (db, Throw TypeError)
    | Resolved eventId =>
        match PredictionRepository.create now nextId
                (DataIngestionService.to_prediction eventId p) db with
        | (db', Ok (Some q)) =>
            DataIngestionService.loadPredictions_from now (nextId + 1) rest batch
              (acc ++ [Prediction.id q]) db'
        | (db', Ok None) => (db', Throw TypeError)
        | (db', Throw err) => (db', Throw err)
        end
    end.
Proof.
  cbn [DataIngestionService.loadPredictions_from].
  destruct (DataIngestionService.resolve batch p); try reflexivity.
  unfold mbind.
  destruct (PredictionRepository.create now nextId _ db) as [db' [[q |] | err]];
    reflexivity.
Qed.

Lemma resolved_is_in_batch batch p eventId :
  DataIngestionService.resolve batch p = Resolved eventId ->
  exists e, In e batch /\ Event.id e = eventId.
Proof.
  unfold DataIngestionService.resolve.
  destruct (Routes.pick (pd_event_ref p)) as [ref |].
  - destruct (find _ batch) as [evt |] eqn:Hf; [| discriminate].
    intros [= <-]. apply find_some in Hf as [Hin _]. eauto.
  - destruct (pd_event_index p) as [i |]; [| discriminate].
    destruct (Z.of_nat (List.length batch) <=? i); [discriminate |].
    destruct (i <? 0); [discriminate |].
    destruct (nth_error batch (Z.to_nat i)) as [e |] eqn:Hn; [| discriminate].
    intros [= <-]. apply nth_error_In in Hn. eauto.
Qed.

Lemma prediction_create_ok now nextId p db db' q :
  PredictionRepository.create now nextId p db = (db', Ok (Some q)) ->
  In q (predictions db')
  /\ Prediction.event_id q = pin_event_id p
  /\ events db' = events db
  /\ events_id_seq db' = events_id_seq db
  /\ exists more, predictions db' = predictions db ++ more.
Proof.
  unfold PredictionRepository.create, mbind, PredictionRepository.insert_do_nothing, ret.
  destruct (negb (Sql.int4 (pin_event_id p))); [discriminate |].
  destruct (negb (PredictionRepository.prediction_text_ok p)); [discriminate |].
  destruct (PredictionRepository.new_prediction nextId now p) as [r |] eqn:Hnew;
    [| discriminate].
  destruct (new_prediction_keys _ _ _ _ Hnew) as (_ & Hrev & _).
  destruct (2 ^ 31 <=? nextId); [discriminate |].
  destruct (negb (PredictionRepository.row_ok r)); [discriminate |].
  destruct (existsb (fun q0 => Prediction.event_id q0 =? pin_event_id p) (predictions db)).
  - intros [= <- Hl].
    pose proof (latest_prediction_spec (predictions db) (pin_event_id p)) as Hs.
    rewrite Hl in Hs. destruct Hs as (H1 & H2 & _).
    repeat split; auto. exists []. rewrite app_nil_r. reflexivity.
  - destruct (existsb (fun q0 => Prediction.id q0 =? nextId) (predictions db));
      [discriminate |].
    destruct (negb (existsb _ (events db))); [discriminate |].
    intros [= <- <-]. cbn [predictions events events_id_seq].
    repeat split; eauto. apply in_or_app. right. left. reflexivity.
Qed.

Lemma loadPredictions_outcome now batch (file : list PredictionData) :
  forall nextId acc db db1 out,
    DataIngestionService.loadPredictions_from now nextId file batch acc db
    = (db1, Ok out) ->
    exists ids more,
      out = acc ++ ids
      /\ predictions db1 = predictions db ++ more
      /\ events db1 = events db
      /\ events_id_seq db1 = events_id_seq db
      /\ Forall (stored_for db1 batch) ids
      /\ List.length ids = List.length (filter (resolvable batch) file).
Proof.
  induction file as [| p rest IH]; intros nextId acc db db1 out Hload.
  - cbn in Hload. injection Hload as <- <-.
    exists [], []. rewrite !app_nil_r. repeat split; auto.
  - rewrite loadPredictions_step in Hload. cbn [filter]. unfold resolvable at 1.
    destruct (DataIngestionService.resolve batch p) as [eventId | |] eqn:Hres;
      [| apply IH in Hload; exact Hload | discriminate].
    destruct (PredictionRepository.create now nextId _ db) as [dbm [[q |] | err]] eqn:Hc;
      try discriminate.
    destruct (IH _ _ _ _ _ Hload) as (ids & more & -> & Hp & He & Hs & Hst & Hlen).
    destruct (prediction_create_ok _ _ _ _ _ _ Hc) as (Hq & Hqe & He0 & Hs0 & more0 & Hp0).
    destruct (resolved_is_in_batch _ _ _ Hres) as (e & Hein & Heid).
    exists (Prediction.id q :: ids), (more0 ++ more).
    split; [rewrite <- app_assoc; reflexivity |].
    split; [rewrite Hp, Hp0, app_assoc; reflexivity |].
    split; [congruence |]. split; [congruence |].
    split; [| cbn [List.length]; congruence].
    constructor; [| exact Hst].
    exists q. split; [rewrite Hp; apply in_or_app; left; exact Hq |].
    split; [reflexivity |]. exists e. split; [exact Hein |].
    cbn [DataIngestionService.to_prediction pin_event_id] in Hqe. congruence.
Qed.

(** X18. What [loadPredictions] returns.  When the load returns, it returns
    one id for each record that names an event of the batch, and each id is
    that of a stored prediction belonging to one of those events; predictions
    stored before are still there, events are untouched; and records that
    name no event of the batch (an unknown or missing reference, an index past
    the end) leave no trace: the load equals the load of the file without
    them. *)
Theorem loaded_predictions_belong_to_the_batch :
  forall (now nextId : Z) (file : list PredictionData) (batch : list Event.t)
         (db db1 : Db) (ids : list Z),
    DataIngestionService.loadPredictions now nextId file batch db = (db1, Ok ids) ->
    Forall (stored_for db1 batch) ids
    /\ List.length ids = List.length (filter (resolvable batch) file)
    /\ (exists more, predictions db1 = predictions db ++ more)
    /\ events db1 = events db
    /\ DataIngestionService.loadPredictions now nextId
         (filter (resolvable batch) file) batch db = (db1, Ok ids).
Proof.
  intros now nextId file batch db db1 ids Hload.
  unfold DataIngestionService.loadPredictions in *.
  destruct (loadPredictions_outcome now batch file _ _ _ _ _ Hload)
    as (ids' & more & Hout & Hp & He & _ & Hst & Hlen).
  cbn [app] in Hout. subst ids'.
  split; [exact Hst |]. split; [exact Hlen |]. split; [eauto |]. split; [exact He |].
  rewrite <- Hload. generalize (@nil Z) as acc. clear. revert nextId db.
  induction file as [| p rest IH]; intros nextId db acc; [reflexivity |].
  cbn [filter]. rewrite (loadPredictions_step now nextId p rest). unfold resolvable at 1.
  destruct (DataIngestionService.resolve batch p) as [eventId | |] eqn:Hres.
  - rewrite loadPredictions_step, Hres.
    destruct (PredictionRepository.create now nextId _ db) as [db' [[q |] | err]]; auto.
  - apply IH.
  - rewrite loadPredictions_step, Hres. reflexivity.
Qed.

(** X19. A negative [event_index] is not skipped.  If the records before it
    name no event of the batch, a record with no usable [event_ref] and an
    [event_index] below zero makes [loadPredictions] throw a [TypeError] with
    nothing stored, whatever follows it in the file; an index at or past the
    number of events is skipped instead. *)
Theorem negative_event_index_aborts_the_load :
  forall (now nextId i : Z) (before after : list PredictionData) (p : PredictionData)
         (batch : list Event.t) (db : Db),
    Forall (fun x => resolvable batch x = false) before ->
    Routes.pick (pd_event_ref p) = None ->
    pd_event_index p = Some i ->
    (i < 0 ->
     DataIngestionService.loadPredictions now nextId (before ++ p :: after) batch db
     = (db, Throw TypeError))
    /\ (Z.of_nat (List.length batch) <= i ->
        DataIngestionService.loadPredictions now nextId (before ++ p :: after) batch db
        = DataIngestionService.loadPredictions now nextId after batch db).
Proof.
  intros now nextId i before after p batch db Hbefore Href Hidx.
  unfold DataIngestionService.loadPredictions. generalize (@nil Z) as acc.
  induction Hbefore as [| x l Hx _ IH]; intros acc.
  - cbn [app]. rewrite loadPredictions_step.
    unfold DataIngestionService.resolve. rewrite Href, Hidx. split; intros Hi.
    + destruct (Z.leb_spec (Z.of_nat (List.length batch)) i); [lia |].
      destruct (Z.ltb_spec i 0); [reflexivity | lia].
    + destruct (Z.leb_spec (Z.of_nat (List.length batch)) i); [reflexivity | lia].
  - cbn [app]. rewrite loadPredictions_step.
    unfold resolvable in Hx.
    destruct (DataIngestionService.resolve batch x); try discriminate.
    apply IH.
Qed.

(** ** Loading both files *)

(** X20. [loadData] ties the two files together.  When it returns, the
    event ids it reports are the ids of the events it returns, those events
    are stored, and every prediction id it reports is that of a stored
    prediction whose [event_id] is one of the reported event ids. *)
Theorem loadData_links_predictions_to_its_events :
  forall (rt : Runtime) (now nextId : Z) (eventsFile : list EventData)
         (predictionsFile : list PredictionData) (db db2 : Db)
         (loaded : list Event.t) (eventIds predictionIds : list Z),
    DataIngestionService.loadData rt now nextId eventsFile predictionsFile db
    = (db2, Ok (loaded, eventIds, predictionIds)) ->
    eventIds = map Event.id loaded
    /\ Forall (fun r => In r (events db2)) loaded
    /\ Forall (fun i => exists q, In q (predictions db2) /\ Prediction.id q = i
                                  /\ In (Prediction.event_id q) eventIds)
              predictionIds.
Proof.
  intros rt now nextId eventsFile predictionsFile db db2 loaded eventIds predictionIds.
  unfold DataIngestionService.loadData, mbind, ret.
  destruct (DataIngestionService.loadEvents rt now eventsFile db)
    as [db1 [evs | err]] eqn:He; [| discriminate].
  destruct (DataIngestionService.loadPredictions now nextId predictionsFile evs db1)
    as [db2' [ids | err]] eqn:Hp; [| discriminate].
  intros [= <- <- <- <-].
  unfold DataIngestionService.loadEvents in He.
  destruct (loadEvents_replay rt eventsFile _ _ _ _ _ He)
    as (rows & _ & Hrows & _ & _ & Hstored & _ & _).
  cbn [app] in Hrows. subst rows.
  unfold DataIngestionService.loadPredictions in Hp.
  destruct (loadPredictions_outcome now evs predictionsFile _ _ _ _ _ Hp)
    as (ids' & _ & Hids & _ & Hev & _ & Hst & _).
  cbn [app] in Hids. subst ids'.
  split; [reflexivity |]. split.
  - rewrite Hev. exact Hstored.
  - eapply Forall_impl; [| exact Hst].
    intros i (q & Hq & Hid & e & Hein & Heq).
    exists q. split; [exact Hq |]. split; [exact Hid |].
    rewrite Heq. apply in_map. exact Hein.
Qed.

(** ** Instances of the further properties *)

Lemma sample_db_ok : store_ok sample_db.
Proof.
  unfold store_ok, sample_db, sample_event. cbn [events predictions events_id_seq map
    Event.id Event.event_ref Prediction.id Prediction.event_id].
  split; [repeat constructor; cbn; intuition discriminate |].
  split; [repeat constructor; cbn; intuition discriminate |].
  split; [repeat constructor; cbn; intuition discriminate |].
  split; [repeat constructor; cbn; intuition discriminate |].
  intros p [<- | [<- | []]]; cbn [Prediction.event_id]; eexists; split;
    [left; reflexivity | | right; right; left; reflexivity |]; reflexivity.
Defined.


(** A fresh event in the sample table, read back by reference. *)
Lemma created_event_is_found_again_witness :
  EventRepository.findByEventRef "ref-9"
    (fst (EventRepository.create 9000 (arsenal_input "ref-9") sample_db))
  = (fst (EventRepository.create 9000 (arsenal_input "ref-9") sample_db),
     Ok (Some (Event.mk 4 "ref-9" "Football" "Premier League" "Arsenal" "Chelsea" 5000
                        (Some "Emirates Stadium") "SCHEDULED" 9000 9000 false))).
Proof.
  apply (proj1 (created_event_is_found_again 9000 (arsenal_input "ref-9") sample_db
                  (fst (EventRepository.create 9000 (arsenal_input "ref-9") sample_db))
                  (Event.mk 4 "ref-9" "Football" "Premier League" "Arsenal" "Chelsea" 5000
                            (Some "Emirates Stadium") "SCHEDULED" 9000 9000 false)
                  eq_refl)).
Defined.

Lemma repositories_keep_the_key_constraints_witness :
  store_ok (fst (EventRepository.update 400 2 [("ID", VNumber (1000 # 1))] sample_db)).
Proof.
  apply (proj1 (proj2 (repositories_keep_the_key_constraints sample_db sample_db_ok))).
Defined.

(** Deleting the archived sample event, which owns the second prediction. *)
Lemma deleting_an_event_cascades_witness :
  snd (EventRepository.delete 3 sample_db) = Ok true
  /\ predictions (fst (EventRepository.delete 3 sample_db))
     = [Prediction.mk 1 1 "WINNER" "Arsenal" 7550 "form" "v1" 150 150].
Proof.
  pose proof (deleting_an_event_cascades 3 None sample_db eq_refl) as H.
  cbv zeta in H. destruct H as (H1 & _ & H3 & _).
  split; [exact H1 | exact (H3 sample_db_ok)].
Defined.

(** A sweep of the sample table with no retention at the instant 3000, and
    the list afterwards. *)
Lemma swept_events_leave_the_list_witness :
  match snd (EventRepository.findAll Sql.backward 9000 no_event_filters
               (mkPagination 1 20 0)
               (fst (EventRepository.archiveOldEvents 3000 0 sample_db))) with
  | Ok (page, _) =>
      Forall (fun v => 3000 - 0 * ms_per_day <= Event.event_date (row v)) page
  | Throw _ => True
  end.
Proof.
  apply (swept_events_leave_the_list Sql.backward 3000 0 9000 no_event_filters
           (mkPagination 1 20 0) sample_db eq_refl).
Defined.

(** The first sample event goes live. *)
Lemma event_update_touches_one_record_witness :
  match snd (EventRepository.update 400 1 [("status", VString "LIVE")] sample_db) with
  | Ok (Some r') =>
      exists r,
        In r (events sample_db)
        /\ Event.id r = 1
        /\ Permutation
             (events (fst (EventRepository.update 400 1 [("status", VString "LIVE")]
                             sample_db)))
             (r' :: filter (fun e => negb (Event.id e =? 1)) (events sample_db))
        /\ Event.updated_at r' = 400
        /\ (unnamed "id" (filter provided [("status", VString "LIVE")]) ->
            Event.id r' = 1)
        /\ (unnamed "created_at" (filter provided [("status", VString "LIVE")]) ->
            Event.created_at r' = Event.created_at r)
        /\ predictions (fst (EventRepository.update 400 1 [("status", VString "LIVE")]
                               sample_db))
           = predictions sample_db
        /\ events_id_seq (fst (EventRepository.update 400 1
                                 [("status", VString "LIVE")] sample_db))
           = events_id_seq sample_db
  | Ok None =>
      fst (EventRepository.update 400 1 [("status", VString "LIVE")] sample_db)
      = sample_db
  | Throw _ =>
      fst (EventRepository.update 400 1 [("status", VString "LIVE")] sample_db)
      = sample_db
  end.
Proof.
  refine (event_update_touches_one_record 400 1 [("status", VString "LIVE")] sample_db
            (proj1 sample_db_ok) _).
  intros key value [[= <- <-] | []]. discriminate.
Defined.

(** A second prediction for the first sample event. *)
Lemma prediction_create_is_conflict_as_success_witness :
  fst (PredictionRepository.create 9000 7 (winner_input 1) sample_db) = sample_db
  /\ exists q,
       snd (PredictionRepository.create 9000 7 (winner_input 1) sample_db) = Ok (Some q)
       /\ In q (predictions sample_db)
       /\ Prediction.event_id q = 1
       /\ forall q', In q' (predictions sample_db) ->
                     Prediction.event_id q' = 1 ->
                     Prediction.created_at q' <= Prediction.created_at q.
Proof.
  apply (proj1 (prediction_create_is_conflict_as_success 9000 7 (winner_input 1)
                  sample_db eq_refl eq_refl)).
  eexists. split; [left; reflexivity | reflexivity].
Defined.

Lemma loading_events_twice_adds_nothing_witness :
  DataIngestionService.loadEvents sample_runtime 200 [football_record "my-ref"]
    (mkDb [Event.mk 1 "my-ref" "Football" "Premier League" "Manchester United"
             "Liverpool" 1768489200000 (Some "Old Trafford") "SCHEDULED" 100 100 false]
          [] 2)
  = (mkDb [Event.mk 1 "my-ref" "Football" "Premier League" "Manchester United"
             "Liverpool" 1768489200000 (Some "Old Trafford") "SCHEDULED" 100 100 false]
          [] 3,
     Ok [Event.mk 1 "my-ref" "Football" "Premier League" "Manchester United"
           "Liverpool" 1768489200000 (Some "Old Trafford") "SCHEDULED" 100 100 false]).
Proof.
  refine (loading_events_twice_adds_nothing sample_runtime 100 200
            [football_record "my-ref"] empty_db
            (mkDb [Event.mk 1 "my-ref" "Football" "Premier League" "Manchester United"
                     "Liverpool" 1768489200000 (Some "Old Trafford") "SCHEDULED"
                     100 100 false] [] 2)
            [Event.mk 1 "my-ref" "Football" "Premier League" "Manchester United"
               "Liverpool" 1768489200000 (Some "Old Trafford") "SCHEDULED" 100 100 false]
            _ _ _).
  - vm_compute. reflexivity.
  - intros e [<- | []]. reflexivity.
  - vm_compute. discriminate.
Defined.

(** A file whose second record has no date. *)
Lemma loaded_events_are_the_dated_records_witness :
  map Event.event_ref
    [Event.mk 1 "my-ref" "Football" "Premier League" "Manchester United"
       "Liverpool" 1768489200000 (Some "Old Trafford") "SCHEDULED" 100 100 false]
  = map ed_event_ref
      (filter (dated sample_runtime)
         [football_record "my-ref";
          mkEventData "undated" None None None None None None None None None None None None]).
Proof.
  refine (proj1 (proj2 (loaded_events_are_the_dated_records sample_runtime 100
                  [football_record "my-ref";
                   mkEventData "undated" None None None None None None None None None
                               None None None]
                  empty_db
                  (mkDb [Event.mk 1 "my-ref" "Football" "Premier League"
                           "Manchester United" "Liverpool" 1768489200000
                           (Some "Old Trafford") "SCHEDULED" 100 100 false] [] 2)
                  [Event.mk 1 "my-ref" "Football" "Premier League" "Manchester United"
                     "Liverpool" 1768489200000 (Some "Old Trafford") "SCHEDULED"
                     100 100 false] _)) _).
  - vm_compute. reflexivity.
  - intros e [<- | [<- | []]]; reflexivity.
Defined.

(** One record by reference, one by an unknown reference, one by index 0,
    loaded against the first two sample events. *)
Lemma loaded_predictions_belong_to_the_batch_witness :
  Forall (stored_for
            (fst (DataIngestionService.loadPredictions 9000 7
                    [prediction_record (Some "ref-2") None;
                     prediction_record (Some "nowhere") None;
                     prediction_record None (Some 0)]
                    (firstn 2 (events sample_db)) sample_db))
            (firstn 2 (events sample_db)))
         [7; 1].
Proof.
  refine (proj1 (loaded_predictions_belong_to_the_batch 9000 7
                  [prediction_record (Some "ref-2") None;
                   prediction_record (Some "nowhere") None;
                   prediction_record None (Some 0)]
                  (firstn 2 (events sample_db)) sample_db
                  (fst (DataIngestionService.loadPredictions 9000 7
                          [prediction_record (Some "ref-2") None;
                           prediction_record (Some "nowhere") None;
                           prediction_record None (Some 0)]
                          (firstn 2 (events sample_db)) sample_db))
                  [7; 1] _)).
  vm_compute. reflexivity.
Defined.

Lemma negative_event_index_aborts_the_load_witness :
  DataIngestionService.loadPredictions 9000 7
    ([prediction_record (Some "nowhere") None]
     ++ prediction_record None (Some (-1)) :: [prediction_record (Some "ref-1") None])
    (events sample_db) sample_db
  = (sample_db, Throw TypeError).
Proof.
  refine (proj1 (negative_event_index_aborts_the_load 9000 7 (-1)
                   [prediction_record (Some "nowhere") None]
                   [prediction_record (Some "ref-1") None]
                   (prediction_record None (Some (-1)))
                   (events sample_db) sample_db _ _ _) _).
  - constructor; [reflexivity | constructor].
  - reflexivity.
  - reflexivity.
  - lia.
Defined.

Lemma loadData_links_predictions_to_its_events_witness :
  [1] = map Event.id
          [Event.mk 1 "my-ref" "Football" "Premier League" "Manchester United"
             "Liverpool" 1768489200000 (Some "Old Trafford") "SCHEDULED" 100 100 false].
Proof.
  refine (proj1 (loadData_links_predictions_to_its_events sample_runtime 100 1
                  [football_record "my-ref"] [prediction_record (Some "my-ref") None]
                  empty_db
                  (fst (DataIngestionService.loadData sample_runtime 100 1
                          [football_record "my-ref"]
                          [prediction_record (Some "my-ref") None] empty_db))
                  [Event.mk 1 "my-ref" "Football" "Premier League" "Manchester United"
                     "Liverpool" 1768489200000 (Some "Old Trafford") "SCHEDULED"
                     100 100 false]
                  [1] [1] _)).
  vm_compute. reflexivity.
Defined.

(** A reference of 64 characters and a blank: the column keeps the 64, the
    look-up asks for all 65, and a second load of the same file finds no
    row to return. *)
Example a_long_reference_is_not_found_again :
  let ref := "0123456789abcdef0123456789abcdef0123456789abcdef0123456789abcdef " in
  let first := DataIngestionService.loadEvents sample_runtime 100 [football_record ref]
                 empty_db in
  map Event.event_ref (match snd first with Ok rows => rows | Throw _ => [] end)
  = ["0123456789abcdef0123456789abcdef0123456789abcdef0123456789abcdef"]
  /\ snd (DataIngestionService.loadEvents sample_runtime 200 [football_record ref]
            (fst first))
     = Throw TypeError.
Proof. vm_compute. split; reflexivity. Qed.

(** The last value of the id sequence: the first load takes it, the second
    has none to draw. *)
Example a_used_up_sequence_stops_the_second_load :
  let first := DataIngestionService.loadEvents sample_runtime 100
                 [football_record "my-ref"] (mkDb [] [] (2 ^ 31 - 1)) in
  map Event.id (match snd first with Ok rows => rows | Throw _ => [] end)
  = [2 ^ 31 - 1]
  /\ snd (DataIngestionService.loadEvents sample_runtime 200 [football_record "my-ref"]
            (fst first))
     = Throw (StorageError "nextval: reached maximum value of sequence").
Proof. vm_compute. split; reflexivity. Qed.

(** An update that names the [id] column moves the event to another id; a
    prediction that references the old id stops it. *)
Example update_of_the_id_column :
  map Event.id
      (events (fst (EventRepository.update 400 2 [("ID", VNumber (1000 # 1))] sample_db)))
  = [1; 3; 1000]
  /\ snd (EventRepository.update 400 1 [("ID", VNumber (1000 # 1))] sample_db)
     = Throw (StorageError "constraint violated").
Proof. vm_compute. split; reflexivity. Qed.
